(** * Report query builder: a shallow embedding of [api/query_builder.py]

    The development follows the Python module top to bottom: the pieces of
    the Python runtime the module leans on ([str], [str.join],
    [str.replace], [re.match], [datetime]), the entity registry of
    [api/entities.py], the helper functions of the builder, the join-path
    search, [build_query] and [generate_preview_sql], and the parts of
    [api/routes.py] that compute on a configuration; then the vocabulary
    of the specification, sample inputs, and the theorems.  Strings are
    byte strings; exceptions are an explicit result type; the wall clock
    read by [datetime.utcnow()] is an explicit argument [now]; [repr] of a
    string, [str.upper] and [datetime.fromisoformat] are parameters of the
    builder. *)

From Stdlib Require Import ZArith String Ascii List Lia Bool.
From Stdlib Require Import Decimal DecimalNat DecimalString.
From stdpp Require Import base tactics option list sets gmap strings.

Local Open Scope string_scope.
Local Open Scope Z_scope.
Local Open Scope list_scope.

(* ===================================================================== *)
(** ** Exceptions *)
(* ===================================================================== *)

Inductive exn : Type :=
| ValueError (msg : string)
| OverflowError
| KeyError (key : string).

Inductive result (A : Type) : Type :=
| OK (a : A)
| Raise (e : exn).
Arguments OK {A} a.
Arguments Raise {A} e.

#[global] Instance result_ret : MRet result := fun _ a => OK a.
#[global] Instance result_bind : MBind result := fun _ _ f m =>
  match m with OK a => f a | Raise e => Raise e end.
#[global] Instance result_fmap : FMap result := fun _ _ f m =>
  match m with OK a => OK (f a) | Raise e => Raise e end.

(** A [for] loop whose body may raise: the state is threaded through the
    elements in order and the first exception aborts the loop. *)
Fixpoint for_each {A S : Type} (body : S -> A -> result S) (l : list A) (s : S)
  : result S :=
  match l with
  | [] => OK s
  | x :: l' => s' ← body s x; for_each body l' s'
  end.

(* ===================================================================== *)
(** ** The Python runtime *)
(* ===================================================================== *)

Module Py.

(** The line feed character, written [\n] in the Python source. *)
Definition LF : ascii := "010"%char.
Definition NL : string := String LF EmptyString.

Definition is_digit (c : ascii) : bool :=
  let n := nat_of_ascii c in (48 <=? n)%nat && (n <=? 57)%nat.
Definition is_upper (c : ascii) : bool :=
  let n := nat_of_ascii c in (65 <=? n)%nat && (n <=? 90)%nat.
Definition is_lower (c : ascii) : bool :=
  let n := nat_of_ascii c in (97 <=? n)%nat && (n <=? 122)%nat.

(** [str(n)] for a non-negative [int], and [str(z)] for any [int]. *)
Definition str_nat (n : nat) : string := NilZero.string_of_uint (Nat.to_uint n).
Definition str_int (z : Z) : string := NilZero.string_of_int (Z.to_int z).

(** [sep.join(parts)]. *)
Fixpoint join (sep : string) (parts : list string) : string :=
  match parts with
  | [] => EmptyString
  | [p] => p
  | p :: rest => p +:+ sep +:+ join sep rest
  end.

Fixpoint map_chars (f : ascii -> ascii) (s : string) : string :=
  match s with
  | EmptyString => EmptyString
  | String c s' => String (f c) (map_chars f s')
  end.

(** [s.lower()], used only in the test [s.lower() == "desc"]: the letters
    [A] to [Z] are lower-cased and no other character becomes one of [d],
    [e], [s], [c]. *)
Definition lower_char (c : ascii) : ascii :=
  if is_upper c then ascii_of_nat (nat_of_ascii c + 32) else c.
Definition lower : string -> string := map_chars lower_char.

(** [s.replace(old, new)]: every non-overlapping occurrence of [old],
    found left to right, is replaced.  [skip] counts the characters of an
    occurrence already replaced that remain to be passed over. *)
Fixpoint replace_from (old new : string) (skip : nat) (s : string) : string :=
  match s with
  | EmptyString => EmptyString
  | String c s' =>
      match skip with
      | S k => replace_from old new k s'
      | O =>
          if String.prefix old s
          then new +:+ replace_from old new (String.length old - 1) s'
          else String c (replace_from old new O s')
      end
  end.

Fixpoint intersperse (new : string) (s : string) : string :=
  match s with
  | EmptyString => new
  | String c s' => new +:+ String c (intersperse new s')
  end.

Definition replace (old new s : string) : string :=
  match old with
  | EmptyString => intersperse new s
  | _ => replace_from old new O s
  end.

(** Truthiness of an optional string: [None] and the empty string are
    falsy. *)
Definition truthy (o : option string) : option string :=
  match o with
  | Some EmptyString => None
  | _ => o
  end.

(** [enumerate(l, start)]. *)
Fixpoint enumerate {A : Type} (start : nat) (l : list A) : list (nat * A) :=
  match l with
  | [] => []
  | x :: l' => (start, x) :: enumerate (S start) l'
  end.

(** An insertion-ordered [dict] with string keys is an association list:
    [d.get(k)], [k in d] and [d[k]] (which raises [KeyError]). *)
Fixpoint dict_get {V : Type} (k : string) (d : list (string * V)) : option V :=
  match d with
  | [] => None
  | (k', v) :: d' => if String.eqb k' k then Some v else dict_get k d'
  end.
Definition dict_mem {V : Type} (k : string) (d : list (string * V)) : bool :=
  match dict_get k d with Some _ => true | None => false end.
Definition dict_item {V : Type} (d : list (string * V)) (k : string) : result V :=
  match dict_get k d with Some v => OK v | None => Raise (KeyError k) end.

(** [re.match(r'^[a-zA-Z_][a-zA-Z0-9_]*$', name)] as a boolean.  Without
    the [MULTILINE] flag [^] matches at the start only, and [$] matches at
    the end of the string and also just before a line feed that ends the
    string. *)
Definition is_ident_start (c : ascii) : bool :=
  is_upper c || is_lower c || Ascii.eqb c "_"%char.
Definition is_ident_char (c : ascii) : bool := is_ident_start c || is_digit c.
Fixpoint match_ident_tail (s : string) : bool :=
  match s with
  | EmptyString => true
  | String c s' =>
      if is_ident_char c then match_ident_tail s'
      else Ascii.eqb c LF && String.eqb s' EmptyString
  end.
Definition re_match_identifier (name : string) : bool :=
  match name with
  | EmptyString => false
  | String c s' => is_ident_start c && match_ident_tail s'
  end.

(** [s[n:]]. *)
Fixpoint drop (n : nat) (s : string) : string :=
  match n, s with
  | O, _ => s
  | S n', String _ s' => drop n' s'
  | S _, EmptyString => EmptyString
  end.

(** [s.split(sep, 1)] for a non-empty [sep] that occurs in [s]: the text
    before the first occurrence and the text after it; [None] when
    [sep in s] is false. *)
Fixpoint split_once (sep s : string) : option (string * string) :=
  if String.prefix sep s then Some (EmptyString, drop (String.length sep) s)
  else
    match s with
    | EmptyString => None
    | String c s' =>
        match split_once sep s' with
        | Some (before, after) => Some (String c before, after)
        | None => None
        end
    end.

(** [sub in s]. *)
Fixpoint contains (sub s : string) : bool :=
  if String.prefix sub s then true
  else match s with
       | EmptyString => false
       | String _ s' => contains sub s'
       end.

End Py.

(* ===================================================================== *)
(** ** [datetime] and [timedelta] *)
(* ===================================================================== *)

(** A [timedelta] is a signed number of microseconds.  A [datetime] has
    its date and time fields, held as the number of microseconds from
    0001-01-01T00:00:00 ([datetime.min]) to the moment they spell, and its
    [tzinfo], held as the UTC offset it stands for; a naive [datetime] has
    none.  Both types are bounded in Python and their constructors raise
    [OverflowError] outside the bounds. *)
Module Datetime.

Definition timedelta : Type := Z.

Record datetime : Type := mk_datetime {
  clock : Z;
  utcoffset : option timedelta }.

(** The naive [datetime] whose fields spell [t]. *)
Definition naive (t : Z) : datetime := mk_datetime t None.

Definition US_PER_SECOND : Z := 1000000.
Definition US_PER_MINUTE : Z := 60 * US_PER_SECOND.
Definition US_PER_HOUR : Z := 3600 * US_PER_SECOND.
Definition US_PER_DAY : Z := 24 * US_PER_HOUR.

(** [timedelta.max.days]. *)
Definition MAX_DELTA_DAYS : Z := 999999999.
(** [date.max.toordinal()]: 9999-12-31 is day 3652059, counting from 1. *)
Definition MAX_ORDINAL : Z := 3652059.

(** The normalising constructor: the day component, [us // US_PER_DAY],
    must have magnitude at most [MAX_DELTA_DAYS]. *)
Definition mk_timedelta (us : Z) : result timedelta :=
  let days := us / US_PER_DAY in
  if (- MAX_DELTA_DAYS <=? days) && (days <=? MAX_DELTA_DAYS)
  then OK us else Raise OverflowError.

Definition timedelta_hours (n : Z) : result timedelta := mk_timedelta (n * US_PER_HOUR).
Definition timedelta_days (n : Z) : result timedelta := mk_timedelta (n * US_PER_DAY).
Definition timedelta_weeks (n : Z) : result timedelta := mk_timedelta (n * 7 * US_PER_DAY).

Definition in_range (t : Z) : bool := (0 <=? t) && (t <? MAX_ORDINAL * US_PER_DAY).

(** [t - delta] on the fields of a naive [datetime]. *)
Definition sub (t : Z) (delta : timedelta) : result Z :=
  let r := t - delta in
  if in_range r then OK r else Raise OverflowError.

(** Gregorian calendar date of a day number counted from 0001-01-01 = 0. *)
Definition civil (day : Z) : Z * Z * Z :=
  let z := day + 306 in
  let era := z / 146097 in
  let doe := z mod 146097 in
  let yoe := (doe - doe / 1460 + doe / 36524 - doe / 146096) / 365 in
  let doy := doe - (365 * yoe + yoe / 4 - yoe / 100) in
  let mp := (5 * doy + 2) / 153 in
  let d := doy - (153 * mp + 2) / 5 + 1 in
  let m := if mp <? 10 then mp + 3 else mp - 9 in
  let y := yoe + era * 400 + (if m <=? 2 then 1 else 0) in
  (y, m, d).

(** Decimal rendering of a non-negative number, zero-padded on the left to
    [width] digits. *)
Fixpoint zeros (n : nat) : string :=
  match n with
  | O => EmptyString
  | S k => String "0"%char (zeros k)
  end.
Definition pad (width : nat) (n : Z) : string :=
  let s := Py.str_int n in
  zeros (width - String.length s) +:+ s.

(** The date and time of [isoformat()]: [YYYY-MM-DDTHH:MM:SS], followed
    by [.ffffff] when the microsecond field is not zero. *)
Definition isoformat_fields (t : Z) : string :=
  let '(y, m, d) := civil (t / US_PER_DAY) in
  let us_of_day := t mod US_PER_DAY in
  let secs := us_of_day / US_PER_SECOND in
  let us := us_of_day mod US_PER_SECOND in
  pad 4 y +:+ "-" +:+ pad 2 m +:+ "-" +:+ pad 2 d +:+ "T" +:+
  pad 2 (secs / 3600) +:+ ":" +:+ pad 2 (secs / 60 mod 60) +:+ ":" +:+ pad 2 (secs mod 60) +:+
  (if us =? 0 then EmptyString else "." +:+ pad 6 us).

(** The UTC offset of [isoformat()]: the sign and [HH:MM], followed by
    [:SS] when the offset is not a whole number of minutes, and then by
    [.ffffff] when it is not a whole number of seconds. *)
Definition format_offset (off : timedelta) : string :=
  let sign := if off <? 0 then "-" else "+" in
  let a := Z.abs off in
  let hh := a / US_PER_HOUR in
  let mm := a mod US_PER_HOUR / US_PER_MINUTE in
  let ss := a mod US_PER_MINUTE in
  sign +:+ pad 2 hh +:+ ":" +:+ pad 2 mm +:+
  (if ss =? 0 then EmptyString
   else ":" +:+ pad 2 (ss / US_PER_SECOND) +:+
        (if ss mod US_PER_SECOND =? 0 then EmptyString
         else "." +:+ pad 6 (ss mod US_PER_SECOND))).

(** [t.isoformat()]: the date and time, followed by the UTC offset when
    [t] is not naive. *)
Definition isoformat (t : datetime) : string :=
  isoformat_fields (clock t) +:+
  match utcoffset t with
  | Some off => format_offset off
  | None => EmptyString
  end.

End Datetime.

(* ===================================================================== *)
(** ** [api/entities.py]: the entity registry *)
(* ===================================================================== *)

(** Of the pydantic models only the attributes read by the query builder
    are kept: a field's [id] and [name], a relationship's endpoints and
    join type, an entity's schema, table, fields and relationships. *)
Module Entities.

Inductive AggregationType : Type :=
| COUNT | SUM | AVG | MIN | MAX | COUNT_DISTINCT.

(** The [.value] of an enum member. *)
Definition aggregation_value (a : AggregationType) : string :=
  match a with
  | COUNT => "count" | SUM => "sum" | AVG => "avg"
  | MIN => "min" | MAX => "max" | COUNT_DISTINCT => "count_distinct"
  end.

Record EntityField : Type := mkField { f_id : string; f_name : string }.

Record EntityRelationship : Type := mkRelationship {
  target_entity : string;
  source_field : string;
  target_field : string;
  join_type : string }.

Record Entity : Type := {
  schema_name : string;
  table_name : string;
  fields : list EntityField;
  relationships : list EntityRelationship }.

Definition _timestamp_field (name : string) : EntityField := mkField name name.

Definition objects_entity : Entity :=
  {| schema_name := "raw_business_data";
     table_name := "objects";
     fields :=
    [mkField "object_id" "object_id";
     mkField "object_label" "object_label";
     mkField "device_id" "device_id";
     mkField "client_id" "client_id";
     mkField "group_id" "group_id";
     mkField "model" "model";
     mkField "create_datetime" "create_datetime";
     mkField "is_deleted" "is_deleted";
     mkField "is_clone" "is_clone";
     _timestamp_field "record_added_at"];
     relationships :=
    [mkRelationship "devices" "device_id" "device_id" "left";
     mkRelationship "groups" "group_id" "group_id" "left";
     mkRelationship "vehicles" "object_id" "object_id" "left";
     mkRelationship "employees" "object_id" "object_id" "left"] |}.

Definition vehicles_entity : Entity :=
  {| schema_name := "raw_business_data";
     table_name := "vehicles";
     fields :=
    [mkField "vehicle_id" "vehicle_id";
     mkField "vehicle_label" "vehicle_label";
     mkField "registration_number" "registration_number";
     mkField "vin" "vin";
     mkField "model" "model";
     mkField "manufacture_year" "manufacture_year";
     mkField "vehicle_type" "vehicle_type";
     mkField "fuel_type" "fuel_type";
     mkField "fuel_tank_volume" "fuel_tank_volume";
     mkField "standard_fuel_consumption" "standard_fuel_consumption";
     mkField "max_speed" "max_speed";
     mkField "object_id" "object_id";
     mkField "user_id" "user_id";
     mkField "garage_id" "garage_id";
     _timestamp_field "record_added_at"];
     relationships :=
    [mkRelationship "objects" "object_id" "object_id" "left";
     mkRelationship "users" "user_id" "user_id" "left"] |}.

Definition employees_entity : Entity :=
  {| schema_name := "raw_business_data";
     table_name := "employees";
     fields :=
    [mkField "employee_id" "employee_id";
     mkField "first_name" "first_name";
     mkField "last_name" "last_name";
     mkField "middle_name" "middle_name";
     mkField "email" "email";
     mkField "phone_number" "phone_number";
     mkField "personnel_number" "personnel_number";
     mkField "department_id" "department_id";
     mkField "object_id" "object_id";
     mkField "hardware_key" "hardware_key";
     mkField "driver_license_number" "driver_license_number";
     mkField "is_deleted" "is_deleted";
     _timestamp_field "record_added_at"];
     relationships :=
    [mkRelationship "departments" "department_id" "department_id" "left";
     mkRelationship "objects" "object_id" "object_id" "left"] |}.

Definition departments_entity : Entity :=
  {| schema_name := "raw_business_data";
     table_name := "departments";
     fields :=
    [mkField "department_id" "department_id";
     mkField "department_label" "department_label";
     mkField "user_id" "user_id";
     mkField "address" "address";
     mkField "latitude" "latitude";
     mkField "longitude" "longitude";
     _timestamp_field "record_added_at"];
     relationships :=
    [mkRelationship "employees" "department_id" "department_id" "left"] |}.

Definition groups_entity : Entity :=
  {| schema_name := "raw_business_data";
     table_name := "groups";
     fields :=
    [mkField "group_id" "group_id";
     mkField "group_label" "group_label";
     mkField "group_color" "group_color";
     mkField "client_id" "client_id";
     _timestamp_field "record_added_at"];
     relationships :=
    [mkRelationship "objects" "group_id" "group_id" "left"] |}.

Definition devices_entity : Entity :=
  {| schema_name := "raw_business_data";
     table_name := "devices";
     fields :=
    [mkField "device_id" "device_id";
     mkField "device_imei" "device_imei";
     mkField "phone" "phone";
     mkField "network_label" "network_label";
     mkField "signal_level" "signal_level";
     mkField "has_roaming" "has_roaming";
     mkField "is_sim_blocked" "is_sim_blocked";
     mkField "created_at" "created_at";
     _timestamp_field "record_added_at"];
     relationships :=
    [mkRelationship "objects" "device_id" "device_id" "left";
     mkRelationship "sensor_description" "device_id" "device_id" "left"] |}.

Definition sensor_description_entity : Entity :=
  {| schema_name := "raw_business_data";
     table_name := "sensor_description";
     fields :=
    [mkField "sensor_id" "sensor_id";
     mkField "device_id" "device_id";
     mkField "sensor_label" "sensor_label";
     mkField "sensor_type" "sensor_type";
     mkField "input_label" "input_label";
     mkField "sensor_units" "sensor_units";
     mkField "multiplier" "multiplier";
     mkField "divider" "divider";
     _timestamp_field "record_added_at"];
     relationships :=
    [mkRelationship "devices" "device_id" "device_id" "inner"] |}.

Definition tags_entity : Entity :=
  {| schema_name := "raw_business_data";
     table_name := "tags";
     fields :=
    [mkField "tag_id" "tag_id";
     mkField "tag_label" "tag_label";
     mkField "color" "color";
     mkField "user_id" "user_id";
     _timestamp_field "record_added_at"];
     relationships :=
    [] |}.

Definition geofences_entity : Entity :=
  {| schema_name := "raw_business_data";
     table_name := "zones";
     fields :=
    [mkField "zone_id" "zone_id";
     mkField "zone_label" "zone_label";
     mkField "zone_type" "zone_type";
     mkField "address" "address";
     mkField "latitude" "latitude";
     mkField "longitude" "longitude";
     mkField "radius" "radius";
     mkField "color" "color";
     _timestamp_field "record_added_at"];
     relationships :=
    [] |}.

Definition pois_entity : Entity :=
  {| schema_name := "raw_business_data";
     table_name := "places";
     fields :=
    [mkField "place_id" "place_id";
     mkField "place_label" "place_label";
     mkField "address" "address";
     mkField "latitude" "latitude";
     mkField "longitude" "longitude";
     mkField "radius" "radius";
     mkField "description" "description";
     mkField "external_id" "external_id";
     mkField "user_id" "user_id";
     _timestamp_field "record_added_at"];
     relationships :=
    [] |}.

Definition tracking_data_core_entity : Entity :=
  {| schema_name := "raw_telematics_data";
     table_name := "tracking_data_core";
     fields :=
    [mkField "device_id" "device_id";
     mkField "device_time" "device_time";
     mkField "platform_time" "platform_time";
     mkField "latitude" "latitude";
     mkField "longitude" "longitude";
     mkField "speed" "speed";
     mkField "altitude" "altitude";
     mkField "satellites" "satellites";
     mkField "event_id" "event_id";
     _timestamp_field "record_added_at"];
     relationships :=
    [mkRelationship "devices" "device_id" "device_id" "inner"] |}.

Definition inputs_entity : Entity :=
  {| schema_name := "raw_telematics_data";
     table_name := "inputs";
     fields :=
    [mkField "device_id" "device_id";
     mkField "device_time" "device_time";
     mkField "sensor_name" "sensor_name";
     mkField "value" "value";
     mkField "event_id" "event_id";
     _timestamp_field "record_added_at"];
     relationships :=
    [mkRelationship "devices" "device_id" "device_id" "inner"] |}.

Definition states_entity : Entity :=
  {| schema_name := "raw_telematics_data";
     table_name := "states";
     fields :=
    [mkField "device_id" "device_id";
     mkField "device_time" "device_time";
     mkField "state_name" "state_name";
     mkField "value" "value";
     mkField "status" "status";
     mkField "event_id" "event_id";
     _timestamp_field "record_added_at"];
     relationships :=
    [mkRelationship "devices" "device_id" "device_id" "inner"] |}.

Definition ENTITIES : list (string * Entity) :=
  [("objects", objects_entity);
   ("vehicles", vehicles_entity);
   ("employees", employees_entity);
   ("departments", departments_entity);
   ("groups", groups_entity);
   ("devices", devices_entity);
   ("sensor_description", sensor_description_entity);
   ("tags", tags_entity);
   ("geofences", geofences_entity);
   ("pois", pois_entity);
   ("tracking_data_core", tracking_data_core_entity);
   ("inputs", inputs_entity);
   ("states", states_entity)].

(** [get_entity], over a registry given as the dict it reads. *)
Definition get_entity (registry : list (string * Entity)) (entity_id : string)
  : option Entity :=
  Py.dict_get entity_id registry.

End Entities.

(* ===================================================================== *)
(** ** [api/query_builder.py]: the configuration model *)
(* ===================================================================== *)

Import Entities.

(** The pydantic models, with the attributes the builder reads.  Three
    models have an [entity_id] and a [field_id]: the projections carry the
    prefixes [sf_], [fc_] and [sc_]; [TimeRange.type] is [tr_type].  The
    attributes the builder never reads ([alias], [id], [name],
    [description]) are left out. *)
Inductive FilterOperator : Type :=
| EQUALS | NOT_EQUALS | CONTAINS | NOT_CONTAINS | STARTS_WITH | ENDS_WITH
| GREATER_THAN | GREATER_EQUAL | LESS_THAN | LESS_EQUAL | BETWEEN
| IN | NOT_IN | IS_NULL | IS_NOT_NULL.

(** A JSON value carried by a filter ([Optional[Any]]).  [VOther] stands for
    a float or an object, known by its [str()] text. *)
#[warnings="-register-all"]
Inductive value : Type :=
| VNone
| VBool (b : bool)
| VInt (z : Z)
| VStr (s : string)
| VList (l : list value)
| VOther (shown : string).

Record SelectedField : Type := {
  sf_entity_id : string;
  sf_field_id : string;
  sf_aggregation : option AggregationType }.

Record FilterCondition : Type := {
  fc_entity_id : string;
  fc_field_id : string;
  fc_operator : FilterOperator;
  fc_value : value;
  fc_value2 : value }.

Record SortConfig : Type := {
  sc_entity_id : string;
  sc_field_id : string;
  sc_direction : string }.

Record TimeRange : Type := {
  tr_type : string;
  relative_value : option Z;
  relative_unit : option string;
  start_date : option string;
  end_date : option string }.

Record ReportConfig : Type := {
  primary_entity : string;
  selected_fields : list SelectedField;
  filters : list FilterCondition;
  sorting : list SortConfig;
  time_range : option TimeRange;
  time_field : option string;
  time_field_entity : option string;
  group_by : option (list SelectedField);
  limit : Z }.

(** One join: [(from_entity, to_entity, from_field, to_field, join_type)]. *)
Definition JoinStep : Type := string * string * string * string * string.

(** What a bounded run of the join-path search reports. *)
Inductive search : Type :=
| OutOfFuel
| Found (path : list JoinStep)
| NotFound.

(** A [for] loop that returns from the enclosing function at the first
    element whose body finds a path. *)
Fixpoint first_found {A : Type} (body : A -> search) (l : list A) : search :=
  match l with
  | [] => NotFound
  | x :: l' =>
      match body x with
      | NotFound => first_found body l'
      | r => r
      end
  end.

Fixpoint first_some {A B : Type} (body : A -> option B) (l : list A) : option B :=
  match l with
  | [] => None
  | x :: l' =>
      match body x with
      | Some b => Some b
      | None => first_some body l'
      end
  end.

(* ===================================================================== *)
(** ** [api/query_builder.py]: the builder *)
(* ===================================================================== *)

Section QueryBuilder.

(** The module-level dict [ENTITIES], in insertion order. *)
Variable registry : list (string * Entity).

(** Three functions of the Python library that the builder calls and that
    are not modelled further: [repr] on a [str]; [str.upper], which
    follows the case mapping of Unicode; and [datetime.fromisoformat],
    which raises [ValueError] on a string it cannot parse and otherwise
    returns a [datetime] that carries the UTC offset the string gives, if
    any. *)
Variable repr_str : string -> string.
Variable str_upper : string -> string.
Variable fromisoformat : string -> result Datetime.datetime.

Fixpoint py_repr (v : value) : string :=
  match v with
  | VNone => "None"
  | VBool true => "True"
  | VBool false => "False"
  | VInt z => Py.str_int z
  | VStr s => repr_str s
  | VList l => "[" +:+ Py.join ", " (map py_repr l) +:+ "]"
  | VOther shown => shown
  end.

(** [str(v)], also what an f-string substitutes for [{v}]. *)
Definition py_str (v : value) : string :=
  match v with
  | VStr s => s
  | _ => py_repr v
  end.

Definition _sanitize_identifier (name : string) : result string :=
  if Py.re_match_identifier name then OK name
  else Raise (ValueError ("Invalid identifier: " +:+ name)).

Definition _get_qualified_field_name
  (entity : Entity) (field : EntityField) (table_alias : string) : result string :=
  alias ← _sanitize_identifier table_alias;
  field_name ← _sanitize_identifier (f_name field);
  OK (alias +:+ "." +:+ field_name).

Definition _get_field_alias
  (entity_id field_id : string) (aggregation : option AggregationType) : string :=
  match aggregation with
  | Some a => aggregation_value a +:+ "_" +:+ entity_id +:+ "_" +:+ field_id
  | None => entity_id +:+ "_" +:+ field_id
  end.

Definition _build_aggregation (field_name : string) (aggregation : AggregationType)
  : string :=
  match aggregation with
  | COUNT => "COUNT(" +:+ field_name +:+ ")"
  | SUM => "SUM(" +:+ field_name +:+ ")"
  | AVG => "AVG(" +:+ field_name +:+ ")"
  | MIN => "MIN(" +:+ field_name +:+ ")"
  | MAX => "MAX(" +:+ field_name +:+ ")"
  | COUNT_DISTINCT => "COUNT(DISTINCT " +:+ field_name +:+ ")"
  end.

(** The closure [param] of [_build_filter_condition]: it appends to the
    shared list [params], advances the enclosing [param_idx] and returns
    the placeholder. *)
Definition param (val : value) (st : list value * nat) : string * (list value * nat) :=
  let '(params, param_idx) := st in
  ("$" +:+ Py.str_nat param_idx, (params ++ [val], S param_idx)).

(** [param(v) for v in value], consumed in order by [", ".join]. *)
Fixpoint param_each (vals : list value) (st : list value * nat)
  : list string * (list value * nat) :=
  match vals with
  | [] => ([], st)
  | v :: vs =>
      let '(p, st1) := param v st in
      let '(ps, st2) := param_each vs st1 in
      (p :: ps, st2)
  end.

(** The f-string [f"{field_name}<op>{param(val)}"]. *)
Definition compare1 (field_name op : string) (val : value) (st : list value * nat)
  : string * (list value * nat) :=
  let '(p, st1) := param val st in
  (field_name +:+ op +:+ p, st1).

Definition _build_filter_condition
  (entity : Entity) (field : EntityField) (table_alias : string)
  (filter_ : FilterCondition) (params : list value) (param_idx : nat)
  : result (string * (list value * nat)) :=
  field_name ← _get_qualified_field_name entity field table_alias;
  let st := (params, param_idx) in
  let val := fc_value filter_ in
  OK match fc_operator filter_ with
     | IS_NULL => (field_name +:+ " IS NULL", st)
     | IS_NOT_NULL => (field_name +:+ " IS NOT NULL", st)
     | EQUALS => compare1 field_name " = " val st
     | NOT_EQUALS => compare1 field_name " != " val st
     | CONTAINS =>
         compare1 field_name " ILIKE " (VStr ("%" +:+ py_str val +:+ "%")) st
     | NOT_CONTAINS =>
         compare1 field_name " NOT ILIKE " (VStr ("%" +:+ py_str val +:+ "%")) st
     | STARTS_WITH =>
         compare1 field_name " ILIKE " (VStr (py_str val +:+ "%")) st
     | ENDS_WITH =>
         compare1 field_name " ILIKE " (VStr ("%" +:+ py_str val)) st
     | GREATER_THAN => compare1 field_name " > " val st
     | GREATER_EQUAL => compare1 field_name " >= " val st
     | LESS_THAN => compare1 field_name " < " val st
     | LESS_EQUAL => compare1 field_name " <= " val st
     | BETWEEN =>
         let '(p1, st1) := param val st in
         let '(p2, st2) := param (fc_value2 filter_) st1 in
         (field_name +:+ " BETWEEN " +:+ p1 +:+ " AND " +:+ p2, st2)
     | IN =>
         match val with
         | VList vs =>
             let '(ps, st1) := param_each vs st in
             (field_name +:+ " IN (" +:+ Py.join ", " ps +:+ ")", st1)
         | _ => compare1 field_name " = " val st
         end
     | NOT_IN =>
         match val with
         | VList vs =>
             let '(ps, st1) := param_each vs st in
             (field_name +:+ " NOT IN (" +:+ Py.join ", " ps +:+ ")", st1)
         | _ => compare1 field_name " != " val st
         end
     end.

Definition parse_bound (date : option string) : result (option Datetime.datetime) :=
  match Py.truthy date with
  | Some s => t ← fromisoformat s; OK (Some t)
  | None => OK None
  end.

(** [now] holds the fields of the value [datetime.utcnow()] returns, a
    naive [datetime].  The dict [delta_map] is built in full before the
    lookup, so all five [timedelta]s are constructed whatever the unit. *)
Definition _calculate_time_range (now : Z) (time_range : TimeRange)
  : result (option Datetime.datetime * option Datetime.datetime) :=
  if String.eqb (tr_type time_range) "absolute" then
    start ← parse_bound (start_date time_range);
    end_ ← parse_bound (end_date time_range);
    OK (start, end_)
  else
    let count := default 0 (relative_value time_range) in
    hours ← Datetime.timedelta_hours count;
    days ← Datetime.timedelta_days count;
    weeks ← Datetime.timedelta_weeks count;
    months ← Datetime.timedelta_days (count * 30);
    years ← Datetime.timedelta_days (count * 365);
    fallback ← Datetime.timedelta_days 7;
    let unit := default "days" (Py.truthy (relative_unit time_range)) in
    let delta :=
      if String.eqb unit "hours" then hours
      else if String.eqb unit "days" then days
      else if String.eqb unit "weeks" then weeks
      else if String.eqb unit "months" then months
      else if String.eqb unit "years" then years
      else fallback in
    start ← Datetime.sub now delta;
    OK (Some (Datetime.naive start), Some (Datetime.naive now)).

(** *** [_find_join_path] *)

Definition forward_step (from_entity_id : string) (rel : EntityRelationship) : JoinStep :=
  (from_entity_id, target_entity rel, source_field rel, target_field rel, join_type rel).

Definition reverse_step (from_entity_id entity_id : string) (rel : EntityRelationship)
  : JoinStep :=
  (from_entity_id, entity_id, target_field rel, source_field rel, join_type rel).

(** The first loop: a relationship of [from_entity] whose target is
    [to_entity_id]. *)
Definition direct_forward (from_entity_id to_entity_id : string) (from_entity : Entity)
  : option (list JoinStep) :=
  first_some
    (fun rel =>
       if String.eqb (target_entity rel) to_entity_id
       then Some [(from_entity_id, to_entity_id,
                   source_field rel, target_field rel, join_type rel)]
       else None)
    (relationships from_entity).

(** The second loop: an unvisited entity [to_entity_id] with a
    relationship whose target is [from_entity_id]. *)
Definition direct_reverse
  (from_entity_id to_entity_id : string) (visited : gset string)
  : option (list JoinStep) :=
  first_some
    (fun item : string * Entity =>
       let '(entity_id, entity) := item in
       if decide (entity_id ∈ visited) then None
       else
         first_some
           (fun rel =>
              if String.eqb (target_entity rel) from_entity_id
              then if String.eqb entity_id to_entity_id
                   then Some [(from_entity_id, to_entity_id,
                               target_field rel, source_field rel, join_type rel)]
                   else None
              else None)
           (relationships entity))
    registry.

Definition prepend (step : JoinStep) (r : search) : search :=
  match r with
  | Found sub_path => Found (step :: sub_path)
  | other => other
  end.

(** The third and fourth loops, over a recursive call [rec] that receives
    the copy of [visited]. *)
Definition multi_hop_forward
  (rec : string -> gset string -> search)
  (from_entity_id : string) (from_entity : Entity) (visited : gset string) : search :=
  first_found
    (fun rel =>
       if decide (target_entity rel ∈ visited) then NotFound
       else prepend (forward_step from_entity_id rel) (rec (target_entity rel) visited))
    (relationships from_entity).

Definition multi_hop_reverse
  (rec : string -> gset string -> search)
  (from_entity_id : string) (visited : gset string) : search :=
  first_found
    (fun item : string * Entity =>
       let '(entity_id, entity) := item in
       if decide (entity_id ∈ visited) then NotFound
       else
         first_found
           (fun rel =>
              if String.eqb (target_entity rel) from_entity_id
              then prepend (reverse_step from_entity_id entity_id rel)
                           (rec entity_id visited)
              else NotFound)
           (relationships entity))
    registry.

(** The body of [_find_join_path] after the two early returns, with
    [visited] already holding [from_entity_id]. *)
Definition find_join_path_body
  (rec : string -> gset string -> search)
  (from_entity_id to_entity_id : string) (visited : gset string) : search :=
  match get_entity registry from_entity_id with
  | None => NotFound
  | Some from_entity =>
      match direct_forward from_entity_id to_entity_id from_entity with
      | Some path => Found path
      | None =>
          match direct_reverse from_entity_id to_entity_id visited with
          | Some path => Found path
          | None =>
              match multi_hop_forward rec from_entity_id from_entity visited with
              | NotFound => multi_hop_reverse rec from_entity_id visited
              | r => r
              end
          end
      end
  end.

(** The search with a bound on the nesting of calls: [fuel] is the number
    of calls that may be active at once, the outermost included. *)
Fixpoint find_join_path_fuel
  (fuel : nat) (from_entity_id to_entity_id : string) (visited : gset string) : search :=
  match fuel with
  | O => OutOfFuel
  | S fuel' =>
      if String.eqb from_entity_id to_entity_id then Found []
      else if decide (from_entity_id ∈ visited) then NotFound
      else
        find_join_path_body
          (fun next visited' => find_join_path_fuel fuel' next to_entity_id visited')
          from_entity_id to_entity_id ({[from_entity_id]} ∪ visited)
  end.

(** [_find_join_path]: [None] is the Python [None].  One nested call per
    registered entity is allowed under the outermost call; theorem
    [find_join_path_terminates] shows that this bound is never reached. *)
Definition _find_join_path
  (from_entity_id to_entity_id : string) (visited : gset string) : option (list JoinStep) :=
  match find_join_path_fuel (S (length registry)) from_entity_id to_entity_id visited with
  | Found path => Some path
  | _ => None
  end.

(** *** [build_query] *)

Definition find_field (entity : Entity) (field_id : string) : option EntityField :=
  List.find (fun f => String.eqb (f_id f) field_id) (fields entity).

(** The three loops that collect [used_entities]. *)
Definition use_entity (used_entities : list (string * Entity)) (entity_id : string)
  : list (string * Entity) :=
  if Py.dict_mem entity_id used_entities then used_entities
  else match get_entity registry entity_id with
       | Some entity => used_entities ++ [(entity_id, entity)]
       | None => used_entities
       end.

Definition collect_used_entities (config : ReportConfig) (primary : Entity)
  : list (string * Entity) :=
  let used := [(primary_entity config, primary)] in
  let used := fold_left use_entity (map sf_entity_id (selected_fields config)) used in
  let used := fold_left use_entity (map fc_entity_id (filters config)) used in
  fold_left use_entity (map sc_entity_id (sorting config)) used.

Definition has_aggregation (config : ReportConfig) : bool :=
  existsb (fun f => bool_decide (is_Some (sf_aggregation f))) (selected_fields config).

(** Truthiness of [config.group_by]: present and not empty. *)
Definition group_by_given (group : option (list SelectedField)) : bool :=
  match group with
  | Some (_ :: _) => true
  | _ => false
  end.

Definition is_in_group_by (group : option (list SelectedField)) (sel_field : SelectedField)
  : bool :=
  existsb
    (fun g => String.eqb (sf_entity_id g) (sf_entity_id sel_field)
              && String.eqb (sf_field_id g) (sf_field_id sel_field))
    (default [] group).

(** The body of the SELECT loop; the state is
    [(select_parts, group_by_fields)]. *)
Definition select_step
  (used_entities : list (string * Entity)) (table_aliases : list (string * string))
  (has_agg : bool) (group : option (list SelectedField))
  (st : list string * list string) (sel_field : SelectedField)
  : result (list string * list string) :=
  let '(select_parts, group_by_fields) := st in
  match Py.dict_get (sf_entity_id sel_field) used_entities with
  | None => OK st
  | Some entity =>
      match find_field entity (sf_field_id sel_field) with
      | None => OK st
      | Some field =>
          table_alias ← Py.dict_item table_aliases (sf_entity_id sel_field);
          field_name ← _get_qualified_field_name entity field table_alias;
          let alias :=
            _get_field_alias (sf_entity_id sel_field) (sf_field_id sel_field)
                             (sf_aggregation sel_field) in
          match sf_aggregation sel_field with
          | Some aggregation =>
              OK (select_parts ++ [_build_aggregation field_name aggregation +:+ " AS " +:+ alias],
                  group_by_fields)
          | None =>
              let group_by_fields :=
                if has_agg && group_by_given group
                then if is_in_group_by group sel_field
                     then group_by_fields ++ [field_name]
                     else group_by_fields
                else group_by_fields in
              OK (select_parts ++ [field_name +:+ " AS " +:+ alias], group_by_fields)
          end
      end
  end.

(** The body of the loop over one join path; the state is
    [(join_clauses, joined_entities)]. *)
Definition join_step (st : list string * gset string) (step : JoinStep)
  : result (list string * gset string) :=
  let '(join_clauses, joined_entities) := st in
  let '(from_ent_id, to_ent_id, from_field, to_field, join_type) := step in
  if decide (to_ent_id ∈ joined_entities) then OK st
  else
    match get_entity registry to_ent_id with
    | None => OK st
    | Some to_entity =>
        match get_entity registry from_ent_id with
        | None => OK st
        | Some from_entity =>
            let up := str_upper join_type in
            let join_type_sql :=
              if String.eqb up "INNER" || String.eqb up "LEFT" || String.eqb up "RIGHT"
              then up else "LEFT" in
            target_schema ← _sanitize_identifier (schema_name to_entity);
            target_table ← _sanitize_identifier (table_name to_entity);
            source_table ← _sanitize_identifier (table_name from_entity);
            source_field ← _sanitize_identifier from_field;
            target_field ← _sanitize_identifier to_field;
            let condition :=
              source_table +:+ "." +:+ source_field +:+ " = " +:+
              target_table +:+ "." +:+ target_field in
            OK (join_clauses ++
                  [join_type_sql +:+ " JOIN " +:+ target_schema +:+ "." +:+ target_table
                   +:+ " ON " +:+ condition],
                {[to_ent_id]} ∪ joined_entities)
        end
    end.

(** The body of the loop over [used_entities] that builds the joins. *)
Definition join_entity (primary_id : string)
  (st : list string * gset string) (item : string * Entity)
  : result (list string * gset string) :=
  let '(entity_id, _) := item in
  if String.eqb entity_id primary_id then OK st
  else
    match _find_join_path primary_id entity_id ∅ with
    | None =>
        Raise (ValueError
                 ("Cannot join entity '" +:+ entity_id +:+ "' to primary entity '"
                  +:+ primary_id +:+ "'. No relationship path found. "
                  +:+ "Please select fields from related entities only."))
    | Some join_path => for_each join_step join_path st
    end.

(** The body of the WHERE loop; the state is
    [(where_conditions, (params, param_idx))]. *)
Definition where_step
  (used_entities : list (string * Entity)) (table_aliases : list (string * string))
  (st : list string * (list value * nat)) (filter_ : FilterCondition)
  : result (list string * (list value * nat)) :=
  let '(where_conditions, (params, param_idx)) := st in
  match Py.dict_get (fc_entity_id filter_) used_entities with
  | None => OK st
  | Some entity =>
      match find_field entity (fc_field_id filter_) with
      | None => OK st
      | Some field =>
          table_alias ← Py.dict_item table_aliases (fc_entity_id filter_);
          '(condition, pst) ←
            _build_filter_condition entity field table_alias filter_ params param_idx;
          OK (where_conditions ++ [condition], pst)
      end
  end.

(** One bound of the time range: nothing for an absent bound. *)
Definition time_bound (time_field_name op : string) (bound : option Datetime.datetime)
  (st : list string * (list value * nat)) : list string * (list value * nat) :=
  let '(where_conditions, (params, param_idx)) := st in
  match bound with
  | Some t =>
      (where_conditions ++ [time_field_name +:+ op +:+ "$" +:+ Py.str_nat param_idx],
       (params ++ [VStr (Datetime.isoformat t)], S param_idx))
  | None => st
  end.

(** The time range filter; it may add an alias to [table_aliases]. *)
Definition time_filter (now : Z) (config : ReportConfig)
  (table_aliases : list (string * string)) (st : list string * (list value * nat))
  : result (list (string * string) * (list string * (list value * nat))) :=
  match time_range config, Py.truthy (time_field config) with
  | Some range, Some time_field_id =>
      let time_entity_id :=
        match Py.truthy (time_field_entity config) with
        | Some e => e
        | None => primary_entity config
        end in
      match get_entity registry time_entity_id with
      | None => OK (table_aliases, st)
      | Some time_entity =>
          match find_field time_entity time_field_id with
          | None => OK (table_aliases, st)
          | Some time_field =>
              let table_aliases :=
                if Py.dict_mem time_entity_id table_aliases then table_aliases
                else table_aliases ++ [(time_entity_id, table_name time_entity)] in
              '(start_time, end_time) ← _calculate_time_range now range;
              table_alias ← Py.dict_item table_aliases time_entity_id;
              time_field_name ←
                _get_qualified_field_name time_entity time_field table_alias;
              OK (table_aliases,
                  time_bound time_field_name " <= " end_time
                    (time_bound time_field_name " >= " start_time st))
          end
      end
  | _, _ => OK (table_aliases, st)
  end.

(** The body of the ORDER BY loop. *)
Definition order_step
  (used_entities : list (string * Entity)) (table_aliases : list (string * string))
  (order_parts : list string) (sort : SortConfig) : result (list string) :=
  match Py.dict_get (sc_entity_id sort) used_entities with
  | None => OK order_parts
  | Some entity =>
      match find_field entity (sc_field_id sort) with
      | None => OK order_parts
      | Some field =>
          table_alias ← Py.dict_item table_aliases (sc_entity_id sort);
          field_name ← _get_qualified_field_name entity field table_alias;
          let direction :=
            if String.eqb (Py.lower (sc_direction sort)) "desc" then "DESC" else "ASC" in
          OK (order_parts ++ [field_name +:+ " " +:+ direction])
      end
  end.

(** The clauses that are present only when their list is not empty. *)
Definition clause (keyword sep : string) (parts : list string) : list string :=
  match parts with
  | [] => []
  | _ => [keyword +:+ Py.join sep parts]
  end.

Definition assemble
  (select_parts : list string) (from_clause : string)
  (join_clauses where_conditions group_by_fields order_parts : list string)
  (limit_ : Z) : string :=
  Py.join Py.NL
    (["SELECT " +:+ Py.join ", " select_parts; "FROM " +:+ from_clause]
     ++ join_clauses
     ++ clause "WHERE " " AND " where_conditions
     ++ clause "GROUP BY " ", " group_by_fields
     ++ clause "ORDER BY " ", " order_parts
     ++ ["LIMIT " +:+ Py.str_int (Z.min limit_ 10000)]).

Definition build_query (now : Z) (config : ReportConfig)
  : result (string * list value) :=
  match get_entity registry (primary_entity config) with
  | None => Raise (ValueError ("Unknown entity: " +:+ primary_entity config))
  | Some primary =>
      let used_entities := collect_used_entities config primary in
      let table_aliases := map (fun item : string * Entity => (item.1, table_name item.2)) used_entities in
      '(select_parts, group_by_fields) ←
        for_each (select_step used_entities table_aliases
                              (has_aggregation config) (group_by config))
                 (selected_fields config) ([], []);
      match select_parts with
      | [] => Raise (ValueError "No valid fields selected")
      | _ =>
          schema_name_ ← _sanitize_identifier (schema_name primary);
          table_name_ ← _sanitize_identifier (table_name primary);
          let from_clause := schema_name_ +:+ "." +:+ table_name_ in
          '(join_clauses, _) ←
            for_each (join_entity (primary_entity config)) used_entities
                     ([], {[primary_entity config]});
          wst ← for_each (where_step used_entities table_aliases) (filters config)
                         ([], ([], 1%nat));
          '(table_aliases, (where_conditions, (params, _))) ←
            time_filter now config table_aliases wst;
          order_parts ←
            for_each (order_step used_entities table_aliases) (sorting config) [];
          OK (assemble select_parts from_clause join_clauses where_conditions
                       group_by_fields order_parts (limit config),
              params)
      end
  end.

(** *** [generate_preview_sql] *)

Definition render_param (p : value) : string :=
  match p with
  | VStr s => "'" +:+ s +:+ "'"
  | _ => py_str p
  end.

Definition generate_preview_sql (now : Z) (config : ReportConfig)
  : result string :=
  '(sql, params) ← build_query now config;
  OK (fold_left
        (fun preview_sql (ip : nat * value) =>
           Py.replace ("$" +:+ Py.str_nat ip.1) (render_param ip.2) preview_sql)
        (Py.enumerate 1 params) sql).

End QueryBuilder.

(* ===================================================================== *)
(** ** [api/routes.py]: the request and the answers *)
(* ===================================================================== *)

(** Of the request handlers, the parts that compute on the configuration
    and on the names of result columns; the database connection and the
    pydantic conversion of the request's dictionaries are left out. *)

(** The validator of the field [limit] of [ReportConfigRequest]. *)
Definition validate_limit (v : Z) : result Z :=
  if (v <? 1) || (v >? 10000)
  then Raise (ValueError "Limit must be between 1 and 10000")
  else OK v.

(** What [validate_query] answers, from the converted configuration on:
    [{"valid": True, "sql": sql}], or [{"valid": False, "error": ...}]
    with the message of one of its own checks or with the exception that
    the preview raised (the code reports its [str]). *)
Inductive validation : Type :=
| Valid (sql : string)
| Invalid (error : string)
| Failed (e : exn).

Section Routes.
Variable registry : list (string * Entity).
Variable repr_str : string -> string.
Variable str_upper : string -> string.
Variable fromisoformat : string -> result Datetime.datetime.

(** The check of one selected field; [None] when it passes. *)
Definition check_selected_field (field : SelectedField) : option string :=
  match get_entity registry (sf_entity_id field) with
  | None => Some ("Unknown entity: " +:+ sf_entity_id field)
  | Some entity =>
      if existsb (fun f => String.eqb (f_id f) (sf_field_id field)) (fields entity)
      then None
      else Some ("Unknown field: " +:+ sf_field_id field +:+ " in " +:+ sf_entity_id field)
  end.

Definition validate_query (now : Z) (config : ReportConfig) : validation :=
  match get_entity registry (primary_entity config) with
  | None => Invalid ("Unknown entity: " +:+ primary_entity config)
  | Some _ =>
      match first_some check_selected_field (selected_fields config) with
      | Some error => Invalid error
      | None =>
          match generate_preview_sql registry repr_str str_upper fromisoformat now config with
          | OK sql => Valid sql
          | Raise e => Failed e
          end
      end
  end.
End Routes.

(** The block of [_convert_frontend_config] that parses the time field:
    the frontend sends ["entity_id::field_id"] or a bare field id.  The
    result is [(time_field, time_field_entity)]. *)
Definition time_field_parts (timeField : option string) : option string * option string :=
  match Py.truthy timeField with
  | Some text =>
      match Py.split_once "::" text with
      | Some (before, after) => (Some after, Some before)
      | None => (Some text, None)
      end
  | None => (None, None)
  end.


Section Columns.
Variable registry : list (string * Entity).

(** The loop of [execute_query] that builds the metadata of a result
    column from its name: the first registered entity whose id followed by
    [_] starts the name and which has a field whose id is the rest of the
    name.  The result is that entity id, field id and field, from which
    the code takes the display name and the type; [None] stands for the
    default metadata, of type ["string"]. *)
Definition column_field (col_name : string) : option (string * string * EntityField) :=
  if Py.contains "_" col_name then
    first_some
      (fun item : string * Entity =>
         let entity_id := item.1 in
         let prefix := entity_id +:+ "_" in
         if String.prefix prefix col_name then
           let field_id := Py.drop (String.length prefix) col_name in
           match get_entity registry entity_id with
           | Some entity =>
               match find_field entity field_id with
               | Some field => Some (entity_id, field_id, field)
               | None => None
               end
           | None => None
           end
         else None)
      registry
  else None.
End Columns.

(* ===================================================================== *)
(** ** Vocabulary of the specification *)
(* ===================================================================== *)

(** *** Identifiers

    The strict check in the specification's words: letters, digits and
    underscore only, not empty, not starting with a digit. *)
Fixpoint all_ident_chars (s : string) : bool :=
  match s with
  | EmptyString => true
  | String c s' => Py.is_ident_char c && all_ident_chars s'
  end.

Definition strict_identifier (s : string) : bool :=
  match s with
  | EmptyString => false
  | String c _ => negb (Py.is_digit c) && all_ident_chars s
  end.

(** *** Placeholders

    The placeholders of a query text, in order of appearance: for every
    [$], the number spelled by the longest run of digits that follows it,
    or [None] when no digit follows. *)
Definition digit_value (c : ascii) : option nat :=
  if Py.is_digit c then Some (nat_of_ascii c - 48)%nat else None.

Inductive scan_state : Type :=
| Idle
| Dollar (digits : option nat).

Definition flush (st : scan_state) : list (option nat) :=
  match st with
  | Idle => []
  | Dollar digits => [digits]
  end.

Fixpoint scan (st : scan_state) (s : string) : list (option nat) :=
  match s with
  | EmptyString => flush st
  | String c s' =>
      if Ascii.eqb c "$"%char then flush st ++ scan (Dollar None) s'
      else
        match st, digit_value c with
        | Dollar digits, Some v =>
            scan (Dollar (Some (10 * default 0%nat digits + v)%nat)) s'
        | _, _ => flush st ++ scan Idle s'
        end
  end.

Definition placeholders (s : string) : list (option nat) := scan Idle s.

(** A fragment without any [$]. *)
Fixpoint dollar_free (s : string) : bool :=
  match s with
  | EmptyString => true
  | String c s' => negb (Ascii.eqb c "$"%char) && dollar_free s'
  end.

Definition all_plain (l : list string) : Prop := Forall (fun p => dollar_free p = true) l.

Definition no_digit_start (s : string) : Prop :=
  match s with
  | EmptyString => True
  | String c _ => digit_value c = None
  end.

(** A fragment [s] carries the placeholders [l]: whatever follows it, as
    long as that does not start with a digit, the scan of [s] yields [l]
    and goes on from the idle state. *)
Definition emits (s : string) (l : list (option nat)) : Prop :=
  forall t, no_digit_start t -> scan Idle (s +:+ t) = l ++ scan Idle t.

Definition separator (sep : string) : Prop :=
  dollar_free sep = true /\ exists c sep', sep = String c sep' /\ digit_value c = None.

(** The loop invariant of the WHERE clause: the conditions built so far
    carry the placeholders [$1 .. $n] in order, [n] being the number of
    parameters, and the next index is [n + 1]. *)
Definition aligned (st : list string * (list value * nat)) : Prop :=
  exists ls, Forall2 emits st.1 ls
             /\ concat ls = map Some (seq 1 (length st.2.1))
             /\ st.2.2 = S (length st.2.1).

(** No entity id and no field id of the registry holds a [$]. *)
Definition registry_plain (registry : list (string * Entity)) : bool :=
  forallb
    (fun item : string * Entity =>
       dollar_free item.1 && forallb (fun f => dollar_free (f_id f)) (fields item.2))
    registry.

(** *** Time ranges

    The length of a relative time range, by unit: what the resolver does
    with each unit it knows, with an absent or empty unit, and with any
    other unit. *)
Inductive unit_delta (count : Z) : option string -> Z -> Prop :=
| delta_hours : unit_delta count (Some "hours") (count * Datetime.US_PER_HOUR)
| delta_days : unit_delta count (Some "days") (count * Datetime.US_PER_DAY)
| delta_weeks : unit_delta count (Some "weeks") (count * 7 * Datetime.US_PER_DAY)
| delta_months : unit_delta count (Some "months") (count * 30 * Datetime.US_PER_DAY)
| delta_years : unit_delta count (Some "years") (count * 365 * Datetime.US_PER_DAY)
| delta_absent : unit_delta count None (count * Datetime.US_PER_DAY)
| delta_empty : unit_delta count (Some EmptyString) (count * Datetime.US_PER_DAY)
| delta_other u :
    u ∉ ["hours"; "days"; "weeks"; "months"; "years"; EmptyString] ->
    unit_delta count (Some u) (7 * Datetime.US_PER_DAY).

(** The largest magnitude of [count] for which all five entries of
    [delta_map] can be built: [365 * count] days must fit a [timedelta]. *)
Definition MAX_RELATIVE_COUNT : Z := 2739726.

Definition as_option (r : search) : option (list JoinStep) :=
  match r with Found path => Some path | _ => None end.
Definition as_search (o : option (list JoinStep)) : search :=
  match o with Some path => Found path | None => NotFound end.

(** *** Shapes

    What of a configuration the query text may depend on: everything but
    the values of the filter conditions, of which only the number of
    elements of a list counts, and the time range, of which only the
    presence of each bound counts. *)
Definition value_shape (v : value) : option nat :=
  match v with
  | VList vs => Some (length vs)
  | _ => None
  end.

Definition same_condition_shape (f f' : FilterCondition) : Prop :=
  fc_entity_id f = fc_entity_id f'
  /\ fc_field_id f = fc_field_id f'
  /\ fc_operator f = fc_operator f'
  /\ value_shape (fc_value f) = value_shape (fc_value f').

Definition bounds_present (range : TimeRange) : bool * bool :=
  if String.eqb (tr_type range) "absolute"
  then (bool_decide (is_Some (Py.truthy (start_date range))),
        bool_decide (is_Some (Py.truthy (end_date range))))
  else (true, true).

Definition same_shape (c c' : ReportConfig) : Prop :=
  primary_entity c = primary_entity c'
  /\ selected_fields c = selected_fields c'
  /\ Forall2 same_condition_shape (filters c) (filters c')
  /\ sorting c = sorting c'
  /\ option_Forall2 (fun r r' => bounds_present r = bounds_present r')
       (time_range c) (time_range c')
  /\ time_field c = time_field c'
  /\ time_field_entity c = time_field_entity c'
  /\ group_by c = group_by c'
  /\ limit c = limit c'.

(** Two states of the WHERE loop with the same conditions and the same
    next index. *)
Definition same_text (st st' : list string * (list value * nat)) : Prop :=
  st.1 = st'.1 /\ length st.2.1 = length st'.2.1 /\ st.2.2 = st'.2.2.

Section Vocabulary.

Variable registry : list (string * Entity).
Variable repr_str : string -> string.

(** *** The relationship graph *)

Definition registered (a : string) : Prop := is_Some (get_entity registry a).

(** [a] declares a relationship whose target is [b]. *)
Definition declares (a b : string) : Prop :=
  exists e rel, (a, e) ∈ registry /\ rel ∈ relationships e /\ target_entity rel = b.

(** An edge of the bidirectional relationship graph. *)
Definition linked (a b : string) : Prop := declares a b \/ declares b a.

(** A path of the bidirectional graph on which every entity but the last
    is registered. *)
Inductive connected : string -> string -> Prop :=
| connected_here a : connected a a
| connected_step a b c : registered a -> linked a b -> connected b c -> connected a c.

(** A walk from [a] to [c] through the nodes [l], none of them in [seen]. *)
Inductive walk (seen : gset string) : string -> list string -> string -> Prop :=
| walk_nil a : walk seen a [] a
| walk_cons a b l c :
    registered a -> linked a b -> b ∉ seen -> walk seen b l c ->
    walk seen a (b :: l) c.

(** The measure of the search: the registered entities that are not
    visited yet and have a relationship in either direction.  Only from
    such an entity does [_find_join_path] call itself. *)
Definition targets (a : string) (e : Entity) : bool :=
  existsb (fun rel => String.eqb (target_entity rel) a) (relationships e).

Definition has_edges (a : string) (e : Entity) : bool :=
  negb (bool_decide (relationships e = []))
  || existsb (fun item : string * Entity => targets a item.2) registry.

Definition pending (visited : gset string) : nat :=
  length (filter (fun item : string * Entity =>
                    (item.1 ∉ visited) /\ has_edges item.1 item.2 = true) registry).

(** *** References *)

(** An (entity id, field id) pair resolved against the registry. *)
Definition resolve (entity_id field_id : string) : option (Entity * EntityField) :=
  e ← get_entity registry entity_id; f ← find_field e field_id; Some (e, f).

(** The same against [used_entities], as the loops of [build_query] do. *)
Definition lookup (used_entities : list (string * Entity)) (entity_id field_id : string)
  : option (Entity * EntityField) :=
  e ← Py.dict_get entity_id used_entities; f ← find_field e field_id; Some (e, f).

(** Every entry of [used_entities] is the registry's entry for its key. *)
Definition from_registry (used : list (string * Entity)) : Prop :=
  forall k e, Py.dict_get k used = Some e -> get_entity registry k = Some e.

(** The entity ids a configuration refers to. *)
Definition referenced (config : ReportConfig) : list string :=
  primary_entity config
  :: map sf_entity_id (selected_fields config)
  ++ map fc_entity_id (filters config)
  ++ map sc_entity_id (sorting config).

(** *** Bound values

    The values a filter condition binds, in the order of its placeholders
    (the operator table of the specification); nothing for a condition
    whose reference does not resolve. *)
Definition filter_values (flt : FilterCondition) : list value :=
  let v := fc_value flt in
  match fc_operator flt with
  | IS_NULL | IS_NOT_NULL => []
  | CONTAINS | NOT_CONTAINS => [VStr ("%" +:+ py_str repr_str v +:+ "%")]
  | STARTS_WITH => [VStr (py_str repr_str v +:+ "%")]
  | ENDS_WITH => [VStr ("%" +:+ py_str repr_str v)]
  | BETWEEN => [v; fc_value2 flt]
  | IN | NOT_IN => match v with VList vs => vs | _ => [v] end
  | _ => [v]
  end.

Definition bound_values (flt : FilterCondition) : list value :=
  match resolve (fc_entity_id flt) (fc_field_id flt) with
  | Some _ => filter_values flt
  | None => []
  end.

(** *** Grouping

    The selected fields that contribute a GROUP BY term, and the term. *)
Definition grouped (config : ReportConfig) (sel_field : SelectedField) : bool :=
  bool_decide (sf_aggregation sel_field = None)
  && is_in_group_by (group_by config) sel_field
  && bool_decide (is_Some (resolve (sf_entity_id sel_field) (sf_field_id sel_field))).

Definition group_term (sel_field : SelectedField) : string :=
  match resolve (sf_entity_id sel_field) (sf_field_id sel_field) with
  | Some (e, f) => table_name e +:+ "." +:+ f_name f
  | None => EmptyString
  end.

End Vocabulary.

(* ===================================================================== *)
(** ** Further vocabulary *)
(* ===================================================================== *)

(** *** Join paths *)

Definition step_from (step : JoinStep) : string := step.1.1.1.1.
Definition step_to (step : JoinStep) : string := step.1.1.1.2.

Section PathVocabulary.
Variable registry : list (string * Entity).

(** A step is licensed by a relationship: one that the step's source
    declares towards its target, read as declared, or one that the step's
    target declares towards its source, read with the two fields
    swapped. *)
Definition step_declared (step : JoinStep) : Prop :=
  let '(a, b, from_field, to_field, jt) := step in
  (exists e rel, get_entity registry a = Some e /\ rel ∈ relationships e
                 /\ target_entity rel = b
                 /\ from_field = source_field rel /\ to_field = target_field rel
                 /\ jt = join_type rel)
  \/ (exists e rel, (b, e) ∈ registry /\ rel ∈ relationships e
                    /\ target_entity rel = a
                    /\ from_field = target_field rel /\ to_field = source_field rel
                    /\ jt = join_type rel).

(** The relationships whose target is [a], each with the id of the entity
    that declares it, in registry order and, for one entity, in declared
    order: the reverse edges at [a]. *)
Definition reverse_edges (a : string) : list (string * EntityRelationship) :=
  flat_map
    (fun item : string * Entity =>
       map (pair item.1)
         (List.filter (fun rel => String.eqb (target_entity rel) a) (relationships item.2)))
    registry.

(** The search from [next] to [c], the entities in [seen] being visited,
    is tried and finds a path. *)
Definition reaches (c : string) (seen : gset string) (next : string) : bool :=
  bool_decide (next ∉ seen) && bool_decide (is_Some (_find_join_path registry next c seen)).

(** A path from [a] to [c]: consecutive steps meet, every step leaves a
    registered entity and is licensed by a relationship. *)
Inductive chain : string -> list JoinStep -> string -> Prop :=
| chain_nil a : chain a [] a
| chain_cons a step path c :
    step_from step = a -> registered registry a -> step_declared step ->
    chain (step_to step) path c -> chain a (step :: path) c.
End PathVocabulary.

(** *** The clauses of a query *)

Section TextVocabulary.
Variable registry : list (string * Entity).
Variable str_upper : string -> string.

(** Whether an (entity id, field id) reference resolves. *)
Definition resolves (entity_id field_id : string) : bool :=
  bool_decide (is_Some (resolve registry entity_id field_id)).

(** The SELECT item of a selected field that resolves. *)
Definition select_item (sel_field : SelectedField) : string :=
  match resolve registry (sf_entity_id sel_field) (sf_field_id sel_field) with
  | Some (e, f) =>
      let field_name := table_name e +:+ "." +:+ f_name f in
      let expr :=
        match sf_aggregation sel_field with
        | Some aggregation => _build_aggregation field_name aggregation
        | None => field_name
        end in
      expr +:+ " AS "
      +:+ _get_field_alias (sf_entity_id sel_field) (sf_field_id sel_field)
            (sf_aggregation sel_field)
  | None => EmptyString
  end.

(** The ORDER BY term of a sort spec that resolves. *)
Definition order_term (sort : SortConfig) : string :=
  match resolve registry (sc_entity_id sort) (sc_field_id sort) with
  | Some (e, f) =>
      let field_name := table_name e +:+ "." +:+ f_name f in
      field_name +:+ " "
      +:+ (if String.eqb (Py.lower (sc_direction sort)) "desc" then "DESC" else "ASC")
  | None => EmptyString
  end.

(** The keyword of a JOIN clause. *)
Definition join_keyword (jt : string) : string :=
  let up := str_upper jt in
  if String.eqb up "INNER" || String.eqb up "LEFT" || String.eqb up "RIGHT"
  then up else "LEFT".

(** The JOIN clause of a step between two registered entities. *)
Definition join_clause (step : JoinStep) : string :=
  let '(a, b, from_field, to_field, jt) := step in
  match get_entity registry a, get_entity registry b with
  | Some ea, Some eb =>
      join_keyword jt +:+ " JOIN " +:+ schema_name eb +:+ "." +:+ table_name eb
      +:+ " ON " +:+ table_name ea +:+ "." +:+ from_field
      +:+ " = " +:+ table_name eb +:+ "." +:+ to_field
  | _, _ => EmptyString
  end.

(** A list of steps that grows a tree from [root]: every step is licensed
    by a relationship, leaves the root or an entity reached by an earlier
    step, and reaches a registered entity that was not reached before. *)
Inductive join_tree (root : string) : list JoinStep -> Prop :=
| join_tree_nil : join_tree root []
| join_tree_snoc steps step :
    join_tree root steps ->
    step_declared registry step ->
    registered registry (step_from step) -> registered registry (step_to step) ->
    step_from step ∈ root :: map step_to steps ->
    step_to step ∉ root :: map step_to steps ->
    join_tree root (steps ++ [step]).

(** The GROUP BY terms of a configuration. *)
Definition group_terms (config : ReportConfig) : list string :=
  if has_aggregation config
  then map (group_term registry) (List.filter (grouped registry config) (selected_fields config))
  else [].
End TextVocabulary.

(** The state of the join loops after the steps [steps]: the clauses of
    the steps, the entities they reach, and the tree they form. *)
Definition join_state_after (registry : list (string * Entity)) (str_upper : string -> string)
  (root : string) (steps : list JoinStep) (st : list string * gset string) : Prop :=
  st.1 = map (join_clause registry str_upper) steps
  /\ st.2 = {[root]} ∪ list_to_set (map step_to steps)
  /\ join_tree registry root steps.

(** *** Outcomes *)

(** The alias table names the table of every used entity. *)
Definition names_table (used : list (string * Entity)) (ta : list (string * string)) : Prop :=
  forall k e, Py.dict_get k used = Some e -> Py.dict_get k ta = Some (table_name e).

(** The exception of [_sanitize_identifier]. *)
Definition bad_identifier (e : exn) : Prop :=
  exists bad, e = ValueError ("Invalid identifier: " +:+ bad)
              /\ Py.re_match_identifier bad = false.

(** Every schema, table and column name of the registry, and every field
    named by a relationship, matches the identifier pattern. *)
Definition well_named (registry : list (string * Entity)) : bool :=
  forallb
    (fun item : string * Entity =>
       Py.re_match_identifier (schema_name item.2)
       && Py.re_match_identifier (table_name item.2)
       && forallb (fun f => Py.re_match_identifier (f_name f)) (fields item.2)
       && forallb (fun rel => Py.re_match_identifier (source_field rel)
                              && Py.re_match_identifier (target_field rel))
            (relationships item.2))
    registry.

(** The (entity id, field id) the time range applies to, with the range:
    present when the configuration has a time range and a time field. *)
Definition time_scope (config : ReportConfig) : option (string * string * TimeRange) :=
  match time_range config, Py.truthy (time_field config) with
  | Some range, Some time_field_id =>
      Some (default (primary_entity config) (Py.truthy (time_field_entity config)),
            time_field_id, range)
  | _, _ => None
  end.

Section Outcome.
Variable registry : list (string * Entity).
Variable fromisoformat : string -> result Datetime.datetime.

(** What makes [build_query] accept a configuration. *)
Definition accepted (now : Z) (config : ReportConfig) : Prop :=
  registered registry (primary_entity config)
  /\ (exists sf, sf ∈ selected_fields config
                 /\ resolves registry (sf_entity_id sf) (sf_field_id sf) = true)
  /\ (forall k, k ∈ referenced config -> registered registry k ->
                connected registry (primary_entity config) k)
  /\ (forall k tf range,
        time_scope config = Some (k, tf, range) -> resolves registry k tf = true ->
        exists bounds, _calculate_time_range fromisoformat now range = OK bounds).

(** The exceptions [build_query] raises. *)
Inductive build_error (config : ReportConfig) : exn -> Prop :=
| unknown_primary :
    get_entity registry (primary_entity config) = None ->
    build_error config (ValueError ("Unknown entity: " +:+ primary_entity config))
| nothing_selected :
    (forall sf, sf ∈ selected_fields config ->
                resolves registry (sf_entity_id sf) (sf_field_id sf) = false) ->
    build_error config (ValueError "No valid fields selected")
| invalid_identifier name :
    Py.re_match_identifier name = false ->
    build_error config (ValueError ("Invalid identifier: " +:+ name))
| cannot_join entity_id :
    registered registry entity_id ->
    _find_join_path registry (primary_entity config) entity_id ∅ = None ->
    build_error config
      (ValueError ("Cannot join entity '" +:+ entity_id +:+ "' to primary entity '"
                   +:+ primary_entity config +:+ "'. No relationship path found. "
                   +:+ "Please select fields from related entities only."))
| range_overflow range :
    time_range config = Some range -> tr_type range <> "absolute" ->
    build_error config OverflowError
| bound_unparsed range s e :
    time_range config = Some range -> tr_type range = "absolute" ->
    start_date range = Some s \/ end_date range = Some s ->
    fromisoformat s = Raise e ->
    build_error config e.
End Outcome.

(** *** Membership tests *)

(** The placeholders [$idx], [$(idx+1)], ... of a list of [n] values. *)
Definition placeholder_list (idx n : nat) : list string :=
  map (fun k => "$" +:+ Py.str_nat k) (seq idx n).

Definition membership_keyword (op : FilterOperator) : string :=
  match op with
  | NOT_IN => " NOT IN ("
  | _ => " IN ("
  end.

(** *** The query of a configuration

    What the builder returns for a configuration it accepts, clause by
    clause, in the words of the specification (4.3 and 4.6): only the
    references that resolve count for the SELECT list, the predicates and
    the ORDER BY terms. *)
Definition placeholder (k : nat) : string := "$" +:+ Py.str_nat k.

(** The operator table: the number of values a condition binds, and its
    predicate on the column [F] when its first placeholder is [$idx]. *)
Definition values_bound (flt : FilterCondition) : nat :=
  match fc_operator flt with
  | IS_NULL | IS_NOT_NULL => 0
  | BETWEEN => 2
  | IN | NOT_IN => match fc_value flt with VList vs => length vs | _ => 1 end
  | _ => 1
  end.

Definition predicate (F : string) (flt : FilterCondition) (idx : nat) : string :=
  match fc_operator flt with
  | EQUALS => F +:+ " = " +:+ placeholder idx
  | NOT_EQUALS => F +:+ " != " +:+ placeholder idx
  | CONTAINS | STARTS_WITH | ENDS_WITH => F +:+ " ILIKE " +:+ placeholder idx
  | NOT_CONTAINS => F +:+ " NOT ILIKE " +:+ placeholder idx
  | GREATER_THAN => F +:+ " > " +:+ placeholder idx
  | GREATER_EQUAL => F +:+ " >= " +:+ placeholder idx
  | LESS_THAN => F +:+ " < " +:+ placeholder idx
  | LESS_EQUAL => F +:+ " <= " +:+ placeholder idx
  | BETWEEN => F +:+ " BETWEEN " +:+ placeholder idx +:+ " AND " +:+ placeholder (S idx)
  | IN =>
      match fc_value flt with
      | VList vs => F +:+ " IN (" +:+ Py.join ", " (placeholder_list idx (length vs)) +:+ ")"
      | _ => F +:+ " = " +:+ placeholder idx
      end
  | NOT_IN =>
      match fc_value flt with
      | VList vs => F +:+ " NOT IN (" +:+ Py.join ", " (placeholder_list idx (length vs)) +:+ ")"
      | _ => F +:+ " != " +:+ placeholder idx
      end
  | IS_NULL => F +:+ " IS NULL"
  | IS_NOT_NULL => F +:+ " IS NOT NULL"
  end.

(** The elements of a list in the order of their first occurrence, those
    in [seen] left out. *)
Fixpoint first_occurrences (seen : gset string) (l : list string) : list string :=
  match l with
  | [] => []
  | k :: l' =>
      if decide (k ∈ seen) then first_occurrences seen l'
      else k :: first_occurrences ({[k]} ∪ seen) l'
  end.

(** Of a list of join steps, those that reach an entity for the first
    time, the entities in [joined] being reached already. *)
Fixpoint fresh_steps (joined : gset string) (steps : list JoinStep) : list JoinStep :=
  match steps with
  | [] => []
  | step :: rest =>
      if decide (step_to step ∈ joined) then fresh_steps joined rest
      else step :: fresh_steps ({[step_to step]} ∪ joined) rest
  end.

(** A clause that is there only when it has terms. *)
Definition optional (keyword sep : string) (terms : list string) : list string :=
  if bool_decide (terms = []) then [] else [keyword +:+ Py.join sep terms].

Section QueryText.
Variable registry : list (string * Entity).
Variable repr_str : string -> string.
Variable str_upper : string -> string.
Variable fromisoformat : string -> result Datetime.datetime.

(** The references that resolve. *)
Definition selected (config : ReportConfig) : list SelectedField :=
  List.filter (fun sf => resolves registry (sf_entity_id sf) (sf_field_id sf))
    (selected_fields config).

Definition conditions (config : ReportConfig) : list FilterCondition :=
  List.filter (fun flt => resolves registry (fc_entity_id flt) (fc_field_id flt))
    (filters config).

Definition sorts (config : ReportConfig) : list SortConfig :=
  List.filter (fun sort => resolves registry (sc_entity_id sort) (sc_field_id sort))
    (sorting config).

(** The configuration without the references that do not resolve. *)
Definition prune (config : ReportConfig) : ReportConfig :=
  {| primary_entity := primary_entity config;
     selected_fields := selected config;
     filters := conditions config;
     sorting := sorts config;
     time_range := time_range config;
     time_field := time_field config;
     time_field_entity := time_field_entity config;
     group_by := group_by config;
     limit := limit config |}.

(** The required entities: the registered entities among the primary
    entity and those that a selected field, a filter or a sort spec names,
    whether its field is declared or not, in the order of their first
    mention. *)
Definition required (config : ReportConfig) : list string :=
  first_occurrences ∅
    (List.filter (fun k => bool_decide (registered registry k)) (referenced config)).

(** The join steps: the steps of the join paths from the primary entity
    to the required entities, in order, without those that reach an
    entity reached by an earlier step. *)
Definition join_steps (config : ReportConfig) : list JoinStep :=
  fresh_steps {[primary_entity config]}
    (concat (map (fun k => default [] (_find_join_path registry (primary_entity config) k ∅))
               (required config))).

(** The predicates of the filter conditions that resolve, the first
    placeholder being [$idx], and the number of values they bind. *)
Fixpoint filter_predicates (idx : nat) (l : list FilterCondition) : list string :=
  match l with
  | [] => []
  | flt :: l' =>
      match resolve registry (fc_entity_id flt) (fc_field_id flt) with
      | Some (e, f) =>
          predicate (table_name e +:+ "." +:+ f_name f) flt idx
          :: filter_predicates (idx + values_bound flt) l'
      | None => filter_predicates idx l'
      end
  end.

Definition values_count (config : ReportConfig) : nat :=
  sum_list_with values_bound (conditions config).

(** The predicates of the time range: one per bound that is present,
    when the time-scope field resolves. *)
Definition time_predicates (config : ReportConfig) (idx : nat) : list string :=
  match time_scope config with
  | Some (k, tf, range) =>
      match resolve registry k tf with
      | Some (e, f) =>
          let F := table_name e +:+ "." +:+ f_name f in
          let '(has_start, has_end) := bounds_present range in
          (if has_start then [F +:+ " >= " +:+ placeholder idx] else [])
          ++ (if has_end
              then [F +:+ " <= " +:+ placeholder (if has_start then S idx else idx)]
              else [])
      | None => []
      end
  | None => []
  end.

(** The values of the time range: the bounds that the resolver returns,
    the start before the end, as ISO strings. *)
Definition time_values (now : Z) (config : ReportConfig) : list value :=
  match time_scope config with
  | Some (k, tf, range) =>
      match resolve registry k tf, _calculate_time_range fromisoformat now range with
      | Some _, OK (start, end_) =>
          map (fun t => VStr (Datetime.isoformat t)) (option_list start ++ option_list end_)
      | _, _ => []
      end
  | None => []
  end.

(** The lines of the query, in their fixed order. *)
Definition select_line (config : ReportConfig) : string :=
  "SELECT " +:+ Py.join ", " (map (select_item registry) (selected config)).

Definition from_line (config : ReportConfig) : string :=
  match get_entity registry (primary_entity config) with
  | Some primary => "FROM " +:+ schema_name primary +:+ "." +:+ table_name primary
  | None => EmptyString
  end.

Definition join_lines (config : ReportConfig) : list string :=
  map (join_clause registry str_upper) (join_steps config).

Definition where_lines (config : ReportConfig) : list string :=
  optional "WHERE " " AND "
    (filter_predicates 1 (filters config)
     ++ time_predicates config (S (values_count config))).

Definition group_lines (config : ReportConfig) : list string :=
  optional "GROUP BY " ", " (group_terms registry config).

Definition order_lines (config : ReportConfig) : list string :=
  optional "ORDER BY " ", " (map (order_term registry) (sorts config)).

Definition limit_line (config : ReportConfig) : string :=
  "LIMIT " +:+ Py.str_int (Z.min (limit config) 10000).

Definition query_lines (config : ReportConfig) : list string :=
  [select_line config; from_line config]
  ++ join_lines config ++ where_lines config ++ group_lines config ++ order_lines config
  ++ [limit_line config].

Definition query_text (config : ReportConfig) : string :=
  Py.join Py.NL (query_lines config).

Definition query_params (now : Z) (config : ReportConfig) : list value :=
  concat (map (bound_values registry repr_str) (filters config)) ++ time_values now config.

End QueryText.

(** *** Filling placeholders

    The query text with every placeholder replaced by a value at once: a
    placeholder is a [$] with the longest run of digits that follows it,
    as for [placeholders]; the one that spells [k] takes the [k]-th value,
    and stays as it is when there is no such value. *)
Inductive fill_state : Type :=
| Copying
| Reading (digits : string) (number : option nat).

Definition value_of (values : list string) (number : option nat) : option string :=
  match number with
  | Some (S i) => values !! i
  | _ => None
  end.

Definition fill_flush (values : list string) (st : fill_state) : string :=
  match st with
  | Copying => EmptyString
  | Reading digits number => default ("$" +:+ digits) (value_of values number)
  end.

Fixpoint fill_from (values : list string) (st : fill_state) (s : string) : string :=
  match s with
  | EmptyString => fill_flush values st
  | String c s' =>
      if Ascii.eqb c "$"%char
      then fill_flush values st +:+ fill_from values (Reading EmptyString None) s'
      else
        match st, digit_value c with
        | Reading digits number, Some v =>
            fill_from values
              (Reading (digits +:+ String c EmptyString)
                       (Some (10 * default 0%nat number + v)%nat)) s'
        | _, _ => fill_flush values st +:+ String c (fill_from values Copying s')
        end
  end.

Definition fill (values : list string) (s : string) : string := fill_from values Copying s.

(** A text in_pieces into pieces: literal text and placeholders. *)
Inductive piece : Type :=
| Lit (s : string)
| Hole (k : nat).

Definition show_piece (p : piece) : string :=
  match p with
  | Lit s => s
  | Hole k => "$" +:+ Py.str_nat k
  end.

Fixpoint show (ps : list piece) : string :=
  match ps with
  | [] => EmptyString
  | p :: ps' => show_piece p +:+ show ps'
  end.

Fixpoint holes (ps : list piece) : list (option nat) :=
  match ps with
  | [] => []
  | Lit _ :: ps' => holes ps'
  | Hole k :: ps' => Some k :: holes ps'
  end.

(** The literal pieces hold no [$], and no digit follows a placeholder. *)
Fixpoint tidy (ps : list piece) : Prop :=
  match ps with
  | [] => True
  | Lit s :: ps' => dollar_free s = true /\ tidy ps'
  | Hole _ :: ps' => no_digit_start (show ps') /\ tidy ps'
  end.

Definition in_pieces (s : string) (l : list (option nat)) : Prop :=
  exists ps, s = show ps /\ holes ps = l /\ tidy ps.

(** The pieces with the placeholders [$i], [$(i+1)], ... replaced by the
    values. *)
Definition fill_piece (i : nat) (values : list string) (p : piece) : piece :=
  match p with
  | Lit s => Lit s
  | Hole k =>
      if (i <=? k)%nat
      then match values !! (k - i)%nat with Some v => Lit v | None => Hole k end
      else Hole k
  end.

(** The pieces on which [str.replace] finds what [fill] finds: the
    placeholders have one digit. *)
Definition small (ps : list piece) : Prop :=
  Forall (fun p => match p with
                   | Lit s => dollar_free s = true
                   | Hole k => (1 <= k <= 9)%nat
                   end) ps.

Definition replace_piece (i : nat) (v : string) (p : piece) : piece :=
  match p with
  | Hole k => if (k =? i)%nat then Lit v else Hole k
  | Lit s => Lit s
  end.

(** The invariant of the WHERE loop, for any relation [carries] between a
    fragment and the placeholders it holds. *)
Definition in_step (carries : string -> list (option nat) -> Prop)
  (st : list string * (list value * nat)) : Prop :=
  exists ls, Forall2 carries st.1 ls
             /\ concat ls = map Some (seq 1 (length st.2.1))
             /\ st.2.2 = S (length st.2.1).

(** *** Names *)

(** A text without a colon. *)
Fixpoint colon_free (s : string) : bool :=
  match s with
  | EmptyString => true
  | String c s' => negb (Ascii.eqb c ":"%char) && colon_free s'
  end.

(** No entity id is a proper prefix of another. *)
Definition prefix_free (keys : list string) : bool :=
  forallb (fun k1 => forallb (fun k2 => String.eqb k1 k2 || negb (String.prefix k1 k2)) keys) keys.

(* ===================================================================== *)
(** ** Sample inputs *)
(* ===================================================================== *)

(** Stand-ins for the three library functions, for running the builder on
    the samples below: [repr] of a string that needs no escaping;
    [str.upper] on a string of ASCII characters, as the join types of the
    shipped registry are; and a parser that knows two strings, one of
    them with a UTC offset, and rejects every other. *)
Definition sample_repr (s : string) : string := "'" +:+ s +:+ "'".

Definition upper_char (c : ascii) : ascii :=
  if Py.is_lower c then ascii_of_nat (nat_of_ascii c - 32) else c.
Definition sample_upper : string -> string := Py.map_chars upper_char.

Definition sample_fromisoformat (s : string) : result Datetime.datetime :=
  if String.eqb s "2024-01-01T00:00:00+02:00"
  then OK (Datetime.mk_datetime 63839664000000000 (Some (2 * Datetime.US_PER_HOUR)))
  else if String.eqb s "2024-01-31T23:59:59.5"
  then OK (Datetime.naive 63842342399500000)
  else Raise (ValueError ("Invalid isoformat string: " +:+ sample_repr s)).

(** 2024-02-29T13:05:09.000120 and the same instant one day later. *)
Definition sample_now : Z := 63844808709000120.
Definition sample_later : Z := 63844895109000120.

Definition plain_field (entity_id field_id : string) : SelectedField :=
  {| sf_entity_id := entity_id; sf_field_id := field_id; sf_aggregation := None |}.

Definition aggregated (entity_id field_id : string) (a : AggregationType) : SelectedField :=
  {| sf_entity_id := entity_id; sf_field_id := field_id; sf_aggregation := Some a |}.

Definition condition (entity_id field_id : string) (op : FilterOperator) (v v2 : value)
  : FilterCondition :=
  {| fc_entity_id := entity_id; fc_field_id := field_id; fc_operator := op;
     fc_value := v; fc_value2 := v2 |}.

Definition last_days (n : Z) : TimeRange :=
  {| tr_type := "relative"; relative_value := Some n; relative_unit := Some "days";
     start_date := None; end_date := None |}.

(** Three days back, with no unit given. *)
Definition three_unitless : TimeRange :=
  {| tr_type := "relative"; relative_value := Some 3; relative_unit := None;
     start_date := None; end_date := None |}.

Definition select_only (primary : string) (fs : list SelectedField) : ReportConfig :=
  {| primary_entity := primary; selected_fields := fs; filters := []; sorting := [];
     time_range := None; time_field := None; time_field_entity := None;
     group_by := None; limit := 1000 |}.

(** Vehicles with their device, filtered, sorted and limited to the last
    week. *)
Definition config_fleet : ReportConfig :=
  {| primary_entity := "vehicles";
     selected_fields :=
       [plain_field "vehicles" "vehicle_label"; plain_field "devices" "device_imei"];
     filters :=
       [condition "objects" "is_deleted" EQUALS (VBool false) VNone;
        condition "objects" "object_id" IN (VList [VInt 1; VInt 2; VInt 3]) VNone;
        condition "objects" "object_label" CONTAINS (VStr "ab") VNone;
        condition "objects" "object_id" BETWEEN (VInt 1) (VInt 9)];
     sorting := [{| sc_entity_id := "vehicles"; sc_field_id := "model";
                    sc_direction := "DESC" |}];
     time_range := Some (last_days 7);
     time_field := Some "record_added_at";
     time_field_entity := None;
     group_by := None;
     limit := 999999 |}.

(** References that do not resolve, next to one that does. *)
Definition config_dangling : ReportConfig :=
  {| primary_entity := "objects";
     selected_fields :=
       [plain_field "objects" "object_id";
        plain_field "objects" "no_such_field";
        plain_field "ghosts" "name"];
     filters := [condition "ghosts" "name" EQUALS (VInt 1) VNone];
     sorting := [{| sc_entity_id := "objects"; sc_field_id := "no_such_field";
                    sc_direction := "asc" |}];
     time_range := None; time_field := None; time_field_entity := None;
     group_by := None; limit := 1000 |}.

(** An aggregation, and a plain selected field that is listed in the
    group-by list but does not resolve. *)
Definition config_group_dangling : ReportConfig :=
  {| primary_entity := "vehicles";
     selected_fields :=
       [aggregated "vehicles" "max_speed" MAX; plain_field "vehicles" "no_such_field"];
     filters := []; sorting := [];
     time_range := None; time_field := None; time_field_entity := None;
     group_by := Some [plain_field "vehicles" "no_such_field"];
     limit := 1000 |}.

(** An aggregation with a grouped field and an ungrouped one. *)
Definition config_grouped : ReportConfig :=
  {| primary_entity := "vehicles";
     selected_fields :=
       [aggregated "vehicles" "max_speed" MAX;
        plain_field "vehicles" "model";
        plain_field "vehicles" "vin"];
     filters := []; sorting := [];
     time_range := None; time_field := None; time_field_entity := None;
     group_by := Some [plain_field "vehicles" "model"];
     limit := 1000 |}.

(** The last week of objects, by creation time. *)
Definition config_last_week : ReportConfig :=
  {| primary_entity := "objects";
     selected_fields := [plain_field "objects" "object_id"];
     filters := []; sorting := [];
     time_range := Some (last_days 7);
     time_field := Some "create_datetime";
     time_field_entity := None;
     group_by := None; limit := 1000 |}.

(** A time range scoped to an entity that nothing else refers to. *)
Definition config_foreign_time_scope : ReportConfig :=
  {| primary_entity := "objects";
     selected_fields := [plain_field "objects" "object_id"];
     filters := []; sorting := [];
     time_range := Some (last_days 7);
     time_field := Some "device_time";
     time_field_entity := Some "tracking_data_core";
     group_by := None; limit := 1000 |}.

(** A membership test over ten values. *)
Definition config_ten_values : ReportConfig :=
  {| primary_entity := "objects";
     selected_fields := [plain_field "objects" "object_id"];
     filters :=
       [condition "objects" "object_id" IN
          (VList [VInt 11; VInt 12; VInt 13; VInt 14; VInt 15;
                  VInt 16; VInt 17; VInt 18; VInt 19; VInt 20])
          VNone];
     sorting := [];
     time_range := None; time_field := None; time_field_entity := None;
     group_by := None; limit := 1000 |}.

(** Two string values, the first of which reads like a placeholder. *)
Definition config_dollar_value : ReportConfig :=
  {| primary_entity := "objects";
     selected_fields := [plain_field "objects" "object_id"];
     filters :=
       [condition "objects" "object_label" EQUALS (VStr "$2") VNone;
        condition "objects" "model" EQUALS (VStr "x") VNone];
     sorting := [];
     time_range := None; time_field := None; time_field_entity := None;
     group_by := None; limit := 1000 |}.

(** A filter on a field that a registered entity does not declare: the
    entity is related to the primary entity in the first configuration,
    and has no relationship at all in the second. *)
Definition config_dangling_joined : ReportConfig :=
  {| primary_entity := "objects";
     selected_fields := [plain_field "objects" "object_id"];
     filters := [condition "devices" "no_such_field" EQUALS (VInt 1) VNone];
     sorting := [];
     time_range := None; time_field := None; time_field_entity := None;
     group_by := None; limit := 1000 |}.

Definition config_dangling_unjoinable : ReportConfig :=
  {| primary_entity := "objects";
     selected_fields := [plain_field "objects" "object_id"];
     filters := [condition "tags" "no_such_field" EQUALS (VInt 1) VNone];
     sorting := [];
     time_range := None; time_field := None; time_field_entity := None;
     group_by := None; limit := 1000 |}.

(** A selected field that does not resolve and carries an aggregation,
    next to a plain one that is listed in the group-by list. *)
Definition config_dangling_aggregate : ReportConfig :=
  {| primary_entity := "objects";
     selected_fields :=
       [plain_field "objects" "object_id"; aggregated "ghosts" "name" COUNT];
     filters := []; sorting := [];
     time_range := None; time_field := None; time_field_entity := None;
     group_by := Some [plain_field "objects" "object_id"];
     limit := 1000 |}.

(** January 2024 in absolute bounds, the first with a UTC offset. *)
Definition january : TimeRange :=
  {| tr_type := "absolute"; relative_value := None; relative_unit := None;
     start_date := Some "2024-01-01T00:00:00+02:00";
     end_date := Some "2024-01-31T23:59:59.5" |}.

Definition config_january : ReportConfig :=
  {| primary_entity := "objects";
     selected_fields := [plain_field "objects" "object_id"];
     filters := []; sorting := [];
     time_range := Some january;
     time_field := Some "create_datetime";
     time_field_entity := None;
     group_by := None; limit := 1000 |}.

(** No selected field resolves. *)
Definition config_nothing_resolves : ReportConfig :=
  select_only "objects"
    [plain_field "objects" "no_such_field"; plain_field "ghosts" "name"].

(** A registry with one table, one of whose column names ends in a line
    feed. *)
Definition registry_line_feed : list (string * Entity) :=
  [("notes",
    {| schema_name := "public"; table_name := "notes";
       fields := [mkField "body" ("body" +:+ Py.NL)];
       relationships := [] |})].

(** What the builder returns on the samples (see the evaluation lemmas). *)
Definition fleet_sql : string :=
  Py.join Py.NL
    ["SELECT vehicles.vehicle_label AS vehicles_vehicle_label, devices.device_imei AS devices_device_imei";
     "FROM raw_business_data.vehicles";
     "LEFT JOIN raw_business_data.objects ON vehicles.object_id = objects.object_id";
     "LEFT JOIN raw_business_data.devices ON objects.device_id = devices.device_id";
     "WHERE objects.is_deleted = $1 AND objects.object_id IN ($2, $3, $4) AND objects.object_label ILIKE $5 AND objects.object_id BETWEEN $6 AND $7 AND vehicles.record_added_at >= $8 AND vehicles.record_added_at <= $9";
     "ORDER BY vehicles.model DESC";
     "LIMIT 10000"].

Definition fleet_params : list value :=
  [VBool false; VInt 1; VInt 2; VInt 3; VStr "%ab%"; VInt 1; VInt 9;
   VStr "2024-02-22T13:05:09.000120"; VStr "2024-02-29T13:05:09.000120"].

Definition dangling_sql : string :=
  Py.join Py.NL
    ["SELECT objects.object_id AS objects_object_id";
     "FROM raw_business_data.objects";
     "LIMIT 1000"].

Definition group_dangling_sql : string :=
  Py.join Py.NL
    ["SELECT MAX(vehicles.max_speed) AS max_vehicles_max_speed";
     "FROM raw_business_data.vehicles";
     "LIMIT 1000"].

Definition grouped_sql : string :=
  Py.join Py.NL
    ["SELECT MAX(vehicles.max_speed) AS max_vehicles_max_speed, vehicles.model AS vehicles_model, vehicles.vin AS vehicles_vin";
     "FROM raw_business_data.vehicles";
     "GROUP BY vehicles.model";
     "LIMIT 1000"].

Definition dangling_joined_sql : string :=
  Py.join Py.NL
    ["SELECT objects.object_id AS objects_object_id";
     "FROM raw_business_data.objects";
     "LEFT JOIN raw_business_data.devices ON objects.device_id = devices.device_id";
     "LIMIT 1000"].

Definition dangling_aggregate_sql : string :=
  Py.join Py.NL
    ["SELECT objects.object_id AS objects_object_id";
     "FROM raw_business_data.objects";
     "GROUP BY objects.object_id";
     "LIMIT 1000"].

Definition last_week_sql : string :=
  Py.join Py.NL
    ["SELECT objects.object_id AS objects_object_id";
     "FROM raw_business_data.objects";
     "WHERE objects.create_datetime >= $1 AND objects.create_datetime <= $2";
     "LIMIT 1000"].

Definition january_sql : string :=
  Py.join Py.NL
    ["SELECT objects.object_id AS objects_object_id";
     "FROM raw_business_data.objects";
     "WHERE objects.create_datetime >= $1 AND objects.create_datetime <= $2";
     "LIMIT 1000"].

Definition foreign_time_scope_sql : string :=
  Py.join Py.NL
    ["SELECT objects.object_id AS objects_object_id";
     "FROM raw_business_data.objects";
     "WHERE tracking_data_core.device_time >= $1 AND tracking_data_core.device_time <= $2";
     "LIMIT 1000"].

Definition ten_values_sql : string :=
  Py.join Py.NL
    ["SELECT objects.object_id AS objects_object_id";
     "FROM raw_business_data.objects";
     "WHERE objects.object_id IN ($1, $2, $3, $4, $5, $6, $7, $8, $9, $10)";
     "LIMIT 1000"].

Definition ten_values : list value :=
  [VInt 11; VInt 12; VInt 13; VInt 14; VInt 15;
   VInt 16; VInt 17; VInt 18; VInt 19; VInt 20].

(** The preview the specification describes for [config_ten_values], and
    the one [generate_preview_sql] returns. *)
Definition ten_values_expected_preview : string :=
  Py.join Py.NL
    ["SELECT objects.object_id AS objects_object_id";
     "FROM raw_business_data.objects";
     "WHERE objects.object_id IN (11, 12, 13, 14, 15, 16, 17, 18, 19, 20)";
     "LIMIT 1000"].

Definition ten_values_actual_preview : string :=
  Py.join Py.NL
    ["SELECT objects.object_id AS objects_object_id";
     "FROM raw_business_data.objects";
     "WHERE objects.object_id IN (11, 12, 13, 14, 15, 16, 17, 18, 19, 110)";
     "LIMIT 1000"].

(** A join path of the shipped registry, the preview of [config_fleet],
    and a membership test over no value. *)
Definition vehicles_to_devices : list JoinStep :=
  [("vehicles", "objects", "object_id", "object_id", "left");
   ("objects", "devices", "device_id", "device_id", "left")].

Definition fleet_preview : string :=
  Py.join Py.NL
    ["SELECT vehicles.vehicle_label AS vehicles_vehicle_label, devices.device_imei AS devices_device_imei";
     "FROM raw_business_data.vehicles";
     "LEFT JOIN raw_business_data.objects ON vehicles.object_id = objects.object_id";
     "LEFT JOIN raw_business_data.devices ON objects.device_id = devices.device_id";
     "WHERE objects.is_deleted = False AND objects.object_id IN (1, 2, 3) AND objects.object_label ILIKE '%ab%' AND objects.object_id BETWEEN 1 AND 9 AND vehicles.record_added_at >= '2024-02-22T13:05:09.000120' AND vehicles.record_added_at <= '2024-02-29T13:05:09.000120'";
     "ORDER BY vehicles.model DESC";
     "LIMIT 10000"].

Definition empty_membership : FilterCondition :=
  condition "objects" "object_id" IN (VList []) VNone.

(* ===================================================================== *)
(** ** Basic facts *)
(* ===================================================================== *)

#[local] Arguments String.append !s1 s2 : simpl nomatch.

Lemma bind_OK {A B : Type} (m : result A) (f : A -> result B) r :
  (m ≫= f) = OK r -> exists a, m = OK a /\ f a = OK r.
Proof. destruct m as [a|e]; simpl; [eauto|done]. Qed.

Tactic Notation "inv_bind" hyp(H) "as" ident(a) ident(Ha) :=
  apply bind_OK in H as (a & Ha & H).

Lemma bind_ext {A B : Type} (m : result A) (f g : A -> result B) :
  (forall a, f a = g a) -> (m ≫= f) = (m ≫= g).
Proof. intros H. destruct m as [a|e]; simpl; [apply H|done]. Qed.

Lemma for_each_invariant {A S : Type} (I : S -> Prop) (body : S -> A -> result S) l s s' :
  (forall s x s', I s -> body s x = OK s' -> I s') ->
  I s -> for_each body l s = OK s' -> I s'.
Proof.
  intros Hstep. revert s. induction l as [|x l IH]; simpl; intros s Hs H.
  - by injection H as <-.
  - inv_bind H as s1 Hs1. eauto.
Qed.

Lemma dict_get_elem {V : Type} (k : string) (d : list (string * V)) v :
  Py.dict_get k d = Some v -> (k, v) ∈ d.
Proof.
  induction d as [|[k' v'] d IH]; simpl; [done|].
  destruct (String.eqb k' k) eqn:E.
  - apply String.eqb_eq in E as ->. intros [= ->]. left.
  - intros H. right. auto.
Qed.

Lemma dict_get_NoDup {V : Type} (d : list (string * V)) k v :
  NoDup d.*1 -> (k, v) ∈ d -> Py.dict_get k d = Some v.
Proof.
  induction d as [|[k' v'] d IH]; simpl; intros Hnd Hin.
  - by apply elem_of_nil in Hin.
  - apply NoDup_cons in Hnd as [Hk' Hnd].
    apply elem_of_cons in Hin as [[= -> ->]|Hin].
    + by rewrite String.eqb_refl.
    + destruct (String.eqb k' k) eqn:E; [|by apply IH].
      apply String.eqb_eq in E as ->. exfalso. apply Hk'.
      apply list_elem_of_fmap. by exists (k, v).
Qed.

Lemma dict_get_snoc {V : Type} k (d : list (string * V)) k' v :
  Py.dict_get k (d ++ [(k', v)]) =
  match Py.dict_get k d with
  | Some x => Some x
  | None => if String.eqb k' k then Some v else None
  end.
Proof.
  induction d as [|[k0 v0] d IH]; simpl; [done|]. by destruct (String.eqb k0 k).
Qed.

Lemma dict_get_map {V W : Type} (g : V -> W) k (d : list (string * V)) :
  Py.dict_get k (map (fun item : string * V => (item.1, g item.2)) d)
  = g <$> Py.dict_get k d.
Proof.
  induction d as [|[k0 v0] d IH]; simpl; [done|]. by destruct (String.eqb k0 k).
Qed.

Lemma find_field_elem e fid f :
  find_field e fid = Some f -> f ∈ fields e /\ f_id f = fid.
Proof.
  unfold find_field. intros H. apply find_some in H as [Hin Heq].
  split; [by apply list_elem_of_In|by apply String.eqb_eq].
Qed.

Lemma sanitize_identifier_same name s : _sanitize_identifier name = OK s -> s = name.
Proof. unfold _sanitize_identifier. by destruct (Py.re_match_identifier name); intros [=]. Qed.

Lemma isoformat_sample :
  Datetime.isoformat (Datetime.naive sample_now) = "2024-02-29T13:05:09.000120".
Proof. vm_compute. reflexivity. Qed.

Lemma isoformat_epoch : Datetime.isoformat (Datetime.naive 0) = "0001-01-01T00:00:00".
Proof. vm_compute. reflexivity. Qed.

Lemma isoformat_calendar :
  Datetime.isoformat (Datetime.naive 315537897599999999) = "9999-12-31T23:59:59.999999"
  /\ Datetime.isoformat (Datetime.naive 63087379200000000) = "2000-02-29T00:00:00"
  /\ Datetime.isoformat (Datetime.naive 59931705600000000) = "1900-03-01T00:00:00"
  /\ Datetime.isoformat (Datetime.naive 59931705599000000) = "1900-02-28T23:59:59"
  /\ Datetime.isoformat (Datetime.naive 62135596800000000) = "1970-01-01T00:00:00"
  /\ Datetime.isoformat (Datetime.naive 12596299200000005) = "0400-02-29T12:00:00.000005".
Proof. repeat split; vm_compute; reflexivity. Qed.

(** An aware [datetime] is rendered with its UTC offset: whole minutes,
    then seconds and microseconds when the offset has them. *)
Lemma isoformat_offset :
  Datetime.isoformat (Datetime.mk_datetime 63839664000000000 (Some (2 * Datetime.US_PER_HOUR)))
  = "2024-01-01T00:00:00+02:00"
  /\ Datetime.isoformat (Datetime.mk_datetime 63839664000000000 (Some 0))
     = "2024-01-01T00:00:00+00:00"
  /\ Datetime.isoformat
       (Datetime.mk_datetime 63839664000000000 (Some (- (5 * Datetime.US_PER_HOUR + 30 * Datetime.US_PER_MINUTE))))
     = "2024-01-01T00:00:00-05:30"
  /\ Datetime.isoformat (Datetime.mk_datetime 63839664000000000 (Some 3723000004))
     = "2024-01-01T00:00:00+01:02:03.000004"
  /\ Datetime.isoformat (Datetime.mk_datetime 63839664000000000 (Some (-45000000)))
     = "2024-01-01T00:00:00-00:00:45".
Proof. repeat split; vm_compute; reflexivity. Qed.

Lemma fromisoformat_samples :
  (Datetime.isoformat <$> sample_fromisoformat "2024-01-01T00:00:00+02:00")
  = OK "2024-01-01T00:00:00+02:00"
  /\ (Datetime.isoformat <$> sample_fromisoformat "2024-01-31T23:59:59.5")
     = OK "2024-01-31T23:59:59.500000".
Proof. split; vm_compute; reflexivity. Qed.

Lemma replace_prefix_clash : Py.replace "$1" "X" "a$1b$10c" = "aXbX0c".
Proof. reflexivity. Qed.

Lemma replace_non_overlapping : Py.replace "aa" "b" "aaa" = "ba".
Proof. reflexivity. Qed.

(* ===================================================================== *)
(** ** Identifiers *)
(* ===================================================================== *)

Lemma all_ident_chars_tail s : all_ident_chars s = true -> Py.match_ident_tail s = true.
Proof.
  induction s as [|c s IH]; simpl; [done|].
  intros [-> Hs]%andb_true_iff. auto.
Qed.

Lemma match_ident_tail_shape s :
  Py.match_ident_tail s = true ->
  all_ident_chars s = true
  \/ exists base, s = base +:+ Py.NL /\ all_ident_chars base = true.
Proof.
  induction s as [|c s IH]; simpl; [by left|].
  destruct (Py.is_ident_char c) eqn:Hc.
  - intros [Hs|(base & -> & Hb)]%IH; [by left|].
    right. exists (String c base). simpl. by rewrite Hc.
  - intros [Hlf Hs]%andb_true_iff.
    apply Ascii.eqb_eq in Hlf as ->. apply String.eqb_eq in Hs as ->.
    right. by exists EmptyString.
Qed.

(** X1.  [_sanitize_identifier] returns its argument unchanged, and it
    lets through exactly the strict identifiers and the strict identifiers
    followed by one line feed. *)
Lemma sanitize_identifier_accepts name s :
  _sanitize_identifier name = OK s <->
  s = name
  /\ (strict_identifier name = true
      \/ exists base, name = base +:+ Py.NL /\ strict_identifier base = true).
Proof.
  unfold _sanitize_identifier, Py.re_match_identifier, strict_identifier.
  destruct name as [|c name]; simpl.
  { split; [done|]. intros [_ [?|(base & Hb & ?)]]; [done|]. by destruct base. }
  assert (Py.is_ident_start c = true -> Py.is_digit c = false) as Hstart.
  { unfold Py.is_ident_start, Py.is_upper, Py.is_lower, Py.is_digit.
    destruct (Ascii.eqb c "_") eqn:E; [apply Ascii.eqb_eq in E as ->; done|].
    rewrite orb_false_r. intros H. apply andb_false_iff.
    apply orb_true_iff in H as [H|H]; apply andb_true_iff in H as [H1 H2];
      apply Nat.leb_le in H1; right; apply Nat.leb_gt; lia. }
  split.
  - destruct (Py.is_ident_start c) eqn:Hc; simpl; [|done].
    destruct (Py.match_ident_tail name) eqn:Ht; [|done]. intros [= <-].
    split; [done|]. rewrite (Hstart eq_refl). unfold Py.is_ident_char. rewrite Hc. simpl.
    apply match_ident_tail_shape in Ht as [Ht|(base & -> & Hb)]; [by left|].
    right. exists (String c base). simpl.
    rewrite (Hstart eq_refl). unfold Py.is_ident_char. by rewrite Hc.
  - intros [-> H].
    assert (Py.is_ident_start c && Py.match_ident_tail name = true) as ->; [|done].
    assert (forall c', Py.is_digit c' = false -> Py.is_ident_char c' = true ->
                       Py.is_ident_start c' = true) as Hnd.
    { intros c' Hd. unfold Py.is_ident_char. rewrite Hd. by rewrite orb_false_r. }
    destruct H as [H|(base & Hb & H)].
    + apply andb_true_iff in H as [Hd [Hc Hn]%andb_true_iff].
      apply negb_true_iff in Hd. rewrite (Hnd c Hd Hc). by apply all_ident_chars_tail.
    + destruct base as [|c' base]; [done|]. simpl in Hb. injection Hb as <- ->.
      apply andb_true_iff in H as [Hd [Hc Hn]%andb_true_iff].
      apply negb_true_iff in Hd. rewrite (Hnd c Hd Hc). simpl.
      clear -Hn. induction base as [|b base IH]; simpl in *; [done|].
      apply andb_true_iff in Hn as [-> Hn]. auto.
Qed.

(** C1, at the input on which the code departs from it.  The identifier
    ["abc" followed by a line feed] holds a character outside
    [[A-Za-z0-9_]], so it is not a strict identifier, and yet
    [_sanitize_identifier] returns it instead of raising: the [$] of the
    regular expression also matches just before a final line feed.  With a
    registry whose column name ends in a line feed, [build_query] then
    puts that name into the query text. *)
Theorem sanitize_identifier_line_feed :
  strict_identifier ("abc" +:+ Py.NL) = false
  /\ _sanitize_identifier ("abc" +:+ Py.NL) = OK ("abc" +:+ Py.NL)
  /\ build_query registry_line_feed sample_repr sample_upper sample_fromisoformat sample_now
       (select_only "notes" [plain_field "notes" "body"])
     = OK (Py.join Py.NL
             ["SELECT notes.body" +:+ Py.NL +:+ " AS notes_body";
              "FROM public.notes";
              "LIMIT 1000"],
           []).
Proof. split_and!; vm_compute; reflexivity. Qed.

(* ===================================================================== *)
(** ** Time ranges *)
(* ===================================================================== *)

Lemma mk_timedelta_ok us :
  - Datetime.MAX_DELTA_DAYS * Datetime.US_PER_DAY <= us
  < (Datetime.MAX_DELTA_DAYS + 1) * Datetime.US_PER_DAY ->
  Datetime.mk_timedelta us = OK us.
Proof.
  intros [Hlo Hhi]. unfold Datetime.mk_timedelta.
  assert (0 < Datetime.US_PER_DAY) as Hpos by done.
  assert (- Datetime.MAX_DELTA_DAYS <= us / Datetime.US_PER_DAY) as H1.
  { apply Z.div_le_lower_bound; lia. }
  assert (us / Datetime.US_PER_DAY < Datetime.MAX_DELTA_DAYS + 1) as H2.
  { apply Z.div_lt_upper_bound; lia. }
  apply Z.leb_le in H1. rewrite H1.
  assert (us / Datetime.US_PER_DAY <= Datetime.MAX_DELTA_DAYS) as H3 by lia.
  apply Z.leb_le in H3. by rewrite H3.
Qed.

Lemma mk_timedelta_overflow us :
  Datetime.MAX_DELTA_DAYS < Z.abs (us / Datetime.US_PER_DAY) ->
  Datetime.mk_timedelta us = Raise OverflowError.
Proof.
  intros H. unfold Datetime.mk_timedelta.
  destruct (Z.leb_spec (- Datetime.MAX_DELTA_DAYS) (us / Datetime.US_PER_DAY));
    destruct (Z.leb_spec (us / Datetime.US_PER_DAY) Datetime.MAX_DELTA_DAYS);
    simpl; try done; lia.
Qed.

Lemma mk_timedelta_cases us :
  Datetime.mk_timedelta us = OK us \/ Datetime.mk_timedelta us = Raise OverflowError.
Proof. unfold Datetime.mk_timedelta. destruct (_ && _); auto. Qed.

(** Beyond [MAX_RELATIVE_COUNT] the entry for ["years"] cannot be built,
    whatever the unit asked for. *)
Lemma relative_count_overflow fromisoformat now tr :
  tr_type tr <> "absolute" ->
  MAX_RELATIVE_COUNT < Z.abs (default 0 (relative_value tr)) ->
  _calculate_time_range fromisoformat now tr = Raise OverflowError.
Proof.
  intros Hrel Hcount. unfold _calculate_time_range.
  apply String.eqb_neq in Hrel. rewrite Hrel.
  set (count := default 0 (relative_value tr)) in *.
  assert (Datetime.timedelta_days (count * 365) = Raise OverflowError) as Hyears.
  { apply mk_timedelta_overflow. rewrite Z.div_mul by done.
    unfold MAX_RELATIVE_COUNT, Datetime.MAX_DELTA_DAYS in *. lia. }
  unfold Datetime.timedelta_hours, Datetime.timedelta_days, Datetime.timedelta_weeks in *.
  destruct (mk_timedelta_cases (count * Datetime.US_PER_HOUR)) as [-> | ->]; [|done].
  destruct (mk_timedelta_cases (count * Datetime.US_PER_DAY)) as [-> | ->]; [|done].
  destruct (mk_timedelta_cases (count * 7 * Datetime.US_PER_DAY)) as [-> | ->]; [|done].
  destruct (mk_timedelta_cases (count * 30 * Datetime.US_PER_DAY)) as [-> | ->]; [|done].
  simpl. by rewrite Hyears.
Qed.

(** C5, as amended.  For a relative time range whose count (absent: 0) is
    at most [MAX_RELATIVE_COUNT] in magnitude, the resolver returns
    [(now - delta, now)] whenever [now - delta] is a valid [datetime],
    where [delta] is count hours, days or weeks for those units, count
    times 30 days for months, count times 365 days for years, count days
    when the unit is absent or empty, and 7 days whatever the count for
    any other unit. *)
Theorem relative_time_range fromisoformat now tr delta :
  tr_type tr <> "absolute" ->
  - MAX_RELATIVE_COUNT <= default 0 (relative_value tr) <= MAX_RELATIVE_COUNT ->
  unit_delta (default 0 (relative_value tr)) (relative_unit tr) delta ->
  Datetime.in_range (now - delta) = true ->
  _calculate_time_range fromisoformat now tr
  = OK (Some (Datetime.naive (now - delta)), Some (Datetime.naive now)).
Proof.
  intros Hrel Hcount Hdelta Hrange. unfold _calculate_time_range.
  apply String.eqb_neq in Hrel. rewrite Hrel.
  set (count := default 0 (relative_value tr)) in *.
  unfold MAX_RELATIVE_COUNT in Hcount.
  unfold Datetime.timedelta_hours, Datetime.timedelta_days, Datetime.timedelta_weeks.
  rewrite !mk_timedelta_ok
    by (unfold Datetime.MAX_DELTA_DAYS, Datetime.US_PER_DAY, Datetime.US_PER_HOUR,
          Datetime.US_PER_SECOND; lia).
  simpl.
  assert (forall d, d = delta ->
            (Datetime.sub now d ≫=
               fun start => OK (Some (Datetime.naive start), Some (Datetime.naive now)))
            = OK (Some (Datetime.naive (now - delta)), Some (Datetime.naive now))) as Hsub.
  { intros d ->. unfold Datetime.sub. by rewrite Hrange. }
  destruct Hdelta as [| | | | | | |u Hu]; try (simpl; apply Hsub; done).
  rewrite !elem_of_cons, elem_of_nil in Hu.
  assert (Py.truthy (Some u) = Some u) as ->.
  { destruct u; [|done]. naive_solver. }
  simpl default.
  repeat match goal with
         | |- context [String.eqb u ?s] =>
             let E := fresh in
             destruct (String.eqb u s) eqn:E;
             [apply String.eqb_eq in E; naive_solver|]
         end.
  by apply Hsub.
Qed.

Lemma relative_time_range_witness :
  tr_type (last_days 7) <> "absolute"
  /\ - MAX_RELATIVE_COUNT <= default 0 (relative_value (last_days 7)) <= MAX_RELATIVE_COUNT
  /\ unit_delta (default 0 (relative_value (last_days 7))) (relative_unit (last_days 7))
       (7 * Datetime.US_PER_DAY)
  /\ Datetime.in_range (sample_now - 7 * Datetime.US_PER_DAY) = true
  /\ _calculate_time_range sample_fromisoformat sample_now (last_days 7)
     = OK (Some (Datetime.naive (sample_now - 7 * Datetime.US_PER_DAY)),
           Some (Datetime.naive sample_now)).
Proof.
  assert (tr_type (last_days 7) <> "absolute") as H1 by (simpl; discriminate).
  assert (- MAX_RELATIVE_COUNT <= default 0 (relative_value (last_days 7))
          <= MAX_RELATIVE_COUNT) as H2 by (simpl; unfold MAX_RELATIVE_COUNT; lia).
  assert (unit_delta (default 0 (relative_value (last_days 7)))
            (relative_unit (last_days 7)) (7 * Datetime.US_PER_DAY)) as H3
    by (simpl; apply delta_days).
  assert (Datetime.in_range (sample_now - 7 * Datetime.US_PER_DAY) = true) as H4
    by reflexivity.
  refine (conj H1 (conj H2 (conj H3 (conj H4 _)))).
  exact (relative_time_range sample_fromisoformat sample_now (last_days 7)
           (7 * Datetime.US_PER_DAY) H1 H2 H3 H4).
Defined.

(** C5 as stated fails when the unit is absent: the resolver then reads
    the count as days, and three days back is not seven days back. *)
Lemma relative_unit_absent :
  relative_unit three_unitless = None
  /\ _calculate_time_range sample_fromisoformat sample_now three_unitless
     = OK (Some (Datetime.naive (sample_now - 3 * Datetime.US_PER_DAY)),
           Some (Datetime.naive sample_now))
  /\ _calculate_time_range sample_fromisoformat sample_now three_unitless
     <> OK (Some (Datetime.naive (sample_now - 7 * Datetime.US_PER_DAY)),
            Some (Datetime.naive sample_now)).
Proof. split_and!; [reflexivity|reflexivity|discriminate]. Qed.

(* ===================================================================== *)
(** ** The join-path search *)
(* ===================================================================== *)

(** The bounded search is first shown never to run out of fuel, by the
    measure [pending]; its result is then independent of the bound, which
    gives [_find_join_path] its recursion equation; completeness follows by
    induction on the bound, after a walk to the target has been cut at the
    last visit of its first node. *)
Section JoinPath.
Variable registry : list (string * Entity).

Lemma first_found_in_fuel {A} (f : A -> search) l :
  (∀ x, x ∈ l -> f x ≠ OutOfFuel) -> first_found f l ≠ OutOfFuel.
Proof.
  induction l as [|x l IH]; simpl; intros H; [done|].
  pose proof (H x (list_elem_of_here _ _)) as Hx.
  destruct (f x); try done.
  apply IH. intros y Hy. apply H. by right.
Qed.

Lemma prepend_in_fuel s r : r ≠ OutOfFuel -> prepend s r ≠ OutOfFuel.
Proof. by destruct r. Qed.

Lemma first_found_NotFound {A} (f : A -> search) l :
  first_found f l = NotFound -> ∀ x, x ∈ l -> f x = NotFound.
Proof.
  induction l as [|x l IH]; simpl; intros H y Hy.
  - by apply elem_of_nil in Hy.
  - apply elem_of_cons in Hy as [->|Hy]; destruct (f x) eqn:E; try done.
    by apply IH.
Qed.

Lemma first_found_ext {A} (f g : A -> search) l :
  (∀ x, x ∈ l -> f x = g x) -> first_found f l = first_found g l.
Proof.
  induction l as [|x l IH]; simpl; intros H; [done|].
  rewrite <- (H x) by left. rewrite IH; [done|]. intros y Hy. apply H. by right.
Qed.

(** No entity left to recurse through: the two multi-hop loops never call
    [rec]. *)
Lemma multi_hop_forward_isolated rec a e visited :
  relationships e = [] -> multi_hop_forward rec a e visited = NotFound.
Proof. unfold multi_hop_forward. by intros ->. Qed.

Lemma multi_hop_reverse_isolated rec a visited :
  existsb (fun item : string * Entity => targets a item.2) registry = false ->
  multi_hop_reverse registry rec a visited = NotFound.
Proof.
  unfold multi_hop_reverse. induction registry as [|[k e] l IH]; simpl; [done|].
  intros [Hk Hl]%orb_false_elim.
  destruct (decide (k ∈ visited)); [by apply IH|].
  assert (first_found
    (λ rel, if String.eqb (target_entity rel) a
            then prepend (reverse_step a k rel) (rec k visited) else NotFound)
    (relationships e) = NotFound) as ->; [|by apply IH].
  unfold targets in Hk. clear -Hk. induction (relationships e) as [|r rs IHr]; simpl in *; [done|].
  apply orb_false_elim in Hk as [-> ?]. auto.
Qed.

Lemma pending_le visited : (pending registry visited ≤ length registry)%nat.
Proof. apply length_filter. Qed.

Lemma pending_mono visited visited' :
  visited ⊆ visited' -> (pending registry visited' ≤ pending registry visited)%nat.
Proof.
  intros Hsub. unfold pending.
  rewrite <- (list_filter_filter_l
                (fun item : string * Entity => (item.1 ∉ visited') ∧ has_edges registry item.1 item.2 = true)
                (fun item : string * Entity => (item.1 ∉ visited) ∧ has_edges registry item.1 item.2 = true)).
  - apply length_filter.
  - intros x [? ?]. split; [set_solver|done].
Qed.

Lemma pending_decreases a e visited :
  get_entity registry a = Some e -> a ∉ visited -> has_edges registry a e = true ->
  (pending registry ({[a]} ∪ visited) < pending registry visited)%nat.
Proof.
  intros He Ha Hedges. unfold pending.
  rewrite <- (list_filter_filter_l
                (fun item : string * Entity => (item.1 ∉ {[a]} ∪ visited) ∧ has_edges registry item.1 item.2 = true)
                (fun item : string * Entity => (item.1 ∉ visited) ∧ has_edges registry item.1 item.2 = true)).
  - apply (length_filter_lt _ _ (a, e)).
    + apply list_elem_of_filter. split; [done|]. by apply dict_get_elem.
    + simpl. intros [? _]. set_solver.
  - intros x [? ?]. split; [set_solver|done].
Qed.

Lemma find_in_fuel fuel a b visited :
  (pending registry visited < fuel)%nat -> find_join_path_fuel registry fuel a b visited ≠ OutOfFuel.
Proof.
  revert a visited. induction fuel as [|fuel IH]; intros a visited Hlt; [lia|].
  simpl. destruct (String.eqb a b); [done|].
  destruct (decide (a ∈ visited)); [done|].
  unfold find_join_path_body.
  destruct (get_entity registry a) as [e|] eqn:He; [|done].
  destruct (direct_forward a b e); [done|].
  destruct (direct_reverse registry a b _); [done|].
  destruct (has_edges registry a e) eqn:Hedges.
  - pose proof (pending_decreases a e visited He n Hedges) as Hdec.
    assert (∀ next, find_join_path_fuel registry fuel next b ({[a]} ∪ visited) ≠ OutOfFuel) as Hrec.
    { intros next. apply IH. lia. }
    assert (multi_hop_forward (λ next visited', find_join_path_fuel registry fuel next b visited') a e ({[a]} ∪ visited) ≠ OutOfFuel) as Hf.
    { apply first_found_in_fuel. intros rel _.
      destruct (decide _); [done|]. by apply prepend_in_fuel. }
    assert (multi_hop_reverse registry (λ next visited', find_join_path_fuel registry fuel next b visited') a ({[a]} ∪ visited) ≠ OutOfFuel) as Hr.
    { apply first_found_in_fuel. intros [k e'] _.
      destruct (decide _); [done|].
      apply first_found_in_fuel. intros rel _.
      destruct (String.eqb _ _); [|done]. by apply prepend_in_fuel. }
    by destruct (multi_hop_forward _ _ _ _).
  - apply orb_false_elim in Hedges as [Hrels Hrev].
    apply negb_false_iff, bool_decide_eq_true in Hrels.
    rewrite multi_hop_forward_isolated by done.
    by rewrite multi_hop_reverse_isolated.
Qed.

Lemma find_join_path_body_ext rec rec' a b visited :
  (∀ e, get_entity registry a = Some e -> has_edges registry a e = true ->
        ∀ next, rec next visited = rec' next visited) ->
  find_join_path_body registry rec a b visited
  = find_join_path_body registry rec' a b visited.
Proof.
  intros H. unfold find_join_path_body.
  destruct (get_entity registry a) as [e|] eqn:He; [|done].
  destruct (direct_forward a b e); [done|].
  destruct (direct_reverse registry a b _); [done|].
  destruct (has_edges registry a e) eqn:Hedges.
  - specialize (H e eq_refl Hedges).
    assert (multi_hop_forward rec a e visited = multi_hop_forward rec' a e visited) as ->.
    { apply first_found_ext. intros rel _. by rewrite H. }
    assert (multi_hop_reverse registry rec a visited
            = multi_hop_reverse registry rec' a visited) as ->; [|done].
    apply first_found_ext. intros [k e'] _. destruct (decide _); [done|].
    apply first_found_ext. intros rel _. by rewrite H.
  - apply orb_false_elim in Hedges as [Hrels Hrev].
    apply negb_false_iff, bool_decide_eq_true in Hrels.
    rewrite !multi_hop_forward_isolated by done.
    by rewrite !multi_hop_reverse_isolated.
Qed.

Lemma find_fuel_stable fuel fuel' a b visited :
  (pending registry visited < fuel)%nat -> (pending registry visited < fuel')%nat ->
  find_join_path_fuel registry fuel a b visited
  = find_join_path_fuel registry fuel' a b visited.
Proof.
  revert fuel' a visited.
  induction fuel as [|fuel IH]; intros fuel' a visited Hlt Hlt'; [lia|].
  destruct fuel' as [|fuel']; [lia|]. simpl.
  destruct (String.eqb a b); [done|].
  destruct (decide (a ∈ visited)); [done|].
  apply find_join_path_body_ext. intros e He Hedges next.
  pose proof (pending_decreases a e visited He n Hedges).
  apply IH; lia.
Qed.

Lemma find_join_path_unfold a b visited :
  _find_join_path registry a b visited =
  if String.eqb a b then Some []
  else if decide (a ∈ visited) then None
  else as_option
         (find_join_path_body registry
            (fun next visited' => as_search (_find_join_path registry next b visited'))
            a b ({[a]} ∪ visited)).
Proof.
  unfold _find_join_path at 1. simpl.
  destruct (String.eqb a b); [done|].
  destruct (decide (a ∈ visited)); [done|].
  fold (as_option (find_join_path_body registry
     (λ next visited', find_join_path_fuel registry (length registry) next b visited')
     a b ({[a]} ∪ visited))).
  f_equal. apply find_join_path_body_ext. intros e He Hedges next.
  pose proof (pending_decreases a e visited He n Hedges).
  pose proof (pending_le visited).
  unfold _find_join_path.
  rewrite <- (find_fuel_stable (length registry) (S (length registry))) by lia.
  pose proof (find_in_fuel (length registry) next b ({[a]} ∪ visited)) as Hf.
  destruct (find_join_path_fuel registry (length registry) next b _); try done.
  exfalso. apply Hf; [lia|done].
Qed.

Lemma connected_walk a c : connected registry a c -> ∃ l, walk registry ∅ a l c.
Proof.
  induction 1 as [a|a b c Ha Hab _ [l IH]].
  - exists []. constructor.
  - exists (b :: l). constructor; [done|done|set_solver|done].
Qed.

Lemma walk_suffix seen a l1 x l2 c :
  walk registry seen a (l1 ++ x :: l2) c -> walk registry seen x l2 c.
Proof.
  revert a. induction l1 as [|y l1 IH]; simpl; intros a H; inversion H; subst; eauto.
Qed.

Lemma walk_avoid seen x b l c :
  walk registry seen b l c -> x ∉ l -> walk registry ({[x]} ∪ seen) b l c.
Proof.
  induction 1 as [|a b l c Ha Hab Hb _ IH]; intros Hx; [constructor|].
  apply not_elem_of_cons in Hx as [? ?].
  constructor; [done|done|set_solver|auto].
Qed.

Lemma walk_first_step seen a l c :
  walk registry seen a l c -> a ≠ c ->
  ∃ b l', registered registry a ∧ linked registry a b ∧ (b ∉ {[a]} ∪ seen)
          ∧ walk registry ({[a]} ∪ seen) b l' c.
Proof.
  intros Hw Hac.
  assert (∃ l0, walk registry seen a l0 c ∧ a ∉ l0) as (l0 & Hw0 & Hl0).
  { destruct (decide (a ∈ l)) as [Hin|Hout]; [|by exists l].
    apply list_elem_of_split_r in Hin as (l1 & l2 & -> & ?).
    exists l2. split; [|done]. by eapply walk_suffix. }
  inversion Hw0 as [|a' b l' c' Ha Hab Hb Hrest]; subst; [done|].
  apply not_elem_of_cons in Hl0 as [? ?].
  exists b, l'. split_and!; [done|done|set_solver|by apply walk_avoid].
Qed.

Lemma linked_has_edges a b e :
  NoDup registry.*1 -> get_entity registry a = Some e -> linked registry a b ->
  has_edges registry a e = true.
Proof.
  intros Hnd He [(e' & rel & Hin & Hrel & _)|(e' & rel & Hin & Hrel & Ht)];
    unfold has_edges; apply orb_true_iff.
  - left. apply (dict_get_NoDup _ _ _ Hnd) in Hin.
    unfold get_entity in He. rewrite He in Hin. injection Hin as <-.
    apply negb_true_iff, bool_decide_eq_false. intros Hnil.
    rewrite Hnil in Hrel. by apply elem_of_nil in Hrel.
  - right. apply existsb_exists. exists (b, e'). split; [by apply list_elem_of_In|].
    apply existsb_exists. exists rel. split; [by apply list_elem_of_In|].
    by apply String.eqb_eq.
Qed.

Lemma multi_hop_forward_in_fuel rec a e visited :
  (∀ next, rec next visited ≠ OutOfFuel) ->
  multi_hop_forward rec a e visited ≠ OutOfFuel.
Proof.
  intros H. apply first_found_in_fuel. intros rel _.
  destruct (decide _); [done|]. by apply prepend_in_fuel.
Qed.

Lemma multi_hop_reverse_in_fuel rec a visited :
  (∀ next, rec next visited ≠ OutOfFuel) ->
  multi_hop_reverse registry rec a visited ≠ OutOfFuel.
Proof.
  intros H. apply first_found_in_fuel. intros [k e'] _.
  destruct (decide _); [done|].
  apply first_found_in_fuel. intros rel _.
  destruct (String.eqb _ _); [|done]. by apply prepend_in_fuel.
Qed.

Lemma find_walk fuel a c seen l :
  NoDup registry.*1 ->
  walk registry seen a l c -> a ∉ seen -> (pending registry seen < fuel)%nat ->
  ∃ path, find_join_path_fuel registry fuel a c seen = Found path.
Proof.
  intros Hnd. revert a seen l.
  induction fuel as [|fuel IH]; intros a seen l Hw Hseen Hlt; [lia|].
  simpl. destruct (String.eqb a c) eqn:Hac; [by eexists|].
  apply String.eqb_neq in Hac.
  rewrite decide_False by done.
  destruct (walk_first_step seen a l c Hw Hac) as (b & l' & [e He] & Hab & Hb & Hw').
  pose proof (linked_has_edges a b e Hnd He Hab) as Hedges.
  pose proof (pending_decreases a e seen He Hseen Hedges) as Hdec.
  destruct (IH b ({[a]} ∪ seen) l' Hw' Hb ltac:(lia)) as [sub Hsub].
  assert (∀ next, find_join_path_fuel registry fuel next c ({[a]} ∪ seen) ≠ OutOfFuel) as Hrec.
  { intros next. apply find_in_fuel. lia. }
  unfold find_join_path_body. rewrite He.
  destruct (direct_forward a c e); [by eexists|].
  destruct (direct_reverse registry a c _); [by eexists|].
  pose proof (multi_hop_forward_in_fuel
                (λ next visited', find_join_path_fuel registry fuel next c visited')
                a e ({[a]} ∪ seen) Hrec) as Hf.
  pose proof (multi_hop_reverse_in_fuel
                (λ next visited', find_join_path_fuel registry fuel next c visited')
                a ({[a]} ∪ seen) Hrec) as Hr.
  destruct (multi_hop_forward _ a e _) as [|p|] eqn:Ef; [done|by eexists|].
  destruct (multi_hop_reverse registry _ a _) as [|p|] eqn:Er; [done|by eexists|].
  exfalso.
  destruct Hab as [(e' & rel & Hin & Hrel & Ht)|(e' & rel & Hin & Hrel & Ht)].
  - apply (dict_get_NoDup _ _ _ Hnd) in Hin.
    unfold get_entity in He. rewrite He in Hin. injection Hin as <-.
    pose proof (first_found_NotFound _ _ Ef rel Hrel) as Hbody. simpl in Hbody.
    rewrite Ht, decide_False, Hsub in Hbody by done. done.
  - pose proof (first_found_NotFound _ _ Er (b, e') Hin) as Hbody. simpl in Hbody.
    rewrite decide_False in Hbody by done.
    pose proof (first_found_NotFound _ _ Hbody rel Hrel) as Hrelb. simpl in Hrelb.
    apply String.eqb_eq in Ht. rewrite Ht, Hsub in Hrelb. done.
Qed.

Lemma find_join_path_finds a c :
  NoDup registry.*1 -> connected registry a c ->
  is_Some (_find_join_path registry a c ∅).
Proof.
  intros Hnd [l Hw]%connected_walk.
  destruct (find_walk (S (length registry)) a c ∅ l Hnd Hw) as [p Hp].
  - set_solver.
  - pose proof (pending_le ∅). lia.
  - unfold _find_join_path. rewrite Hp. by eexists.
Qed.

Lemma direct_forward_Some a b e path :
  direct_forward a b e = Some path ->
  exists rel, rel ∈ relationships e /\ target_entity rel = b
              /\ path = [(a, b, source_field rel, target_field rel, join_type rel)].
Proof.
  unfold direct_forward. induction (relationships e) as [|r rs IH]; simpl; [done|].
  destruct (String.eqb (target_entity r) b) eqn:E.
  - apply String.eqb_eq in E. intros [= <-]. exists r. split_and!; [left|done|done].
  - intros (rel & ? & ? & ?)%IH. exists rel. split_and!; [by right|done|done].
Qed.

Lemma reverse_candidate_Some a b k (rs : list EntityRelationship) path :
  first_some
    (fun rel =>
       if String.eqb (target_entity rel) a
       then if String.eqb k b
            then Some [(a, b, target_field rel, source_field rel, join_type rel)]
            else None
       else None) rs = Some path ->
  k = b
  /\ exists rel, rel ∈ rs /\ target_entity rel = a
                /\ path = [(a, b, target_field rel, source_field rel, join_type rel)].
Proof.
  induction rs as [|r rs IH]; simpl; [done|].
  destruct (String.eqb (target_entity r) a) eqn:Ea;
    [destruct (String.eqb k b) eqn:Eb|].
  - apply String.eqb_eq in Ea, Eb. intros [= <-].
    split; [done|]. exists r. split_and!; [left|done|done].
  - intros [? (rel & ? & ?)]%IH. split; [done|]. exists rel. split; [by right|done].
  - intros [? (rel & ? & ?)]%IH. split; [done|]. exists rel. split; [by right|done].
Qed.

Lemma direct_reverse_Some a b visited path :
  direct_reverse registry a b visited = Some path ->
  (b ∉ visited)
  /\ exists e rel, (b, e) ∈ registry /\ rel ∈ relationships e /\ target_entity rel = a
                  /\ path = [(a, b, target_field rel, source_field rel, join_type rel)].
Proof.
  unfold direct_reverse. induction registry as [|[k e] l IH]; simpl; [done|].
  destruct (decide (k ∈ visited)).
  { intros (? & e' & rel & ? & ?)%IH. split; [done|]. exists e', rel. split; [by right|done]. }
  destruct (first_some _ (relationships e)) as [p|] eqn:E.
  - intros [= <-]. apply reverse_candidate_Some in E as [-> (rel & ? & ? & ?)].
    split; [done|]. exists e, rel. split_and!; [left|done..].
  - intros (? & e' & rel & ? & ?)%IH. split; [done|]. exists e', rel. split; [by right|done].
Qed.

End JoinPath.

Lemma shipped_registry_keys : NoDup ENTITIES.*1.
Proof. apply (bool_decide_unpack _). vm_compute. reflexivity. Qed.

Lemma shipped_registry_pending : pending ENTITIES ∅ = 10%nat.
Proof. vm_compute. reflexivity. Qed.

(** C10.  The search terminates on every input, cycles or not.  A run that
    may nest one call per registered entity under the outermost call never
    runs out of fuel, and returns the same result with any larger bound;
    every nested call is made with the visited set [{from} ∪ visited], a
    strict superset of the caller's; the nesting is in fact bounded by the
    number of unvisited registered entities that have a relationship; and
    on the shipped registry the number of calls active at once, the
    outermost included, never exceeds the number of registered entities. *)
Theorem find_join_path_terminates registry from to visited :
  (exists r, r <> OutOfFuel
             /\ forall fuel, (length registry < fuel)%nat ->
                   find_join_path_fuel registry fuel from to visited = r)
  /\ (from <> to -> from ∉ visited ->
      visited ⊂ {[from]} ∪ visited
      /\ forall fuel,
           find_join_path_fuel registry (S fuel) from to visited
           = find_join_path_body registry
               (fun next visited' =>
                  if decide (visited' = {[from]} ∪ visited)
                  then find_join_path_fuel registry fuel next to visited'
                  else OutOfFuel)
               from to ({[from]} ∪ visited))
  /\ (forall fuel, (pending registry visited < fuel)%nat ->
        find_join_path_fuel registry fuel from to visited <> OutOfFuel)
  /\ (pending registry visited <= length registry)%nat
  /\ (forall fuel, (length ENTITIES <= fuel)%nat ->
        find_join_path_fuel ENTITIES fuel from to visited <> OutOfFuel).
Proof.
  split_and!.
  - exists (find_join_path_fuel registry (S (length registry)) from to visited).
    pose proof (pending_le registry visited). split.
    + apply find_in_fuel. lia.
    + intros fuel Hfuel. apply find_fuel_stable; lia.
  - intros Hne Hnotin. split; [set_solver|]. intros fuel. simpl.
    apply String.eqb_neq in Hne. rewrite Hne, decide_False by done.
    apply find_join_path_body_ext. intros e _ _ next. by rewrite decide_True.
  - intros fuel. apply find_in_fuel.
  - apply pending_le.
  - intros fuel Hfuel. apply find_in_fuel.
    pose proof (pending_mono ENTITIES ∅ visited ltac:(set_solver)) as Hle.
    rewrite shipped_registry_pending in Hle. simpl in Hfuel. lia.
Qed.

Lemma find_join_path_terminates_witness :
  "vehicles" <> "devices"
  /\ ("vehicles" ∉ (∅ : gset string))
  /\ (length ENTITIES < 14)%nat
  /\ (∅ : gset string) ⊂ {["vehicles"]} ∪ ∅
  /\ find_join_path_fuel ENTITIES 14 "vehicles" "devices" ∅ <> OutOfFuel.
Proof.
  assert ("vehicles" <> "devices") as H1 by discriminate.
  assert ("vehicles" ∉ (∅ : gset string)) as H2 by (apply not_elem_of_empty).
  assert (length ENTITIES < 14)%nat as H3 by (simpl; lia).
  refine (conj H1 (conj H2 (conj H3 _))).
  destruct (find_join_path_terminates ENTITIES "vehicles" "devices" ∅)
    as ((r & Hr & Hfuel) & Hgrow & _).
  split.
  - exact (proj1 (Hgrow H1 H2)).
  - rewrite (Hfuel 14%nat H3). exact Hr.
Defined.

(** C4 as stated fails for a source that is not registered.  On the
    shipped registry ["vehicles"] declares a relationship whose target is
    ["users"], which is not an entity of the registry: the two are joined
    by an edge of the bidirectional graph and the stated order would
    return the single reversed step, but the search from ["users"] stops
    at the registry lookup and finds nothing. *)
Lemma join_path_unregistered_source :
  get_entity ENTITIES "users" = None
  /\ ("users" ∉ (∅ : gset string))
  /\ declares ENTITIES "vehicles" "users"
  /\ linked ENTITIES "users" "vehicles"
  /\ _find_join_path ENTITIES "users" "vehicles" ∅ = None.
Proof.
  assert (declares ENTITIES "vehicles" "users") as Hdecl.
  { exists vehicles_entity, (mkRelationship "users" "user_id" "user_id" "left").
    split; [apply dict_get_elem; reflexivity|].
    split; [apply list_elem_of_In; simpl; tauto|reflexivity]. }
  split_and!; [reflexivity|apply not_elem_of_empty|exact Hdecl|by right|].
  vm_compute. reflexivity.
Qed.

(* ===================================================================== *)
(** ** Placeholders *)
(* ===================================================================== *)

(** The query text is a concatenation of fragments.  A fragment without
    [$] carries no placeholder; a fragment [$k] carries the placeholder
    [k] provided no digit follows it; and the placeholders of a
    concatenation are those of its parts, in order.  The loops of
    [build_query] keep their fragments in one of these two classes. *)

Lemma app_assoc_s (a b c : string) : (a +:+ b) +:+ c = a +:+ (b +:+ c).
Proof. induction a; simpl; congruence. Qed.

Lemma app_nil_r_s (a : string) : a +:+ EmptyString = a.
Proof. induction a; simpl; congruence. Qed.

Lemma dollar_free_app a b : dollar_free (a +:+ b) = dollar_free a && dollar_free b.
Proof. induction a; simpl; [done|]. rewrite IHa. by rewrite andb_assoc. Qed.

Ltac plain :=
  repeat first [ rewrite dollar_free_app | progress simpl ].

Lemma scan_plain s t : dollar_free s = true -> scan Idle (s +:+ t) = scan Idle t.
Proof.
  induction s as [|c s IH]; simpl; [done|].
  intros [Hc Hs]%andb_true_iff. apply negb_true_iff in Hc. rewrite Hc.
  destruct (digit_value c); simpl; auto.
Qed.

Lemma scan_after_number k t :
  no_digit_start t -> scan (Dollar (Some k)) t = Some k :: scan Idle t.
Proof.
  destruct t as [|c t]; simpl; [done|]. intros Hc. rewrite Hc.
  by destruct (Ascii.eqb c "$").
Qed.

Lemma scan_digits d acc t :
  scan (Dollar (Some acc)) (NilEmpty.string_of_uint d +:+ t)
  = scan (Dollar (Some (Nat.of_uint_acc d acc))) t.
Proof.
  revert acc. induction d; intros acc; simpl; [done|..];
    rewrite IHd; do 4 f_equal; rewrite Nat.tail_mul_spec; lia.
Qed.

Lemma scan_str_nat k t :
  scan (Dollar None) (Py.str_nat k +:+ t) = scan (Dollar (Some k)) t.
Proof.
  unfold Py.str_nat.
  rewrite <- (DecimalNat.Unsigned.of_to k) at 2.
  unfold Nat.of_uint.
  destruct (Nat.to_uint k); simpl; [done|..]; by rewrite scan_digits.
Qed.

Lemma emits_plain s : dollar_free s = true -> emits s [].
Proof. intros H t _. by apply scan_plain. Qed.

Lemma emits_placeholder k : emits ("$" +:+ Py.str_nat k) [Some k].
Proof.
  intros t Ht. simpl. rewrite scan_str_nat. by apply scan_after_number.
Qed.

Lemma no_digit_start_app s t :
  no_digit_start s -> no_digit_start t -> no_digit_start (s +:+ t).
Proof. by destruct s. Qed.

Lemma emits_app s1 l1 s2 l2 :
  emits s1 l1 -> emits s2 l2 -> no_digit_start s2 -> emits (s1 +:+ s2) (l1 ++ l2).
Proof.
  intros H1 H2 Hs t Ht. rewrite app_assoc_s, H1 by by apply no_digit_start_app.
  rewrite H2 by done. by rewrite app_assoc.
Qed.

Lemma emits_app_plain s1 s2 l2 :
  dollar_free s1 = true -> emits s2 l2 -> emits (s1 +:+ s2) l2.
Proof. intros H1 H2 t Ht. rewrite app_assoc_s, scan_plain by done. by apply H2. Qed.

Lemma emits_join sep parts ls :
  separator sep -> Forall2 emits parts ls -> emits (Py.join sep parts) (concat ls).
Proof.
  intros (Hplain & c & sep' & -> & Hc). induction 1 as [|p l parts ls Hp Hrest IH]; simpl.
  - by apply emits_plain.
  - destruct parts as [|q parts].
    + inversion Hrest; subst. simpl. by rewrite app_nil_r.
    + apply emits_app; [done| |done].
      change (String c (?a +:+ ?b)) with (String c a +:+ b).
      by apply emits_app_plain.
Qed.

Lemma dollar_free_join sep parts :
  dollar_free sep = true -> Forall (fun p => dollar_free p = true) parts ->
  dollar_free (Py.join sep parts) = true.
Proof.
  intros Hs. induction 1 as [|p parts Hp _ IH]; simpl; [done|].
  destruct parts; [done|]. rewrite !dollar_free_app, Hp, Hs. simpl in *. by rewrite IH.
Qed.

(** *** Fragments without placeholders *)

Lemma ident_char_not_dollar c : Py.is_ident_char c = true -> Ascii.eqb c "$" = false.
Proof.
  destruct (Ascii.eqb c "$") eqn:E; [|done].
  apply Ascii.eqb_eq in E as ->. done.
Qed.

Lemma match_ident_tail_plain s : Py.match_ident_tail s = true -> dollar_free s = true.
Proof.
  induction s as [|c s IH]; simpl; [done|].
  destruct (Py.is_ident_char c) eqn:Hc.
  - intros ?. rewrite (ident_char_not_dollar c Hc). simpl. auto.
  - intros [Hlf Hs]%andb_true_iff.
    apply Ascii.eqb_eq in Hlf as ->. by apply String.eqb_eq in Hs as ->.
Qed.

Lemma sanitize_plain name s : _sanitize_identifier name = OK s -> dollar_free s = true.
Proof.
  unfold _sanitize_identifier.
  destruct (Py.re_match_identifier name) eqn:E; [|done]. intros [= <-].
  destruct name as [|c name]; [done|]. simpl in *.
  apply andb_true_iff in E as [Hc Ht].
  rewrite ident_char_not_dollar; [by apply match_ident_tail_plain|].
  unfold Py.is_ident_char. by rewrite Hc.
Qed.

Lemma qualified_plain e f a s :
  _get_qualified_field_name e f a = OK s -> dollar_free s = true.
Proof.
  unfold _get_qualified_field_name. intros H.
  inv_bind H as al Hal. inv_bind H as fn Hfn. injection H as <-.
  plain. by rewrite (sanitize_plain _ _ Hal), (sanitize_plain _ _ Hfn).
Qed.

Lemma uint_plain d : dollar_free (NilEmpty.string_of_uint d) = true.
Proof. induction d; simpl; auto. Qed.

Lemma str_int_plain z : dollar_free (Py.str_int z) = true.
Proof.
  unfold Py.str_int, NilZero.string_of_int.
  destruct (Z.to_int z) as [d|d]; unfold NilZero.string_of_uint;
    destruct d; simpl; auto using uint_plain.
Qed.

Lemma use_entity_registry registry used eid :
  used ⊆ registry -> use_entity registry used eid ⊆ registry.
Proof.
  intros Hsub. unfold use_entity.
  destruct (Py.dict_mem eid used); [done|].
  destruct (get_entity registry eid) as [e|] eqn:He; [|done].
  apply dict_get_elem in He. set_solver.
Qed.

Lemma fold_use_entity_registry registry ids used :
  used ⊆ registry -> fold_left (use_entity registry) ids used ⊆ registry.
Proof.
  revert used. induction ids as [|i ids IH]; simpl; [done|].
  intros used H. by apply IH, use_entity_registry.
Qed.

Lemma collect_used_registry registry config primary :
  get_entity registry (primary_entity config) = Some primary ->
  collect_used_entities registry config primary ⊆ registry.
Proof.
  intros Hp. unfold collect_used_entities.
  do 3 apply fold_use_entity_registry.
  apply dict_get_elem in Hp. set_solver.
Qed.

Section Plain.
Variable registry : list (string * Entity).
Variable str_upper : string -> string.
Hypothesis Hplain : registry_plain registry = true.

Lemma registry_plain_entity k e :
  (k, e) ∈ registry ->
  dollar_free k = true /\ forall f, f ∈ fields e -> dollar_free (f_id f) = true.
Proof.
  intros Hin. unfold registry_plain in Hplain.
  rewrite forallb_forall in Hplain.
  apply list_elem_of_In, Hplain, andb_true_iff in Hin as [Hk Hf]. simpl in *.
  split; [done|]. intros f Hfin. rewrite forallb_forall in Hf.
  by apply Hf, list_elem_of_In.
Qed.

Lemma reference_plain used eid e fid f :
  used ⊆ registry -> Py.dict_get eid used = Some e -> find_field e fid = Some f ->
  dollar_free eid = true /\ dollar_free fid = true.
Proof.
  intros Hsub He Hf.
  apply dict_get_elem, Hsub, registry_plain_entity in He as [Hk Hfs].
  apply find_field_elem in Hf as [Hin <-]. auto.
Qed.

Lemma aggregation_plain s agg :
  dollar_free s = true -> dollar_free (_build_aggregation s agg) = true.
Proof. intros H. destruct agg; plain; by rewrite H. Qed.

Lemma all_plain_snoc l s : all_plain l -> dollar_free s = true -> all_plain (l ++ [s]).
Proof. intros. apply Forall_app. split; [done|]. by constructor. Qed.

Lemma select_step_plain used ta has_agg gb st sf st' :
  used ⊆ registry ->
  all_plain st.1 /\ all_plain st.2 ->
  select_step used ta has_agg gb st sf = OK st' ->
  all_plain st'.1 /\ all_plain st'.2.
Proof.
  intros Hsub [H1 H2]. destruct st as [parts groups]. unfold select_step.
  destruct (Py.dict_get (sf_entity_id sf) used) as [e|] eqn:He; [|by intros [= <-]].
  destruct (find_field e (sf_field_id sf)) as [f|] eqn:Hf; [|by intros [= <-]].
  intros H. inv_bind H as tal Htal. inv_bind H as fn Hfn.
  pose proof (qualified_plain _ _ _ _ Hfn) as Hq.
  destruct (reference_plain used _ e _ f Hsub He Hf) as [Hk Hfid].
  destruct (sf_aggregation sf) as [agg|]; injection H as <-; simpl fst; simpl snd.
  - split; [|done]. apply all_plain_snoc; [done|].
    plain. rewrite aggregation_plain, Hk, Hfid by done. by destruct agg.
  - split.
    + apply all_plain_snoc; [done|]. plain. by rewrite Hq, Hk, Hfid.
    + destruct (has_agg && group_by_given gb); [|done].
      destruct (is_in_group_by gb sf); [|done]. by apply all_plain_snoc.
Qed.

Lemma join_step_plain st step st' :
  all_plain st.1 -> join_step registry str_upper st step = OK st' -> all_plain st'.1.
Proof.
  destruct st as [clauses joined]. destruct step as [[[[a b] ff] tf] jt].
  unfold join_step. intros Hst.
  destruct (decide (b ∈ joined)); [by intros [= <-]|].
  destruct (get_entity registry b) as [eb|]; [|by intros [= <-]].
  destruct (get_entity registry a) as [ea|]; [|by intros [= <-]].
  intros H. inv_bind H as x1 H1. inv_bind H as x2 H2. inv_bind H as x3 H3.
  inv_bind H as x4 H4. inv_bind H as x5 H5. injection H as <-. simpl.
  apply all_plain_snoc; [done|].
  plain.
  rewrite (sanitize_plain _ _ H1), (sanitize_plain _ _ H2), (sanitize_plain _ _ H3),
    (sanitize_plain _ _ H4), (sanitize_plain _ _ H5). simpl.
  rewrite !andb_true_r.
  destruct (String.eqb (str_upper jt) "INNER") eqn:E1;
    [by apply String.eqb_eq in E1 as ->|].
  destruct (String.eqb (str_upper jt) "LEFT") eqn:E2;
    [by apply String.eqb_eq in E2 as ->|].
  destruct (String.eqb (str_upper jt) "RIGHT") eqn:E3;
    [by apply String.eqb_eq in E3 as ->|done].
Qed.

Lemma join_entity_plain primary st item st' :
  all_plain st.1 -> join_entity registry str_upper primary st item = OK st' -> all_plain st'.1.
Proof.
  destruct item as [eid e]. unfold join_entity. intros Hst.
  destruct (String.eqb eid primary); [by intros [= <-]|].
  destruct (_find_join_path registry primary eid ∅) as [path|]; [|done].
  apply (for_each_invariant (fun s => all_plain s.1)); [|done].
  intros s x s'. apply join_step_plain.
Qed.

Lemma order_step_plain used ta parts sort parts' :
  all_plain parts -> order_step used ta parts sort = OK parts' -> all_plain parts'.
Proof.
  unfold order_step. intros Hst.
  destruct (Py.dict_get (sc_entity_id sort) used) as [e|]; [|by intros [= <-]].
  destruct (find_field e (sc_field_id sort)) as [f|]; [|by intros [= <-]].
  intros H. inv_bind H as tal Htal. inv_bind H as fn Hfn. injection H as <-.
  apply all_plain_snoc; [done|].
  plain. rewrite (qualified_plain _ _ _ _ Hfn).
  by destruct (String.eqb _ _).
Qed.
End Plain.

(** *** The WHERE clause *)

Section Where.
Variable registry : list (string * Entity).
Variable repr_str : string -> string.

Lemma compare1_spec fn op v params idx cond params' idx' :
  dollar_free fn = true -> dollar_free op = true ->
  compare1 fn op v (params, idx) = (cond, (params', idx')) ->
  params' = params ++ [v] /\ idx' = S idx /\ emits cond [Some idx].
Proof.
  intros Hfn Hop [= <- <- <-]. split_and!; [done..|].
  do 2 (apply emits_app_plain; [done|]). apply emits_placeholder.
Qed.

Lemma param_each_spec vs params idx ps params' idx' :
  param_each vs (params, idx) = (ps, (params', idx')) ->
  params' = params ++ vs /\ idx' = (idx + length vs)%nat
  /\ Forall2 emits ps (map (fun k => [Some k]) (seq idx (length vs))).
Proof.
  revert params idx ps. induction vs as [|v vs IH]; intros params idx ps; simpl.
  - intros [= <- <- <-]. rewrite app_nil_r. split_and!; [done|lia|constructor].
  - destruct (param_each vs (params ++ [v], S idx)) as [ps1 [params1 idx1]] eqn:E.
    intros [= <- <- <-]. apply IH in E as (-> & -> & Hps).
    rewrite <- app_assoc. split_and!; [done|lia|].
    constructor; [apply emits_placeholder|done].
Qed.

Lemma concat_singletons {A B} (f : A -> B) l : concat (map (fun k => [f k]) l) = map f l.
Proof. induction l; simpl; congruence. Qed.

Lemma comma_separator : separator ", ".
Proof. split; [done|]. by eexists _, _. Qed.
Lemma and_separator : separator " AND ".
Proof. split; [done|]. by eexists _, _. Qed.
Lemma line_separator : separator Py.NL.
Proof. split; [done|]. by eexists _, _. Qed.

Lemma in_list_spec fn op vs params idx ps params' idx' :
  dollar_free fn = true -> dollar_free op = true ->
  param_each vs (params, idx) = (ps, (params', idx')) ->
  params' = params ++ vs /\ idx' = (idx + length vs)%nat
  /\ emits (fn +:+ op +:+ Py.join ", " ps +:+ ")") (map Some (seq idx (length vs))).
Proof.
  intros Hfn Hop (-> & -> & Hps)%param_each_spec. split_and!; [done..|].
  do 2 (apply emits_app_plain; [done|]).
  rewrite <- (app_nil_r (map Some _)).
  apply emits_app; [|by apply emits_plain|done].
  rewrite <- concat_singletons. apply emits_join; [apply comma_separator|done].
Qed.

Lemma build_filter_condition_spec e f a flt params idx cond params' idx' :
  _build_filter_condition repr_str e f a flt params idx = OK (cond, (params', idx')) ->
  params' = params ++ filter_values repr_str flt
  /\ idx' = (idx + length (filter_values repr_str flt))%nat
  /\ emits cond (map Some (seq idx (length (filter_values repr_str flt)))).
Proof.
  unfold _build_filter_condition, filter_values. intros H.
  inv_bind H as fn Hfn. apply qualified_plain in Hfn. injection H as H.
  destruct (fc_operator flt);
    try (apply compare1_spec in H as (-> & -> & ?); [split_and!; [done|simpl; lia|done]|done..]).
  - (* BETWEEN *)
    injection H as <- <- <-. rewrite <- app_assoc. split_and!; [done|simpl; lia|].
    apply (emits_app_plain fn); [done|].
    apply (emits_app_plain " BETWEEN "); [done|].
    apply (emits_app ("$" +:+ Py.str_nat idx) [Some idx] _ [Some (S idx)]);
      [apply emits_placeholder| |done].
    apply (emits_app_plain " AND "); [done|]. apply emits_placeholder.
  - (* IN *)
    destruct (fc_value flt);
      try (apply compare1_spec in H as (-> & -> & ?); [split_and!; [done|simpl; lia|done]|done..]).
    destruct (param_each l (params, idx)) as [ps [params1 idx1]] eqn:E.
    injection H as <- <- <-. by apply (in_list_spec fn " IN (" l params idx).
  - (* NOT_IN *)
    destruct (fc_value flt);
      try (apply compare1_spec in H as (-> & -> & ?); [split_and!; [done|simpl; lia|done]|done..]).
    destruct (param_each l (params, idx)) as [ps [params1 idx1]] eqn:E.
    injection H as <- <- <-. by apply (in_list_spec fn " NOT IN (" l params idx).
  - (* IS_NULL *)
    injection H as <- <- <-. rewrite app_nil_r. split_and!; [done|simpl; lia|].
    apply emits_plain. plain. by rewrite Hfn.
  - (* IS_NOT_NULL *)
    injection H as <- <- <-. rewrite app_nil_r. split_and!; [done|simpl; lia|].
    apply emits_plain. plain. by rewrite Hfn.
Qed.

Lemma aligned_snoc conds params cond vs :
  aligned (conds, (params, S (length params))) ->
  emits cond (map Some (seq (S (length params)) (length vs))) ->
  aligned (conds ++ [cond], (params ++ vs, (S (length params) + length vs)%nat)).
Proof.
  intros (ls & Hls & Hcat & _) Hcond. exists (ls ++ [map Some (seq (S (length params)) (length vs))]).
  simpl in *. split_and!.
  - apply Forall2_app; [done|]. by constructor.
  - rewrite concat_app, Hcat. simpl. rewrite app_nil_r, length_app, seq_app, map_app. done.
  - rewrite length_app. lia.
Qed.
End Where.

(** *** Shapes *)

Section Shape.
Variable registry : list (string * Entity).
Variable repr_str : string -> string.
Variable str_upper : string -> string.
Variable fromisoformat : string -> result Datetime.datetime.

Lemma same_shape_refl c : same_shape c c.
Proof.
  unfold same_shape. split_and!; try done.
  - induction (filters c); constructor; [by unfold same_condition_shape|done].
  - by destruct (time_range c); constructor.
Qed.

Lemma param_each_text vs params idx :
  (param_each vs (params, idx)).1
  = map (fun k => "$" +:+ Py.str_nat k) (seq idx (length vs))
  /\ (param_each vs (params, idx)).2.2 = (idx + length vs)%nat.
Proof.
  revert params idx. induction vs as [|v vs IH]; intros params idx; simpl.
  - split; [done|lia].
  - specialize (IH (params ++ [v]) (S idx)).
    destruct (param_each vs (params ++ [v], S idx)) as [ps [params1 idx1]].
    simpl in *. destruct IH as [-> ->]. split; [done|lia].
Qed.

Lemma build_filter_condition_shape e fld a f f' params params' idx r r' :
  same_condition_shape f f' ->
  _build_filter_condition repr_str e fld a f params idx = OK r ->
  _build_filter_condition repr_str e fld a f' params' idx = OK r' ->
  r.1 = r'.1 /\ r.2.2 = r'.2.2.
Proof.
  intros (_ & _ & Hop & Hshape). unfold _build_filter_condition. rewrite <- Hop.
  intros H H'. inv_bind H as fn Hfn. inv_bind H' as fn' Hfn'.
  assert (fn' = fn) as -> by congruence.
  injection H as <-. injection H' as <-.
  destruct (fc_operator f); try done.
  - (* IN *)
    destruct (fc_value f) as [| | | |vs|], (fc_value f') as [| | | |vs'|];
      try done; simpl in Hshape; injection Hshape as Hlen.
    destruct (param_each_text vs params idx) as [H1 H2].
    destruct (param_each_text vs' params' idx) as [H1' H2'].
    destruct (param_each vs _) as [ps [p1 i1]], (param_each vs' _) as [ps' [p1' i1']].
    simpl in *. subst. by rewrite Hlen.
  - (* NOT_IN *)
    destruct (fc_value f) as [| | | |vs|], (fc_value f') as [| | | |vs'|];
      try done; simpl in Hshape; injection Hshape as Hlen.
    destruct (param_each_text vs params idx) as [H1 H2].
    destruct (param_each_text vs' params' idx) as [H1' H2'].
    destruct (param_each vs _) as [ps [p1 i1]], (param_each vs' _) as [ps' [p1' i1']].
    simpl in *. subst. by rewrite Hlen.
Qed.

Lemma where_step_shape used ta st st' f f' s s' :
  same_condition_shape f f' -> same_text st st' ->
  st.2.2 = S (length st.2.1) ->
  where_step repr_str used ta st f = OK s ->
  where_step repr_str used ta st' f' = OK s' ->
  same_text s s' /\ s.2.2 = S (length s.2.1).
Proof.
  intros Hsh (Hc & Hl & Hi) Hidx. pose proof Hsh as (He & Hf & _).
  destruct st as [conds [params idx]], st' as [conds' [params' idx']].
  simpl in *. subst conds' idx' idx.
  unfold where_step. rewrite <- He, <- Hf.
  destruct (Py.dict_get (fc_entity_id f) used) as [e|];
    [|by intros [= <-] [= <-]].
  destruct (find_field e (fc_field_id f)) as [fld|];
    [|by intros [= <-] [= <-]].
  intros H H'. inv_bind H as tal Htal. inv_bind H' as tal' Htal'.
  assert (tal' = tal) as -> by congruence.
  inv_bind H as r Hr. inv_bind H' as r' Hr'.
  destruct (build_filter_condition_shape _ _ _ _ _ _ _ _ _ _ Hsh Hr Hr') as [Ht Hi].
  destruct r as [cond [p1 i1]], r' as [cond' [p1' i1']]. simpl in *. subst.
  apply build_filter_condition_spec in Hr as (-> & Hi1 & _).
  apply build_filter_condition_spec in Hr' as (-> & Hi1' & _).
  injection H as <-. injection H' as <-. unfold same_text. simpl.
  rewrite !length_app in *. rewrite Hl in Hi1. split_and!; [done|lia|done|lia].
Qed.

Lemma where_loop_shape used ta fs fs' st st' s s' :
  Forall2 same_condition_shape fs fs' -> same_text st st' ->
  st.2.2 = S (length st.2.1) ->
  for_each (where_step repr_str used ta) fs st = OK s ->
  for_each (where_step repr_str used ta) fs' st' = OK s' ->
  same_text s s'.
Proof.
  intros Hfs. revert st st'.
  induction Hfs as [|f f' fs fs' Hf _ IH]; simpl; intros st st' Hst Hidx H H'.
  - by simplify_eq.
  - inv_bind H as s1 H1. inv_bind H' as s1' H1'.
    destruct (where_step_shape _ _ _ _ _ _ _ _ Hf Hst Hidx H1 H1') as [Hs1 Hidx1].
    eauto.
Qed.

Lemma time_bound_shape fn op b b' st st' :
  (is_Some b <-> is_Some b') -> same_text st st' ->
  same_text (time_bound fn op b st) (time_bound fn op b' st').
Proof.
  destruct st as [c1 [p1 i1]], st' as [c2 [p2 i2]]. unfold same_text. simpl.
  intros Hb (-> & Hlen & ->).
  destruct b as [t|], b' as [t'|]; simpl.
  - by rewrite !length_app, Hlen.
  - destruct Hb as [Hb _]. by destruct Hb.
  - destruct Hb as [_ Hb]. by destruct Hb.
  - done.
Qed.

Lemma calculate_bounds_present now range r :
  _calculate_time_range fromisoformat now range = OK r ->
  (bool_decide (is_Some r.1), bool_decide (is_Some r.2)) = bounds_present range.
Proof.
  unfold _calculate_time_range, bounds_present, parse_bound.
  destruct (String.eqb (tr_type range) "absolute"); intros H.
  - inv_bind H as s Hs. inv_bind H as e He. injection H as <-. simpl.
    destruct (Py.truthy (start_date range)); [inv_bind Hs as t Ht|];
      injection Hs as <-;
      (destruct (Py.truthy (end_date range)); [inv_bind He as t' Ht'|]);
      injection He as <-; done.
  - inv_bind H as x1 H1. inv_bind H as x2 H2. inv_bind H as x3 H3.
    inv_bind H as x4 H4. inv_bind H as x5 H5. inv_bind H as x6 H6.
    inv_bind H as start Hs. by injection H as <-.
Qed.

Lemma is_Some_decide_iff {A : Type} (o o' : option A) :
  bool_decide (is_Some o) = bool_decide (is_Some o') -> (is_Some o <-> is_Some o').
Proof.
  destruct o, o'; simpl; intros H; try discriminate; split; intros [? ?];
    eauto; discriminate.
Qed.

Lemma time_filter_shape now now' c c' ta st st' ta1 s ta1' s' :
  same_shape c c' -> same_text st st' ->
  time_filter registry fromisoformat now c ta st = OK (ta1, s) ->
  time_filter registry fromisoformat now' c' ta st' = OK (ta1', s') ->
  ta1 = ta1' /\ same_text s s'.
Proof.
  intros (Hp & _ & _ & _ & Hr & Htf & Hte & _) Hst. unfold time_filter.
  rewrite <- Htf, <- Hte, <- Hp.
  destruct Hr as [range range' Hpres|]; [|by intros [= <- <-] [= <- <-]].
  destruct (Py.truthy (time_field c)) as [tf|]; [|by intros [= <- <-] [= <- <-]].
  destruct (get_entity registry _) as [te|]; [|by intros [= <- <-] [= <- <-]].
  destruct (find_field te tf) as [f|]; [|by intros [= <- <-] [= <- <-]].
  intros H H'.
  inv_bind H as r Hcalc. inv_bind H' as r' Hcalc'.
  apply calculate_bounds_present in Hcalc, Hcalc'.
  destruct r as [b1 b2], r' as [b1' b2'].
  inv_bind H as tal Htal. inv_bind H' as tal' Htal'.
  assert (tal' = tal) as -> by congruence.
  inv_bind H as fn Hfn. inv_bind H' as fn' Hfn'.
  assert (fn' = fn) as -> by congruence.
  injection H as <- <-. injection H' as <- <-. split; [done|].
  rewrite <- Hpres in Hcalc'. rewrite <- Hcalc in Hcalc'. simpl in Hcalc'.
  injection Hcalc' as E1 E2.
  apply time_bound_shape; [|apply time_bound_shape; [|done]];
    by apply is_Some_decide_iff.
Qed.

Lemma collect_used_shape c c' primary :
  same_shape c c' ->
  collect_used_entities registry c primary = collect_used_entities registry c' primary.
Proof.
  intros (Hp & Hs & Hf & Hso & _). unfold collect_used_entities.
  rewrite <- Hp, <- Hs, <- Hso. do 2 f_equal.
  induction Hf as [|f f' fs fs' (He & _) _ IH]; simpl; congruence.
Qed.

(** The query text depends on the shape of the configuration only, not on
    the filter values, the time-range values or the clock. *)
Lemma text_depends_on_shape now now' c c' sql params sql' params' :
  same_shape c c' ->
  build_query registry repr_str str_upper fromisoformat now c = OK (sql, params) ->
  build_query registry repr_str str_upper fromisoformat now' c' = OK (sql', params') ->
  sql = sql' /\ length params = length params'.
Proof.
  intros Hshape. pose proof Hshape as (Hp & Hs & Hf & Hso & _ & _ & _ & Hg & Hl).
  unfold build_query, has_aggregation.
  rewrite <- Hp, <- Hs, <- Hso, <- Hg, <- Hl.
  destruct (get_entity registry (primary_entity c)) as [primary|]; [|done].
  rewrite <- (collect_used_shape c c' primary Hshape).
  destruct (for_each _ (selected_fields c) _) as [[parts groups]|]; [|done].
  simpl. destruct parts as [|p parts]; [done|].
  destruct (_sanitize_identifier (schema_name primary)) as [sn|]; [|done].
  destruct (_sanitize_identifier (table_name primary)) as [tn|]; [|done].
  simpl. destruct (for_each _ (collect_used_entities _ _ _) _) as [[joins joined]|]; [|done].
  simpl. intros H H'.
  inv_bind H as wst Hw. inv_bind H' as wst' Hw'.
  assert (same_text wst wst') as Hwst.
  { eapply where_loop_shape; [exact Hf| | |exact Hw|exact Hw']; done. }
  inv_bind H as t Ht. destruct t as [ta1 [c1 [p1 i1]]].
  inv_bind H' as t' Ht'. destruct t' as [ta1' [c1' [p1' i1']]].
  destruct (time_filter_shape _ _ _ _ _ _ _ _ _ _ _ Hshape Hwst Ht Ht')
    as (-> & Hc & Hlen & _).
  simpl in Hc, Hlen. subst c1'.
  inv_bind H as o Ho. inv_bind H' as o' Ho'.
  assert (o' = o) as -> by congruence.
  injection H as <- <-. injection H' as <- <-. done.
Qed.
End Shape.

Section Build.
Variable registry : list (string * Entity).
Variable repr_str : string -> string.
Variable str_upper : string -> string.
Variable fromisoformat : string -> result Datetime.datetime.

Lemma use_entity_lookup used i :
  from_registry registry used ->
  from_registry registry (use_entity registry used i)
  /\ (forall k e, Py.dict_get k used = Some e -> Py.dict_get k (use_entity registry used i) = Some e)
  /\ Py.dict_get i (use_entity registry used i) = get_entity registry i.
Proof.
  intros Hinv. unfold use_entity, Py.dict_mem.
  destruct (Py.dict_get i used) as [e|] eqn:Hi.
  { split_and!; [done|done|]. rewrite Hi. symmetry. by apply Hinv. }
  destruct (get_entity registry i) as [e|] eqn:He; [|done].
  split_and!.
  - intros k e'. rewrite dict_get_snoc.
    destruct (Py.dict_get k used) eqn:Hk; [intros [= <-]; by apply Hinv|].
    destruct (String.eqb i k) eqn:E; [|done].
    apply String.eqb_eq in E as <-. by intros [= <-].
  - intros k e' Hk. by rewrite dict_get_snoc, Hk.
  - by rewrite dict_get_snoc, Hi, String.eqb_refl.
Qed.

Lemma fold_use_entity_lookup ids used :
  from_registry registry used ->
  from_registry registry (fold_left (use_entity registry) ids used)
  /\ (forall k e, Py.dict_get k used = Some e ->
            Py.dict_get k (fold_left (use_entity registry) ids used) = Some e)
  /\ (forall k, k ∈ ids ->
          Py.dict_get k (fold_left (use_entity registry) ids used) = get_entity registry k).
Proof.
  revert used. induction ids as [|i ids IH]; simpl; intros used Hinv.
  { split_and!; [done|done|]. intros k Hk. by apply elem_of_nil in Hk. }
  destruct (use_entity_lookup used i Hinv) as (Hinv1 & Hmono1 & Hi).
  destruct (IH _ Hinv1) as (Hinv' & Hmono' & Hids).
  split_and!; [done|by auto|].
  intros k [->|Hk]%elem_of_cons; [|auto].
  destruct (get_entity registry i) as [e|] eqn:He; [by apply Hmono'|].
  destruct (Py.dict_get i (fold_left _ _ _)) as [e|] eqn:Hd; [|done].
  apply Hinv' in Hd. congruence.
Qed.

Lemma collect_used_lookup config primary k :
  get_entity registry (primary_entity config) = Some primary ->
  k ∈ referenced config ->
  Py.dict_get k (collect_used_entities registry config primary) = get_entity registry k.
Proof.
  intros Hp Hk. unfold collect_used_entities.
  assert (from_registry registry [(primary_entity config, primary)]) as H0.
  { intros k' e. simpl. destruct (String.eqb _ k') eqn:E; [|done].
    apply String.eqb_eq in E as <-. by intros [= <-]. }
  destruct (fold_use_entity_lookup (map sf_entity_id (selected_fields config)) _ H0)
    as (H1 & M1 & L1).
  destruct (fold_use_entity_lookup (map fc_entity_id (filters config)) _ H1)
    as (H2 & M2 & L2).
  destruct (fold_use_entity_lookup (map sc_entity_id (sorting config)) _ H2)
    as (H3 & M3 & L3).
  assert (forall k', is_Some (get_entity registry k') ->
     (k' = primary_entity config
      ∨ k' ∈ map sf_entity_id (selected_fields config)
      ∨ k' ∈ map fc_entity_id (filters config)
      ∨ k' ∈ map sc_entity_id (sorting config)) ->
     Py.dict_get k' (fold_left (use_entity registry) (map sc_entity_id (sorting config))
       (fold_left (use_entity registry) (map fc_entity_id (filters config))
         (fold_left (use_entity registry) (map sf_entity_id (selected_fields config))
            [(primary_entity config, primary)]))) = get_entity registry k') as Hreg.
  { intros k' [e He] [->|[Hin|[Hin|Hin]]].
    - rewrite He. apply M3, M2, M1. simpl. rewrite String.eqb_refl. congruence.
    - rewrite He. apply M3, M2. rewrite L1 by done. done.
    - rewrite He. apply M3. rewrite L2 by done. done.
    - by apply L3. }
  destruct (get_entity registry k) as [e|] eqn:He.
  - rewrite <- He. apply Hreg; [by rewrite He|].
    unfold referenced in Hk. rewrite elem_of_cons, !elem_of_app in Hk. naive_solver.
  - destruct (Py.dict_get k (fold_left _ _ _)) as [e|] eqn:Hd; [|done].
    apply H3 in Hd. congruence.
Qed.

Lemma where_step_aligned used ta st flt st' :
  Py.dict_get (fc_entity_id flt) used = get_entity registry (fc_entity_id flt) ->
  aligned st ->
  where_step repr_str used ta st flt = OK st' ->
  aligned st' /\ st'.2.1 = st.2.1 ++ bound_values registry repr_str flt.
Proof.
  destruct st as [conds [params idx]]. intros Hused Hst. unfold where_step, bound_values, resolve.
  rewrite Hused.
  destruct (get_entity registry (fc_entity_id flt)) as [e|]; simpl;
    [|intros [= <-]; by rewrite app_nil_r].
  destruct (find_field e (fc_field_id flt)) as [f|]; simpl;
    [|intros [= <-]; by rewrite app_nil_r].
  intros H. inv_bind H as tal Htal. inv_bind H as r Hr. destruct r as [cond [params' idx']].
  injection H as <-.
  assert (idx = S (length params)) as -> by (by destruct Hst as (? & ? & ? & ?)).
  apply build_filter_condition_spec in Hr as (-> & -> & Hcond). simpl.
  split; [|done]. by apply aligned_snoc.
Qed.

Lemma where_loop_aligned used ta fs st st' :
  (forall flt, flt ∈ fs ->
     Py.dict_get (fc_entity_id flt) used = get_entity registry (fc_entity_id flt)) ->
  aligned st ->
  for_each (where_step repr_str used ta) fs st = OK st' ->
  aligned st' /\ st'.2.1 = st.2.1 ++ concat (map (bound_values registry repr_str) fs).
Proof.
  revert st. induction fs as [|flt fs IH]; simpl; intros st Hused Hst H.
  - injection H as <-. by rewrite app_nil_r.
  - inv_bind H as st1 H1.
    apply where_step_aligned in H1 as [Hst1 Hp1]; [|apply Hused; left|done].
    apply IH in H as [Hst' Hp']; [|intros; apply Hused; by right|done].
    split; [done|]. by rewrite Hp', Hp1, <- app_assoc.
Qed.

Lemma time_bound_aligned fn op bound st :
  dollar_free fn = true -> dollar_free op = true ->
  aligned st ->
  aligned (time_bound fn op bound st)
  /\ (time_bound fn op bound st).2.1
    = st.2.1 ++ map (fun t => VStr (Datetime.isoformat t)) (option_list bound).
Proof.
  destruct st as [conds [params idx]]. intros Hfn Hop Hst.
  assert (idx = S (length params)) as -> by (by destruct Hst as (? & ? & ? & ?)).
  destruct bound as [t|]; simpl; [|by rewrite app_nil_r].
  split; [|done].
  replace (S (S (length params))) with (S (length params) + length [VStr (Datetime.isoformat t)])%nat
    by (simpl; lia).
  apply aligned_snoc; [done|]. simpl.
  do 2 (apply emits_app_plain; [done|]). apply emits_placeholder.
Qed.

Lemma time_filter_aligned now config ta st ta' st' :
  aligned st ->
  time_filter registry fromisoformat now config ta st = OK (ta', st') ->
  aligned st'
  /\ exists bounds, st'.2.1 = st.2.1 ++ map (fun t => VStr (Datetime.isoformat t)) bounds
              /\ (length bounds ≤ 2)%nat.
Proof.
  intros Hst. unfold time_filter.
  assert (st'.2.1 = st'.2.1 ++ map (fun t => VStr (Datetime.isoformat t)) [] /\ (length (@nil Datetime.datetime) ≤ 2)%nat)
    as Hnone by (simpl; rewrite app_nil_r; split; [done|lia]).
  destruct (time_range config) as [range|]; [|intros [= <- <-]; eauto].
  destruct (Py.truthy (time_field config)) as [tf|]; [|intros [= <- <-]; eauto].
  destruct (get_entity registry _) as [te|]; [|intros [= <- <-]; eauto].
  destruct (find_field te tf) as [f|]; [|intros [= <- <-]; eauto].
  intros H. inv_bind H as r Hr. destruct r as [start_ end_].
  inv_bind H as tal Htal. inv_bind H as fn Hfn. injection H as <- <-.
  apply qualified_plain in Hfn.
  destruct (time_bound_aligned fn " >= " start_ st Hfn eq_refl Hst) as [H1 E1].
  destruct (time_bound_aligned fn " <= " end_ _ Hfn eq_refl H1) as [H2 E2].
  split; [done|]. exists (option_list start_ ++ option_list end_).
  rewrite E2, E1, <- app_assoc, map_app. split; [done|].
  rewrite length_app. destruct start_, end_; simpl; lia.
Qed.

Lemma all_plain_emits l : all_plain l -> Forall2 emits l (map (fun _ => []) l).
Proof. induction 1; simpl; constructor; [by apply emits_plain|done]. Qed.

Lemma concat_nils {A B} (l : list A) : concat (map (fun _ => @nil B) l) = [].
Proof. by induction l. Qed.

Lemma clause_plain keyword sep parts :
  dollar_free keyword = true -> dollar_free sep = true -> all_plain parts ->
  all_plain (clause keyword sep parts).
Proof.
  intros Hk Hs Hp. unfold clause. destruct parts as [|p parts]; [constructor|].
  constructor; [|constructor]. rewrite dollar_free_app, Hk. by apply dollar_free_join.
Qed.

Lemma where_clause_emits conds ls :
  Forall2 emits conds ls ->
  exists ls', Forall2 emits (clause "WHERE " " AND " conds) ls' /\ concat ls' = concat ls.
Proof.
  intros H. unfold clause. destruct H as [|c l conds ls Hc Hrest].
  - exists []. split; [constructor|done].
  - exists [concat (l :: ls)]. split; [|simpl; by rewrite app_nil_r].
    constructor; [|constructor]. apply emits_app_plain; [done|].
    apply emits_join; [apply and_separator|by constructor].
Qed.

Lemma assemble_placeholders select_parts from_clause joins conds groups orders lim ls :
  all_plain select_parts -> dollar_free from_clause = true -> all_plain joins ->
  Forall2 emits conds ls -> all_plain groups -> all_plain orders ->
  placeholders (assemble select_parts from_clause joins conds groups orders lim)
  = concat ls.
Proof.
  intros Hsel Hfrom Hjoins Hconds Hgroups Horders.
  destruct (where_clause_emits conds ls Hconds) as (ls' & Hwhere & <-).
  unfold placeholders, assemble.
  set (head := ["SELECT " +:+ Py.join ", " select_parts; "FROM " +:+ from_clause]).
  set (tail := clause "GROUP BY " ", " groups ++ clause "ORDER BY " ", " orders
               ++ ["LIMIT " +:+ Py.str_int (lim `min` 10000)]).
  assert (all_plain head) as Hhead.
  { repeat constructor.
    - rewrite dollar_free_app. simpl. by apply dollar_free_join.
    - by rewrite dollar_free_app, Hfrom. }
  assert (all_plain tail) as Htail.
  { apply Forall_app; split; [by apply clause_plain|].
    apply Forall_app; split; [by apply clause_plain|].
    repeat constructor. by rewrite dollar_free_app, str_int_plain. }
  assert (Forall2 emits (head ++ joins ++ clause "WHERE " " AND " conds ++ tail)
            (map (fun _ => []) head ++ map (fun _ => []) joins ++ ls' ++ map (fun _ => []) tail))
    as Hall.
  { repeat apply Forall2_app; auto using all_plain_emits. }
  pose proof (emits_join Py.NL _ _ line_separator Hall EmptyString I) as Hscan.
  rewrite app_nil_r_s in Hscan. simpl in Hscan.
  rewrite !concat_app, !concat_nils in Hscan. simpl in Hscan.
  rewrite !app_nil_r in Hscan. exact Hscan.
Qed.

(** The alignment of placeholders and parameters, for any registry whose
    ids hold no [$] (the ids of a resolved reference are copied into the
    SELECT aliases as they are). *)
Lemma alignment_over_registry now config sql params :
  registry_plain registry = true ->
  build_query registry repr_str str_upper fromisoformat now config = OK (sql, params) ->
  placeholders sql = map Some (seq 1 (length params))
  /\ (exists bounds,
        params = concat (map (bound_values registry repr_str) (filters config))
                 ++ map (fun t => VStr (Datetime.isoformat t)) bounds
        /\ (length bounds <= 2)%nat)
  /\ (forall now' config' sql' params',
        same_shape config config' ->
        build_query registry repr_str str_upper fromisoformat now' config' = OK (sql', params') ->
        sql' = sql).
Proof.
  intros Hplain Hbuild.
  assert (forall now' config' sql' params',
            same_shape config config' ->
            build_query registry repr_str str_upper fromisoformat now' config' = OK (sql', params') ->
            sql' = sql) as Hshape.
  { intros now' config' sql' params' Hsame Hbuild'.
    symmetry.
    exact (proj1 (text_depends_on_shape registry repr_str str_upper fromisoformat now now'
                    config config' sql params sql' params' Hsame Hbuild Hbuild')). }
  revert Hbuild. unfold build_query.
  destruct (get_entity registry (primary_entity config)) as [primary|] eqn:Hp; [|done].
  pose proof (collect_used_registry registry config primary Hp) as Hsub.
  set (used := collect_used_entities registry config primary) in *.
  set (ta := map _ used).
  intros H. inv_bind H as sel Hsel. destruct sel as [select_parts groups].
  apply (for_each_invariant (fun s => all_plain s.1 /\ all_plain s.2)) in Hsel;
    [|intros s x s' ? ?; by eapply select_step_plain|by split; constructor].
  destruct Hsel as [Hparts Hgroups]. simpl in Hparts, Hgroups.
  destruct select_parts as [|p parts]; [done|].
  inv_bind H as sn Hsn. inv_bind H as tn Htn.
  inv_bind H as js Hjs. destruct js as [joins joined].
  apply (for_each_invariant (fun s => all_plain s.1)) in Hjs;
    [|intros s x s' ? ?; by eapply join_entity_plain|constructor].
  inv_bind H as wst Hwst.
  apply where_loop_aligned in Hwst as [Hal Hps].
  2:{ intros flt Hflt. apply collect_used_lookup; [done|].
      unfold referenced. rewrite elem_of_cons, !elem_of_app. right. right. left.
      apply list_elem_of_fmap. by exists flt. }
  2:{ exists []. split_and!; [constructor|done|done]. }
  inv_bind H as tst Htst. destruct tst as [ta' [conds [ps idx]]].
  apply time_filter_aligned in Htst as [Hal' (bounds & Hps' & Hlen)]; [|done].
  inv_bind H as orders Hord.
  apply (for_each_invariant all_plain) in Hord;
    [|intros s x s' ? ?; by eapply order_step_plain|constructor].
  injection H as <- <-.
  destruct Hal' as (ls & Hls & Hcat & _). simpl in *.
  split_and!; [| |exact Hshape].
  - rewrite <- Hcat. apply assemble_placeholders; try done.
    plain. by rewrite (sanitize_plain _ _ Hsn), (sanitize_plain _ _ Htn).
  - exists bounds. by rewrite Hps', Hps.
Qed.
End Build.

Lemma shipped_registry_plain : registry_plain ENTITIES = true.
Proof. vm_compute. reflexivity. Qed.

Lemma build_fleet :
  build_query ENTITIES sample_repr sample_upper sample_fromisoformat sample_now config_fleet
  = OK (fleet_sql, fleet_params).
Proof. vm_compute. reflexivity. Qed.

(** The bounds of an absolute range are bound as [datetime.fromisoformat]
    read them: the first, given with a UTC offset, keeps it in its ISO
    string; the second, given with one digit of a second, is written with
    six. *)
Lemma absolute_bounds_bound :
  build_query ENTITIES sample_repr sample_upper sample_fromisoformat sample_now config_january
  = OK (january_sql, [VStr "2024-01-01T00:00:00+02:00"; VStr "2024-01-31T23:59:59.500000"])
  /\ placeholders january_sql = [Some 1%nat; Some 2%nat].
Proof. split; vm_compute; reflexivity. Qed.

(* ===================================================================== *)
(** ** The clock *)
(* ===================================================================== *)

Section Clock.
Variable registry : list (string * Entity).
Variable repr_str : string -> string.
Variable str_upper : string -> string.
Variable fromisoformat : string -> result Datetime.datetime.

Lemma calculate_absolute_clock now1 now2 tr :
  tr_type tr = "absolute" ->
  _calculate_time_range fromisoformat now1 tr = _calculate_time_range fromisoformat now2 tr.
Proof. intros H. unfold _calculate_time_range. by rewrite H. Qed.

Lemma time_filter_absolute now1 now2 config ta st :
  (forall tr, time_range config = Some tr -> tr_type tr = "absolute") ->
  time_filter registry fromisoformat now1 config ta st
  = time_filter registry fromisoformat now2 config ta st.
Proof.
  intros Habs. unfold time_filter.
  destruct (time_range config) as [range|]; [|done].
  destruct (Py.truthy (time_field config)) as [tf|]; [|done].
  destruct (get_entity registry _) as [te|]; [|done].
  destruct (find_field te tf) as [f|]; [|done].
  by rewrite (calculate_absolute_clock now1 now2 range (Habs range eq_refl)).
Qed.

(** C7, as amended.  For a fixed registry, two invocations of
    [build_query] with the same configuration that both succeed, at
    whatever clock readings, return byte-identical query text and
    parameter arrays of the same length; and when the configuration has no
    time range, or an absolute one, the two invocations return the same
    result, parameters and errors included. *)
Theorem build_query_clock now1 now2 config :
  (forall sql1 params1 sql2 params2,
     build_query registry repr_str str_upper fromisoformat now1 config = OK (sql1, params1) ->
     build_query registry repr_str str_upper fromisoformat now2 config = OK (sql2, params2) ->
     sql1 = sql2 /\ length params1 = length params2)
  /\ ((forall tr, time_range config = Some tr -> tr_type tr = "absolute") ->
      build_query registry repr_str str_upper fromisoformat now1 config
      = build_query registry repr_str str_upper fromisoformat now2 config).
Proof.
  split.
  - intros sql1 params1 sql2 params2.
    apply text_depends_on_shape, same_shape_refl.
  - intros Habs. unfold build_query.
    destruct (get_entity registry (primary_entity config)) as [primary|]; [|done].
    apply bind_ext. intros [parts groups]. destruct parts as [|p parts]; [done|].
    do 2 (apply bind_ext; intros ?).
    apply bind_ext. intros [joins joined]. apply bind_ext. intros wst.
    by rewrite (time_filter_absolute now1 now2 config _ _ Habs).
Qed.
End Clock.

Lemma build_last_week :
  build_query ENTITIES sample_repr sample_upper sample_fromisoformat sample_now config_last_week
  = OK (last_week_sql,
        [VStr "2024-02-22T13:05:09.000120"; VStr "2024-02-29T13:05:09.000120"]).
Proof. vm_compute. reflexivity. Qed.

Lemma build_last_week_later :
  build_query ENTITIES sample_repr sample_upper sample_fromisoformat sample_later config_last_week
  = OK (last_week_sql,
        [VStr "2024-02-23T13:05:09.000120"; VStr "2024-03-01T13:05:09.000120"]).
Proof. vm_compute. reflexivity. Qed.

Lemma build_query_clock_witness :
  build_query ENTITIES sample_repr sample_upper sample_fromisoformat sample_now config_last_week
  = OK (last_week_sql,
        [VStr "2024-02-22T13:05:09.000120"; VStr "2024-02-29T13:05:09.000120"])
  /\ build_query ENTITIES sample_repr sample_upper sample_fromisoformat sample_later config_last_week
     = OK (last_week_sql,
           [VStr "2024-02-23T13:05:09.000120"; VStr "2024-03-01T13:05:09.000120"])
  /\ last_week_sql = last_week_sql
  /\ length [VStr "2024-02-22T13:05:09.000120"; VStr "2024-02-29T13:05:09.000120"]
     = length [VStr "2024-02-23T13:05:09.000120"; VStr "2024-03-01T13:05:09.000120"].
Proof.
  refine (conj build_last_week (conj build_last_week_later _)).
  exact (proj1 (build_query_clock ENTITIES sample_repr sample_upper sample_fromisoformat
                  sample_now sample_later config_last_week)
           _ _ _ _ build_last_week build_last_week_later).
Defined.

(** C7 as stated fails for a relative time range: the same configuration
    compiled at two clock readings yields the same text but different
    parameter arrays, because the two bounds are computed from the clock. *)
Lemma relative_range_parameters_differ :
  (exists sql params1 params2,
     build_query ENTITIES sample_repr sample_upper sample_fromisoformat sample_now config_last_week
     = OK (sql, params1)
     /\ build_query ENTITIES sample_repr sample_upper sample_fromisoformat sample_later config_last_week
        = OK (sql, params2)
     /\ params1 <> params2).
Proof.
  eexists _, _, _. split_and!; [exact build_last_week|exact build_last_week_later|].
  discriminate.
Qed.

(* ===================================================================== *)
(** ** References that do not resolve *)
(* ===================================================================== *)

Section References.
Variable registry : list (string * Entity).
Variable repr_str : string -> string.
Variable str_upper : string -> string.
Variable fromisoformat : string -> result Datetime.datetime.

Lemma collect_used_from_registry config primary :
  get_entity registry (primary_entity config) = Some primary ->
  from_registry registry (collect_used_entities registry config primary).
Proof.
  intros Hp. unfold collect_used_entities.
  do 3 apply fold_use_entity_lookup.
  intros k e. simpl. destruct (String.eqb _ k) eqn:E; [|done].
  apply String.eqb_eq in E as <-. by intros [= <-].
Qed.

Lemma lookup_resolve config primary k fid :
  get_entity registry (primary_entity config) = Some primary ->
  k ∈ referenced config ->
  lookup (collect_used_entities registry config primary) k fid = resolve registry k fid.
Proof.
  intros Hp Hk. unfold lookup, resolve. by rewrite (collect_used_lookup registry config primary k).
Qed.

Lemma select_step_skip used ta has_agg gb st sf :
  lookup used (sf_entity_id sf) (sf_field_id sf) = None ->
  select_step used ta has_agg gb st sf = OK st.
Proof.
  unfold lookup, select_step. destruct st as [parts groups].
  destruct (Py.dict_get (sf_entity_id sf) used) as [e|]; simpl; [|done].
  by destruct (find_field e (sf_field_id sf)).
Qed.

Lemma where_step_skip used ta st flt :
  lookup used (fc_entity_id flt) (fc_field_id flt) = None ->
  where_step repr_str used ta st flt = OK st.
Proof.
  unfold lookup, where_step. destruct st as [conds [params idx]].
  destruct (Py.dict_get (fc_entity_id flt) used) as [e|]; simpl; [|done].
  by destruct (find_field e (fc_field_id flt)).
Qed.

Lemma order_step_skip used ta parts sort :
  lookup used (sc_entity_id sort) (sc_field_id sort) = None ->
  order_step used ta parts sort = OK parts.
Proof.
  unfold lookup, order_step.
  destruct (Py.dict_get (sc_entity_id sort) used) as [e|]; simpl; [|done].
  by destruct (find_field e (sc_field_id sort)).
Qed.

Lemma select_loop_skip used ta has_agg gb st l :
  (forall sf, sf ∈ l -> lookup used (sf_entity_id sf) (sf_field_id sf) = None) ->
  for_each (select_step used ta has_agg gb) l st = OK st.
Proof.
  induction l as [|sf l IH]; simpl; intros H; [done|].
  rewrite select_step_skip by (apply H; left). simpl. apply IH. intros; apply H. by right.
Qed.

End References.

(** C3 as stated fails: a configuration with a selected field, a filter
    and a sort spec that do not resolve is compiled all the same, from the
    one selected field that does resolve; the others leave no trace. *)
Lemma dangling_references_accepted :
  resolve ENTITIES "objects" "no_such_field" = None
  /\ resolve ENTITIES "ghosts" "name" = None
  /\ plain_field "objects" "no_such_field" ∈ selected_fields config_dangling
  /\ condition "ghosts" "name" EQUALS (VInt 1) VNone ∈ filters config_dangling
  /\ build_query ENTITIES sample_repr sample_upper sample_fromisoformat sample_now config_dangling
     = OK (dangling_sql, []).
Proof.
  split_and!; [reflexivity|reflexivity| | |vm_compute; reflexivity].
  - apply list_elem_of_In. simpl. tauto.
  - apply list_elem_of_In. simpl. tauto.
Qed.

(* ===================================================================== *)
(** ** Grouping *)
(* ===================================================================== *)

Section Grouping.
Variable registry : list (string * Entity).
Variable repr_str : string -> string.
Variable str_upper : string -> string.
Variable fromisoformat : string -> result Datetime.datetime.

Lemma in_group_by_given gb sf : is_in_group_by gb sf = true -> group_by_given gb = true.
Proof. unfold is_in_group_by. by destruct gb as [[|g gs]|]. Qed.

Lemma select_step_groups config used ta st sf st' :
  Py.dict_get (sf_entity_id sf) used = get_entity registry (sf_entity_id sf) ->
  ta = map (fun item : string * Entity => (item.1, table_name item.2)) used ->
  select_step used ta true (group_by config) st sf = OK st' ->
  st'.2 = st.2 ++ (if grouped registry config sf then [group_term registry sf] else []).
Proof.
  intros Hused ->. destruct st as [parts groups]. unfold select_step, grouped, group_term, resolve.
  rewrite Hused.
  destruct (get_entity registry (sf_entity_id sf)) as [e|]; simpl;
    [|intros [= <-]; rewrite andb_false_r; simpl; by rewrite app_nil_r].
  destruct (find_field e (sf_field_id sf)) as [f|]; simpl;
    [|intros [= <-]; rewrite andb_false_r; simpl; by rewrite app_nil_r].
  unfold Py.dict_item. rewrite dict_get_map, Hused. simpl.
  intros H. inv_bind H as fn Hfn.
  assert (fn = table_name e +:+ "." +:+ f_name f) as ->.
  { unfold _get_qualified_field_name in Hfn.
    inv_bind Hfn as a Ha. inv_bind Hfn as b Hb. injection Hfn as <-.
    by rewrite (sanitize_identifier_same _ _ Ha), (sanitize_identifier_same _ _ Hb). }
  rewrite andb_true_r.
  destruct (sf_aggregation sf) as [agg|]; injection H as <-; simpl.
  - by rewrite app_nil_r.
  - destruct (is_in_group_by (group_by config) sf) eqn:Hin; simpl.
    + by rewrite (in_group_by_given _ _ Hin).
    + rewrite app_nil_r. by destruct (group_by_given _).
Qed.

Lemma select_loop_groups config used ta l st st' :
  (forall sf, sf ∈ l ->
     Py.dict_get (sf_entity_id sf) used = get_entity registry (sf_entity_id sf)) ->
  ta = map (fun item : string * Entity => (item.1, table_name item.2)) used ->
  for_each (select_step used ta true (group_by config)) l st = OK st' ->
  st'.2 = st.2 ++ map (group_term registry) (List.filter (grouped registry config) l).
Proof.
  intros Hused Hta. revert st. induction l as [|sf l IH]; simpl; intros st H.
  - injection H as <-. by rewrite app_nil_r.
  - inv_bind H as st1 H1.
    apply (select_step_groups config) in H1; [|apply Hused; left|done].
    apply IH in H; [|intros; apply Hused; by right].
    rewrite H, H1, <- app_assoc. by destruct (grouped registry config sf).
Qed.

Lemma not_grouped_without_list config sf :
  group_by config = None \/ group_by config = Some [] ->
  grouped registry config sf = false.
Proof.
  intros H. unfold grouped, is_in_group_by.
  destruct H as [-> | ->]; simpl; by rewrite andb_false_r.
Qed.

End Grouping.

Lemma build_grouped :
  build_query ENTITIES sample_repr sample_upper sample_fromisoformat sample_now config_grouped
  = OK (grouped_sql, []).
Proof. vm_compute. reflexivity. Qed.

(** C6 as stated fails for a selected field that does not resolve: it
    carries no aggregation and the explicit group-by list has an entry
    with its entity id and field id, yet it contributes no GROUP BY term,
    since it is not part of the query at all. *)
Lemma group_by_dangling_field :
  has_aggregation config_group_dangling = true
  /\ plain_field "vehicles" "no_such_field" ∈ selected_fields config_group_dangling
  /\ sf_aggregation (plain_field "vehicles" "no_such_field") = None
  /\ is_in_group_by (group_by config_group_dangling)
       (plain_field "vehicles" "no_such_field") = true
  /\ build_query ENTITIES sample_repr sample_upper sample_fromisoformat sample_now config_group_dangling
     = OK (group_dangling_sql, []).
Proof.
  split_and!; [reflexivity| |reflexivity|reflexivity|vm_compute; reflexivity].
  apply list_elem_of_In. simpl. tauto.
Qed.

(* ===================================================================== *)
(** ** The time scope *)
(* ===================================================================== *)

(** C8, at the input on which the code departs from it.  The time range is
    scoped to [tracking_data_core], which is not the primary entity and is
    referenced by nothing else.  A join path from the primary entity
    exists, but the entity is never added to [used_entities]: the text has
    no JOIN clause, and its two time-bound predicates name a table that is
    not part of the query. *)
Theorem time_scope_entity_not_joined :
  _find_join_path ENTITIES "objects" "tracking_data_core" ∅
  = Some [("objects", "devices", "device_id", "device_id", "left");
          ("devices", "tracking_data_core", "device_id", "device_id", "inner")]
  /\ build_query ENTITIES sample_repr sample_upper sample_fromisoformat sample_now
       config_foreign_time_scope
     = OK (foreign_time_scope_sql,
           [VStr "2024-02-22T13:05:09.000120"; VStr "2024-02-29T13:05:09.000120"]).
Proof. split; vm_compute; reflexivity. Qed.

(* ===================================================================== *)
(** ** The preview *)
(* ===================================================================== *)

(** C9, at the input on which the code departs from it.  With ten
    parameters the replacement of [$1] also rewrites the first two
    characters of [$10]: the tenth placeholder is filled with the first
    parameter followed by a [0], not with the tenth parameter. *)
Theorem preview_ten_parameters :
  build_query ENTITIES sample_repr sample_upper sample_fromisoformat sample_now config_ten_values
  = OK (ten_values_sql, ten_values)
  /\ generate_preview_sql ENTITIES sample_repr sample_upper sample_fromisoformat sample_now
       config_ten_values
     = OK ten_values_actual_preview
  /\ ten_values_actual_preview <> ten_values_expected_preview.
Proof. split_and!; [vm_compute; reflexivity..|discriminate]. Qed.

(** The same replacement loop also rewrites a placeholder-like text inside
    a value it has just inserted. *)
Lemma preview_rewrites_inserted_value :
  build_query ENTITIES sample_repr sample_upper sample_fromisoformat sample_now config_dollar_value
  = OK (Py.join Py.NL
          ["SELECT objects.object_id AS objects_object_id";
           "FROM raw_business_data.objects";
           "WHERE objects.object_label = $1 AND objects.model = $2";
           "LIMIT 1000"],
        [VStr "$2"; VStr "x"])
  /\ generate_preview_sql ENTITIES sample_repr sample_upper sample_fromisoformat sample_now
       config_dollar_value
     = OK (Py.join Py.NL
             ["SELECT objects.object_id AS objects_object_id";
              "FROM raw_business_data.objects";
              "WHERE objects.object_label = ''x'' AND objects.model = 'x'";
              "LIMIT 1000"]).
Proof. split; vm_compute; reflexivity. Qed.

(* ===================================================================== *)
(** ** Ranges that overflow *)
(* ===================================================================== *)

Lemma unit_delta_selected count unit delta hours days weeks months years fallback :
  unit_delta count unit delta ->
  hours = count * Datetime.US_PER_HOUR -> days = count * Datetime.US_PER_DAY ->
  weeks = count * 7 * Datetime.US_PER_DAY -> months = count * 30 * Datetime.US_PER_DAY ->
  years = count * 365 * Datetime.US_PER_DAY -> fallback = 7 * Datetime.US_PER_DAY ->
  (if String.eqb (default "days" (Py.truthy unit)) "hours" then hours
   else if String.eqb (default "days" (Py.truthy unit)) "days" then days
   else if String.eqb (default "days" (Py.truthy unit)) "weeks" then weeks
   else if String.eqb (default "days" (Py.truthy unit)) "months" then months
   else if String.eqb (default "days" (Py.truthy unit)) "years" then years
   else fallback) = delta.
Proof.
  intros Hdelta -> -> -> -> -> ->.
  destruct Hdelta as [| | | | | | |u Hu]; try reflexivity.
  rewrite !elem_of_cons, elem_of_nil in Hu.
  assert (Py.truthy (Some u) = Some u) as ->.
  { destruct u; [|done]. naive_solver. }
  simpl default.
  repeat match goal with
         | |- context [String.eqb u ?s] =>
             let E := fresh in
             destruct (String.eqb u s) eqn:E;
             [apply String.eqb_eq in E; naive_solver|]
         end.
  done.
Qed.

(** X2.  A relative time range whose start would fall outside the years 1
    to 9999, or whose count exceeds [MAX_RELATIVE_COUNT] in magnitude, is
    not clamped: the resolver raises [OverflowError]. *)
Theorem relative_range_overflow fromisoformat now tr delta :
  tr_type tr <> "absolute" ->
  unit_delta (default 0 (relative_value tr)) (relative_unit tr) delta ->
  MAX_RELATIVE_COUNT < Z.abs (default 0 (relative_value tr))
  \/ Datetime.in_range (now - delta) = false ->
  _calculate_time_range fromisoformat now tr = Raise OverflowError.
Proof.
  intros Hrel Hdelta [Hcount|Hrange]; [by apply relative_count_overflow|].
  unfold _calculate_time_range.
  apply String.eqb_neq in Hrel. rewrite Hrel.
  set (count := default 0 (relative_value tr)) in *.
  unfold Datetime.timedelta_hours, Datetime.timedelta_days, Datetime.timedelta_weeks.
  destruct (mk_timedelta_cases (count * Datetime.US_PER_HOUR)) as [-> | ->]; [|done].
  destruct (mk_timedelta_cases (count * Datetime.US_PER_DAY)) as [-> | ->]; [|done].
  destruct (mk_timedelta_cases (count * 7 * Datetime.US_PER_DAY)) as [-> | ->]; [|done].
  destruct (mk_timedelta_cases (count * 30 * Datetime.US_PER_DAY)) as [-> | ->]; [|done].
  destruct (mk_timedelta_cases (count * 365 * Datetime.US_PER_DAY)) as [-> | ->]; [|done].
  destruct (mk_timedelta_cases (7 * Datetime.US_PER_DAY)) as [-> | ->]; [|done].
  simpl.
  match goal with
  | |- Datetime.sub now ?d ≫= _ = _ =>
      assert (d = delta) as -> by (by eapply unit_delta_selected)
  end.
  unfold Datetime.sub. by rewrite Hrange.
Qed.

Lemma relative_range_overflow_witness :
  tr_type (last_days 800000) <> "absolute"
  /\ unit_delta (default 0 (relative_value (last_days 800000)))
       (relative_unit (last_days 800000)) (800000 * Datetime.US_PER_DAY)
  /\ Datetime.in_range (sample_now - 800000 * Datetime.US_PER_DAY) = false
  /\ _calculate_time_range sample_fromisoformat sample_now (last_days 800000)
     = Raise OverflowError.
Proof.
  assert (tr_type (last_days 800000) <> "absolute") as H1 by (simpl; discriminate).
  assert (unit_delta (default 0 (relative_value (last_days 800000)))
            (relative_unit (last_days 800000)) (800000 * Datetime.US_PER_DAY)) as H2
    by (simpl; apply delta_days).
  assert (Datetime.in_range (sample_now - 800000 * Datetime.US_PER_DAY) = false) as H3
    by reflexivity.
  refine (conj H1 (conj H2 (conj H3 _))).
  exact (relative_range_overflow sample_fromisoformat sample_now (last_days 800000)
           (800000 * Datetime.US_PER_DAY) H1 H2 (or_intror H3)).
Defined.

(* ===================================================================== *)
(** ** Join paths are simple paths *)
(* ===================================================================== *)

(** What the search returns is read off the bounded run: by induction on
    the bound, a found path is a chain of licensed steps that leaves no
    entity twice.  With the completeness of the search this gives the
    criterion for a path to exist, and its symmetry. *)
Section JoinPathSound.
Variable registry : list (string * Entity).

Lemma first_found_Found {A} (f : A -> search) l path :
  first_found f l = Found path -> exists x, x ∈ l /\ f x = Found path.
Proof.
  induction l as [|x l IH]; simpl; [done|].
  destruct (f x) eqn:E; try done.
  - intros [= <-]. exists x. split; [left|done].
  - intros (y & ? & ?)%IH. exists y. split; [by right|done].
Qed.

Lemma prepend_Found step r path :
  prepend step r = Found path -> exists sub, r = Found sub /\ path = step :: sub.
Proof. destruct r; simpl; try done. intros [= <-]. eauto. Qed.

(** What a bounded run returns is a simple path. *)
Lemma find_fuel_sound fuel a c visited path :
  find_join_path_fuel registry fuel a c visited = Found path ->
  chain registry a path c
  /\ NoDup (map step_from path ++ [c])
  /\ (forall x, x ∈ map step_from path -> x ∉ visited).
Proof.
  revert a visited path. induction fuel as [|fuel IH]; intros a visited path; simpl; [done|].
  destruct (String.eqb a c) eqn:Hac.
  { apply String.eqb_eq in Hac as ->. intros [= <-]. simpl.
    split_and!; [constructor|apply NoDup_singleton|]. intros x Hx. by apply elem_of_nil in Hx. }
  apply String.eqb_neq in Hac.
  destruct (decide (a ∈ visited)) as [|Hnew]; [done|].
  assert (forall step, step_from step = a -> step_to step = c ->
            NoDup (map step_from [step] ++ [c])
            /\ (forall x, x ∈ map step_from [step] -> x ∉ visited)) as Hsingle.
  { intros step Hf Ht. simpl. rewrite Hf. split.
    - apply NoDup_cons. split; [|apply NoDup_singleton]. by intros ->%list_elem_of_singleton.
    - by intros x ->%list_elem_of_singleton. }
  assert (forall step sub,
            step_from step = a -> registered registry a -> step_declared registry step ->
            find_join_path_fuel registry fuel (step_to step) c ({[a]} ∪ visited) = Found sub ->
            chain registry a (step :: sub) c
            /\ NoDup (map step_from (step :: sub) ++ [c])
            /\ (forall x, x ∈ map step_from (step :: sub) -> x ∉ visited)) as Hmulti.
  { intros step sub Hf Hreg Hdecl (Hchain & Hnd & Hvis)%IH. simpl. rewrite Hf. split_and!.
    - by constructor.
    - apply NoDup_cons. split; [|done].
      rewrite elem_of_app, list_elem_of_singleton. intros [Hin| ->]; [|done].
      apply Hvis in Hin. set_solver.
    - intros x [->|Hin]%elem_of_cons; [done|]. apply Hvis in Hin. set_solver. }
  unfold find_join_path_body.
  destruct (get_entity registry a) as [e|] eqn:He; [|done].
  assert (registered registry a) as Hreg by (by exists e).
  destruct (direct_forward a c e) as [p|] eqn:Hdf.
  { intros [= <-]. apply direct_forward_Some in Hdf as (rel & Hrel & Ht & ->).
    split; [|by apply Hsingle].
    constructor; [done|done| |constructor].
    left. by exists e, rel. }
  destruct (direct_reverse registry a c _) as [p|] eqn:Hdr.
  { intros [= <-]. apply direct_reverse_Some in Hdr as (_ & e' & rel & Hin & Hrel & Ht & ->).
    split; [|by apply Hsingle].
    constructor; [done|done| |constructor].
    right. by exists e', rel. }
  destruct (multi_hop_forward _ a e _) as [|p|] eqn:Hf; [done| |].
  { intros [= <-]. apply first_found_Found in Hf as (rel & Hrel & Hbody).
    destruct (decide (target_entity rel ∈ _)); [done|].
    apply prepend_Found in Hbody as (sub & Hsub & ->).
    apply Hmulti; [done|done| |done].
    left. by exists e, rel. }
  intros Hr. apply first_found_Found in Hr as ([k e'] & Hin & Hbody).
  destruct (decide (k ∈ _)); [done|].
  apply first_found_Found in Hbody as (rel & Hrel & Hbody).
  destruct (String.eqb (target_entity rel) a) eqn:Ht; [|done].
  apply String.eqb_eq in Ht.
  apply prepend_Found in Hbody as (sub & Hsub & ->).
  apply Hmulti; [done|done| |done].
  right. by exists e', rel.
Qed.

Lemma chain_connected a path c : chain registry a path c -> connected registry a c.
Proof.
  induction 1 as [a|a step path c Hf Hreg Hdecl _ IH]; [constructor|].
  apply (connected_step registry a (step_to step)); [done| |done].
  destruct step as [[[[a' b] ff] tf] jt]. unfold step_from, step_to in *. simpl in *. subst a'.
  destruct Hdecl as [(e & rel & He & Hrel & Ht & _)|(e & rel & Hin & Hrel & Ht & _)].
  - left. exists e, rel. split_and!; [by apply dict_get_elem|done..].
  - right. by exists e, rel.
Qed.

Lemma find_join_path_sound a c visited path :
  _find_join_path registry a c visited = Some path ->
  chain registry a path c
  /\ NoDup (map step_from path ++ [c])
  /\ (forall x, x ∈ map step_from path -> x ∉ visited).
Proof.
  unfold _find_join_path.
  destruct (find_join_path_fuel _ _ a c visited) as [|p|] eqn:E; try done.
  intros [= <-]. by eapply find_fuel_sound.
Qed.
Lemma connected_snoc a b c :
  connected registry a b -> registered registry b -> linked registry b c ->
  connected registry a c.
Proof.
  induction 1 as [a|a x b Ha Hax _ IH]; intros Hb Hbc.
  - eapply connected_step; [done|done|constructor].
  - eapply connected_step; [done|done|auto].
Qed.

Lemma step_declared_linked step :
  step_declared registry step -> linked registry (step_from step) (step_to step).
Proof.
  destruct step as [[[[a b] ff] tf] jt]. unfold step_from, step_to. simpl.
  intros [(e & rel & He & Hrel & Ht & _)|(e & rel & Hin & Hrel & Ht & _)].
  - left. exists e, rel. split_and!; [by apply dict_get_elem|done..].
  - right. by exists e, rel.
Qed.

Lemma connected_source_registered a c :
  connected registry a c -> registered registry c -> registered registry a.
Proof. by destruct 1. Qed.

Lemma connected_sym a c :
  connected registry a c -> registered registry c -> connected registry c a.
Proof.
  induction 1 as [a|a b c Ha Hab Hbc IH]; intros Hc; [constructor|].
  apply (connected_snoc c b); [by apply IH| |].
  - by eapply connected_source_registered.
  - destruct Hab; [by right|by left].
Qed.
End JoinPathSound.

Lemma registered_key registry a : registered registry a -> a ∈ registry.*1.
Proof.
  intros [e He]. apply dict_get_elem in He. apply list_elem_of_fmap. by exists (a, e).
Qed.

Lemma chain_sources_registered registry a path c :
  chain registry a path c -> Forall (registered registry) (map step_from path).
Proof.
  induction 1 as [|a step path c Hf Hreg _ _ IH]; simpl; [constructor|].
  constructor; [by rewrite Hf|done].
Qed.

(** X3.  A path that [_find_join_path] returns is a simple path of the
    relationship graph from the source to the target: consecutive steps
    meet; every step leaves a registered entity and carries the two fields
    and the join type of a relationship, declared by the step's source
    towards its target, or declared by its target towards its source and
    then with the fields swapped; no entity is left twice, none of them is
    in the visited set, and the target is left by no step.  So a path
    never has more steps than the registry has entities. *)
Theorem join_path_simple registry from to visited path :
  _find_join_path registry from to visited = Some path ->
  chain registry from path to
  /\ NoDup (map step_from path ++ [to])
  /\ (forall x, x ∈ map step_from path -> x ∉ visited)
  /\ (length path <= length registry)%nat.
Proof.
  intros H. destruct (find_join_path_sound registry from to visited path H)
    as (Hchain & Hnd & Hvis).
  split_and!; [done..|].
  apply NoDup_app in Hnd as (Hnd & _ & _).
  rewrite <- (length_map step_from path), <- (length_fmap fst registry).
  apply submseteq_length, NoDup_submseteq; [done|].
  intros x Hx. apply registered_key.
  pose proof (chain_sources_registered registry from path to Hchain) as Hall.
  rewrite Forall_forall in Hall. by apply Hall.
Qed.

Lemma join_path_simple_witness :
  _find_join_path ENTITIES "vehicles" "devices" ∅ = Some vehicles_to_devices
  /\ chain ENTITIES "vehicles" vehicles_to_devices "devices"
  /\ NoDup (map step_from vehicles_to_devices ++ ["devices"])
  /\ (length vehicles_to_devices <= length ENTITIES)%nat.
Proof.
  assert (_find_join_path ENTITIES "vehicles" "devices" ∅ = Some vehicles_to_devices) as H
    by (vm_compute; reflexivity).
  pose proof (join_path_simple ENTITIES "vehicles" "devices" ∅ vehicles_to_devices H) as R.
  exact (conj H (conj (proj1 R) (conj (proj1 (proj2 R)) (proj2 (proj2 (proj2 R)))))).
Defined.

(** X4.  On a registry with unique keys, [_find_join_path] started with
    an empty visited set returns a path exactly when the target can be
    reached from the source along relationships, read in either
    direction, through registered entities. *)
Theorem join_path_exists registry from to :
  NoDup registry.*1 ->
  (is_Some (_find_join_path registry from to ∅) <-> connected registry from to).
Proof.
  intros Hnd. split.
  - intros [path Hpath]. apply find_join_path_sound in Hpath as (Hchain & _).
    by eapply chain_connected.
  - by apply find_join_path_finds.
Qed.

Lemma join_path_exists_witness :
  NoDup ENTITIES.*1
  /\ (is_Some (_find_join_path ENTITIES "objects" "tags" ∅)
      <-> connected ENTITIES "objects" "tags")
  /\ _find_join_path ENTITIES "objects" "tags" ∅ = None.
Proof.
  refine (conj shipped_registry_keys
            (conj (join_path_exists ENTITIES "objects" "tags" shipped_registry_keys) _)).
  vm_compute. reflexivity.
Defined.

(** X5.  On a registry with unique keys, joining is symmetric between
    registered entities: when a path is found from one entity to another
    that is registered, a path is found back, so either of the two can be
    taken as the primary entity. *)
Theorem join_path_symmetric registry from to :
  NoDup registry.*1 -> registered registry to ->
  is_Some (_find_join_path registry from to ∅) ->
  is_Some (_find_join_path registry to from ∅).
Proof.
  intros Hnd Hto [path Hpath].
  apply find_join_path_sound in Hpath as (Hchain%chain_connected & _).
  by apply find_join_path_finds, connected_sym.
Qed.

Lemma join_path_symmetric_witness :
  NoDup ENTITIES.*1
  /\ registered ENTITIES "devices"
  /\ is_Some (_find_join_path ENTITIES "vehicles" "devices" ∅)
  /\ is_Some (_find_join_path ENTITIES "devices" "vehicles" ∅).
Proof.
  assert (registered ENTITIES "devices") as Hto by (exists devices_entity; reflexivity).
  assert (is_Some (_find_join_path ENTITIES "vehicles" "devices" ∅)) as Hpath
    by (exists vehicles_to_devices; vm_compute; reflexivity).
  exact (conj shipped_registry_keys
           (conj Hto (conj Hpath
              (join_path_symmetric ENTITIES "vehicles" "devices"
                 shipped_registry_keys Hto Hpath)))).
Defined.

(* ===================================================================== *)
(** ** The priority order of the search *)
(* ===================================================================== *)

(** The four loops of [_find_join_path], each as the first candidate of a
    list that passes a test: the relationships of the source in declared
    order, or the reverse edges at the source in registry order. *)
Section Priority.
Variable registry : list (string * Entity).

Lemma direct_forward_first a b e :
  direct_forward a b e
  = (fun rel => [(a, b, source_field rel, target_field rel, join_type rel)])
      <$> List.find (fun rel => String.eqb (target_entity rel) b) (relationships e).
Proof.
  unfold direct_forward. induction (relationships e) as [|r rs IH]; simpl; [done|].
  by destruct (String.eqb (target_entity r) b).
Qed.

Lemma reverse_candidate_first a b k (rs : list EntityRelationship) :
  first_some
    (fun rel =>
       if String.eqb (target_entity rel) a
       then if String.eqb k b
            then Some [(a, b, target_field rel, source_field rel, join_type rel)]
            else None
       else None) rs
  = (fun rel => [(a, b, target_field rel, source_field rel, join_type rel)])
      <$> (if String.eqb k b
           then List.find (fun rel => String.eqb (target_entity rel) a) rs
           else None).
Proof.
  induction rs as [|r rs IH]; simpl; [by destruct (String.eqb k b)|].
  rewrite IH. destruct (String.eqb (target_entity r) a), (String.eqb k b); done.
Qed.

Lemma find_app {A} (f : A -> bool) l1 l2 :
  List.find f (l1 ++ l2)
  = match List.find f l1 with Some x => Some x | None => List.find f l2 end.
Proof. induction l1 as [|x l1 IH]; simpl; [done|]. by destruct (f x). Qed.

Lemma find_map {A B} (g : A -> B) (f : B -> bool) l :
  List.find f (map g l) = g <$> List.find (fun x => f (g x)) l.
Proof. induction l as [|x l IH]; simpl; [done|]. by destruct (f (g x)). Qed.

Lemma find_filter {A} (f g : A -> bool) l :
  List.find f (List.filter g l) = List.find (fun x => g x && f x) l.
Proof.
  induction l as [|x l IH]; simpl; [done|].
  destruct (g x); simpl; [|done]. by destruct (f x).
Qed.

Lemma find_ext {A} (f g : A -> bool) l :
  (forall x, f x = g x) -> List.find f l = List.find g l.
Proof. intros H. induction l as [|x l IH]; simpl; [done|]. by rewrite H, IH. Qed.

Lemma find_none_ext {A} (f : A -> bool) l :
  (forall x, x ∈ l -> f x = false) -> List.find f l = None.
Proof.
  induction l as [|x l IH]; simpl; intros H; [done|].
  rewrite (H x) by left. apply IH. intros y Hy. apply H. by right.
Qed.

Lemma direct_reverse_first a b seen :
  direct_reverse registry a b seen
  = (fun edge : string * EntityRelationship =>
       [(a, b, target_field edge.2, source_field edge.2, join_type edge.2)])
      <$> List.find (fun edge : string * EntityRelationship =>
                       String.eqb edge.1 b && bool_decide (edge.1 ∉ seen))
            (reverse_edges registry a).
Proof.
  unfold direct_reverse, reverse_edges.
  induction registry as [|[k e] l IH]; simpl; [done|].
  rewrite find_app, find_map, find_filter. simpl.
  destruct (decide (k ∈ seen)) as [Hin|Hout].
  - rewrite find_none_ext; [exact IH|].
    intros rel _. rewrite bool_decide_eq_false_2 by (by intros ?).
    by rewrite !andb_false_r.
  - rewrite reverse_candidate_first.
    rewrite bool_decide_eq_true_2 by done.
    destruct (String.eqb k b) eqn:Ekb.
    + rewrite (find_ext (fun x => String.eqb (target_entity x) a && (true && true))
                 (fun rel => String.eqb (target_entity rel) a))
        by (intros rel; by rewrite !andb_true_r).
      destruct (List.find _ (relationships e)); [done|exact IH].
    + rewrite find_none_ext; [exact IH|]. intros rel _. by rewrite andb_false_r.
Qed.

Lemma reaches_found b seen next :
  reaches registry b seen next = true ->
  next ∉ seen /\ is_Some (_find_join_path registry next b seen).
Proof.
  unfold reaches. rewrite andb_true_iff, !bool_decide_eq_true. tauto.
Qed.

Lemma reaches_not b seen next :
  reaches registry b seen next = false ->
  next ∈ seen \/ _find_join_path registry next b seen = None.
Proof.
  unfold reaches. intros [H|H]%andb_false_iff; apply bool_decide_eq_false in H.
  - left. by destruct (decide (next ∈ seen)).
  - right. destruct (_find_join_path registry next b seen); [|done].
    exfalso. apply H. by eexists.
Qed.

Lemma multi_hop_forward_first a b e seen :
  multi_hop_forward
    (fun next seen' => as_search (_find_join_path registry next b seen')) a e seen
  = as_search
      match List.find (fun rel => reaches registry b seen (target_entity rel))
              (relationships e) with
      | Some rel =>
          cons (a, target_entity rel, source_field rel, target_field rel, join_type rel)
            <$> _find_join_path registry (target_entity rel) b seen
      | None => None
      end.
Proof.
  unfold multi_hop_forward, forward_step.
  induction (relationships e) as [|r rs IH]; simpl; [done|].
  destruct (reaches registry b seen (target_entity r)) eqn:E.
  - apply reaches_found in E as [Hout [path Hpath]].
    rewrite decide_False by done. by rewrite Hpath.
  - apply reaches_not in E as [Hin|Hnone].
    + by rewrite decide_True.
    + destruct (decide (target_entity r ∈ seen)); [done|]. by rewrite Hnone.
Qed.

Lemma reverse_hop_first a b k seen (rs : list EntityRelationship) :
  k ∉ seen ->
  first_found
    (fun rel =>
       if String.eqb (target_entity rel) a
       then prepend (reverse_step a k rel) (as_search (_find_join_path registry k b seen))
       else NotFound) rs
  = as_search
      match List.find (fun edge : string * EntityRelationship => reaches registry b seen edge.1)
              (map (pair k)
                 (List.filter (fun rel => String.eqb (target_entity rel) a) rs)) with
      | Some edge =>
          cons (a, edge.1, target_field edge.2, source_field edge.2, join_type edge.2)
            <$> _find_join_path registry edge.1 b seen
      | None => None
      end.
Proof.
  intros Hout. unfold reverse_step.
  induction rs as [|r rs IH]; simpl; [done|].
  destruct (String.eqb (target_entity r) a); simpl; [|exact IH].
  destruct (reaches registry b seen k) eqn:E.
  - apply reaches_found in E as [_ [path Hpath]]. simpl. by rewrite Hpath.
  - apply reaches_not in E as [Hin|Hnone]; [done|]. rewrite Hnone in IH |- *. exact IH.
Qed.

Lemma reverse_hops_first a b seen (items : list (string * Entity)) :
  first_found
    (fun item : string * Entity =>
       let '(entity_id, entity) := item in
       if decide (entity_id ∈ seen) then NotFound
       else
         first_found
           (fun rel =>
              if String.eqb (target_entity rel) a
              then prepend (reverse_step a entity_id rel)
                           (as_search (_find_join_path registry entity_id b seen))
              else NotFound)
           (relationships entity))
    items
  = as_search
      match List.find (fun edge : string * EntityRelationship => reaches registry b seen edge.1)
              (flat_map
                 (fun item : string * Entity =>
                    map (pair item.1)
                      (List.filter (fun rel => String.eqb (target_entity rel) a)
                         (relationships item.2)))
                 items) with
      | Some edge =>
          cons (a, edge.1, target_field edge.2, source_field edge.2, join_type edge.2)
            <$> _find_join_path registry edge.1 b seen
      | None => None
      end.
Proof.
  induction items as [|[k e] l IH]; simpl; [done|].
  rewrite find_app.
  destruct (decide (k ∈ seen)) as [Hin|Hout].
  - rewrite find_none_ext; [exact IH|].
    intros edge [rel [-> _]]%list_elem_of_fmap. simpl.
    unfold reaches. by rewrite bool_decide_eq_false_2 by (by intros ?).
  - rewrite (reverse_hop_first a b k seen (relationships e) Hout).
    destruct (List.find _ (map (pair k) _)) as [edge|] eqn:E; [|exact IH].
    apply find_some in E as [_ E]. apply reaches_found in E as [_ [path Hpath]].
    by rewrite Hpath.
Qed.

Lemma multi_hop_reverse_first a b seen :
  multi_hop_reverse registry
    (fun next seen' => as_search (_find_join_path registry next b seen')) a seen
  = as_search
      match List.find (fun edge : string * EntityRelationship => reaches registry b seen edge.1)
              (reverse_edges registry a) with
      | Some edge =>
          cons (a, edge.1, target_field edge.2, source_field edge.2, join_type edge.2)
            <$> _find_join_path registry edge.1 b seen
      | None => None
      end.
Proof. apply reverse_hops_first. Qed.

Lemma find_join_path_order a b visited :
  _find_join_path registry a b visited
  = (if String.eqb a b then Some []
     else if bool_decide (a ∈ visited) then None
     else
       match get_entity registry a with
       | None => None
       | Some from_entity =>
           match List.find (fun rel => String.eqb (target_entity rel) b)
                   (relationships from_entity) with
           | Some rel =>
               Some [(a, b, source_field rel, target_field rel, join_type rel)]
           | None =>
               match List.find
                       (fun edge : string * EntityRelationship =>
                          String.eqb edge.1 b && bool_decide (edge.1 ∉ {[a]} ∪ visited))
                       (reverse_edges registry a) with
               | Some edge =>
                   Some [(a, b, target_field edge.2, source_field edge.2, join_type edge.2)]
               | None =>
                   match List.find
                           (fun rel => reaches registry b ({[a]} ∪ visited) (target_entity rel))
                           (relationships from_entity) with
                   | Some rel =>
                       cons (a, target_entity rel,
                             source_field rel, target_field rel, join_type rel)
                         <$> _find_join_path registry (target_entity rel) b ({[a]} ∪ visited)
                   | None =>
                       match List.find
                               (fun edge : string * EntityRelationship =>
                                  reaches registry b ({[a]} ∪ visited) edge.1)
                               (reverse_edges registry a) with
                       | Some edge =>
                           cons (a, edge.1,
                                 target_field edge.2, source_field edge.2, join_type edge.2)
                             <$> _find_join_path registry edge.1 b ({[a]} ∪ visited)
                       | None => None
                       end
                   end
               end
           end
       end).
Proof.
  rewrite find_join_path_unfold.
  destruct (String.eqb a b); [done|].
  destruct (decide (a ∈ visited)) as [Hin|Hout];
    [by rewrite bool_decide_eq_true_2|rewrite bool_decide_eq_false_2 by done].
  unfold find_join_path_body.
  destruct (get_entity registry a) as [e|]; [|done].
  rewrite direct_forward_first.
  destruct (List.find _ (relationships e)) as [rel|]; [done|]. simpl.
  rewrite direct_reverse_first.
  destruct (List.find _ (reverse_edges registry a)) as [edge|]; [done|]. simpl.
  rewrite multi_hop_forward_first.
  destruct (List.find _ (relationships e)) as [rel|] eqn:E.
  - apply find_some in E as [_ E]. apply reaches_found in E as [_ [path Hpath]].
    by rewrite Hpath.
  - simpl. rewrite multi_hop_reverse_first.
    by destruct (match List.find _ (reverse_edges registry a) with Some _ => _ | None => _ end).
Qed.

End Priority.

(** C4, as amended.  [_find_join_path] follows this priority order and
    returns at the first success: (1) equal ids give the empty path; (2) a
    source in the visited set gives not-found; (2b) so does a source that
    is not registered; (3) the first relationship of the source, in
    declared order, whose target is the target entity gives the single
    step with that relationship's source field, target field and join
    type; (4) the first reverse edge at the source, in registry order,
    that the target entity declares, when the target is not visited, gives
    the single step with the two fields swapped; (5) the first
    relationship of the source, in declared order, whose target is not
    visited and from which the search finds a path gives its step followed
    by that path; (6) the first reverse edge at the source, in registry
    order, whose owner is not visited and from which the search finds a
    path gives its step, fields swapped, followed by that path; (7)
    otherwise not-found.  The nested searches run with the source added to
    the visited set.  And on a registry with unique keys, started with an
    empty visited set, the search returns a path of the relationship graph
    from the source to the target whenever the two are connected in the
    bidirectional graph through registered entities. *)
Theorem find_join_path_priority registry from to visited :
  _find_join_path registry from to visited
  = (if String.eqb from to then Some []
     else if bool_decide (from ∈ visited) then None
     else
       match get_entity registry from with
       | None => None
       | Some from_entity =>
           match List.find (fun rel => String.eqb (target_entity rel) to)
                   (relationships from_entity) with
           | Some rel =>
               Some [(from, to, source_field rel, target_field rel, join_type rel)]
           | None =>
               match List.find
                       (fun edge : string * EntityRelationship =>
                          String.eqb edge.1 to
                          && bool_decide (edge.1 ∉ {[from]} ∪ visited))
                       (reverse_edges registry from) with
               | Some edge =>
                   Some [(from, to,
                          target_field edge.2, source_field edge.2, join_type edge.2)]
               | None =>
                   match List.find
                           (fun rel =>
                              reaches registry to ({[from]} ∪ visited) (target_entity rel))
                           (relationships from_entity) with
                   | Some rel =>
                       cons (from, target_entity rel,
                             source_field rel, target_field rel, join_type rel)
                         <$> _find_join_path registry (target_entity rel) to
                               ({[from]} ∪ visited)
                   | None =>
                       match List.find
                               (fun edge : string * EntityRelationship =>
                                  reaches registry to ({[from]} ∪ visited) edge.1)
                               (reverse_edges registry from) with
                       | Some edge =>
                           cons (from, edge.1,
                                 target_field edge.2, source_field edge.2, join_type edge.2)
                             <$> _find_join_path registry edge.1 to ({[from]} ∪ visited)
                       | None => None
                       end
                   end
               end
           end
       end)
  /\ (NoDup registry.*1 -> connected registry from to ->
      exists path, _find_join_path registry from to ∅ = Some path
                   /\ chain registry from path to).
Proof.
  split; [apply find_join_path_order|].
  intros Hnd Hconn.
  destruct (find_join_path_finds registry from to Hnd Hconn) as [path Hpath].
  exists path. split; [done|].
  by apply find_join_path_sound in Hpath as (Hchain & _).
Qed.

Lemma find_join_path_priority_witness :
  NoDup ENTITIES.*1
  /\ connected ENTITIES "vehicles" "devices"
  /\ exists path, _find_join_path ENTITIES "vehicles" "devices" ∅ = Some path
                  /\ chain ENTITIES "vehicles" path "devices".
Proof.
  assert (forall a e, get_entity ENTITIES a = Some e -> registered ENTITIES a) as Hreg
    by (intros a e H; exists e; exact H).
  assert (forall a b e rel,
            get_entity ENTITIES a = Some e -> In rel (relationships e) ->
            target_entity rel = b -> declares ENTITIES a b) as Hdecl.
  { intros a b e rel He Hrel Ht. exists e, rel.
    split; [apply dict_get_elem; exact He|].
    split; [apply list_elem_of_In; exact Hrel|exact Ht]. }
  assert (connected ENTITIES "vehicles" "devices") as Hconn.
  { apply (connected_step ENTITIES "vehicles" "objects" "devices").
    - apply (Hreg _ vehicles_entity). reflexivity.
    - left. apply (Hdecl _ _ vehicles_entity
                     (mkRelationship "objects" "object_id" "object_id" "left"));
        [reflexivity|simpl; tauto|reflexivity].
    - apply (connected_step ENTITIES "objects" "devices" "devices").
      + apply (Hreg _ objects_entity). reflexivity.
      + left. apply (Hdecl _ _ objects_entity
                       (mkRelationship "devices" "device_id" "device_id" "left"));
          [reflexivity|simpl; tauto|reflexivity].
      + apply connected_here. }
  refine (conj shipped_registry_keys (conj Hconn _)).
  exact (proj2 (find_join_path_priority ENTITIES "vehicles" "devices" ∅)
           shipped_registry_keys Hconn).
Defined.

(** The order at work on the shipped registry.  From ["vehicles"] to
    ["devices"] no step is direct: the first relationship of ["vehicles"],
    towards ["objects"], is followed, and from there the first
    relationship of ["objects"] is direct.  From ["devices"] to
    ["vehicles"] the first relationship of ["devices"], towards
    ["objects"], is followed as well.  From ["devices"] to
    ["tracking_data_core"], which declares the relationship, the single
    step is the reverse one. *)
Lemma find_join_path_samples :
  _find_join_path ENTITIES "vehicles" "devices" ∅
  = Some [("vehicles", "objects", "object_id", "object_id", "left");
          ("objects", "devices", "device_id", "device_id", "left")]
  /\ _find_join_path ENTITIES "devices" "vehicles" ∅
     = Some [("devices", "objects", "device_id", "device_id", "left");
             ("objects", "vehicles", "object_id", "object_id", "left")]
  /\ _find_join_path ENTITIES "devices" "tracking_data_core" ∅
     = Some [("devices", "tracking_data_core", "device_id", "device_id", "inner")]
  /\ _find_join_path ENTITIES "devices" "tracking_data_core" {["tracking_data_core"]}
     = None.
Proof. split_and!; vm_compute; reflexivity. Qed.
(* ===================================================================== *)
(** ** The text of an accepted query *)
(* ===================================================================== *)

(** The SELECT and ORDER BY loops of [build_query] are described by what
    they append for the references that resolve against the registry. *)
Lemma qualified_same e f a s :
  _get_qualified_field_name e f a = OK s -> s = a +:+ "." +:+ f_name f.
Proof.
  unfold _get_qualified_field_name. intros H.
  inv_bind H as x Hx. inv_bind H as y Hy. injection H as <-.
  by rewrite (sanitize_identifier_same _ _ Hx), (sanitize_identifier_same _ _ Hy).
Qed.

Section Text.
Variable registry : list (string * Entity).
Variable repr_str : string -> string.
Variable str_upper : string -> string.
Variable fromisoformat : string -> result Datetime.datetime.

Lemma select_step_items used ta has_agg gb st sf st' :
  Py.dict_get (sf_entity_id sf) used = get_entity registry (sf_entity_id sf) ->
  ta = map (fun item : string * Entity => (item.1, table_name item.2)) used ->
  select_step used ta has_agg gb st sf = OK st' ->
  st'.1 = st.1 ++ (if resolves registry (sf_entity_id sf) (sf_field_id sf)
                   then [select_item registry sf] else [])
  /\ (has_agg = false -> st'.2 = st.2).
Proof.
  intros Hused ->. destruct st as [parts groups].
  unfold select_step, resolves, select_item, resolve. rewrite Hused.
  destruct (get_entity registry (sf_entity_id sf)) as [e|]; simpl;
    [|intros [= <-]; simpl; by rewrite app_nil_r].
  destruct (find_field e (sf_field_id sf)) as [f|]; simpl;
    [|intros [= <-]; simpl; by rewrite app_nil_r].
  unfold Py.dict_item. rewrite dict_get_map, Hused. simpl.
  intros H. inv_bind H as fn Hfn. apply qualified_same in Hfn as ->.
  destruct (sf_aggregation sf) as [agg|]; injection H as <-; simpl; [done|].
  split; [done|]. by intros ->.
Qed.

Lemma select_loop_items used ta has_agg gb l st st' :
  (forall sf, sf ∈ l ->
     Py.dict_get (sf_entity_id sf) used = get_entity registry (sf_entity_id sf)) ->
  ta = map (fun item : string * Entity => (item.1, table_name item.2)) used ->
  for_each (select_step used ta has_agg gb) l st = OK st' ->
  st'.1 = st.1 ++ map (select_item registry)
                      (List.filter (fun sf => resolves registry (sf_entity_id sf) (sf_field_id sf)) l)
  /\ (has_agg = false -> st'.2 = st.2).
Proof.
  intros Hused Hta. revert st. induction l as [|sf l IH]; simpl; intros st H.
  - injection H as <-. by rewrite app_nil_r.
  - inv_bind H as st1 H1.
    apply select_step_items in H1 as [H1 G1]; [|apply Hused; left|done].
    apply IH in H as [H G]; [|intros; apply Hused; by right].
    split.
    + rewrite H, H1, <- app_assoc. by destruct (resolves _ _ _).
    + intros Hagg. by rewrite G, G1.
Qed.

Lemma order_step_terms used ta parts sort parts' :
  Py.dict_get (sc_entity_id sort) used = get_entity registry (sc_entity_id sort) ->
  (forall k e, Py.dict_get k used = Some e -> Py.dict_get k ta = Some (table_name e)) ->
  order_step used ta parts sort = OK parts' ->
  parts' = parts ++ (if resolves registry (sc_entity_id sort) (sc_field_id sort)
                     then [order_term registry sort] else []).
Proof.
  intros Hused Hta. unfold order_step, resolves, order_term, resolve.
  destruct (Py.dict_get (sc_entity_id sort) used) as [e|] eqn:He; rewrite <- Hused; simpl;
    [|intros [= <-]; by rewrite app_nil_r].
  destruct (find_field e (sc_field_id sort)) as [f|]; simpl;
    [|intros [= <-]; by rewrite app_nil_r].
  unfold Py.dict_item. rewrite (Hta _ _ He). simpl.
  intros H. inv_bind H as fn Hfn. apply qualified_same in Hfn as ->.
  by injection H as <-.
Qed.

Lemma order_loop_terms used ta l parts parts' :
  (forall sort, sort ∈ l ->
     Py.dict_get (sc_entity_id sort) used = get_entity registry (sc_entity_id sort)) ->
  (forall k e, Py.dict_get k used = Some e -> Py.dict_get k ta = Some (table_name e)) ->
  for_each (order_step used ta) l parts = OK parts' ->
  parts' = parts ++ map (order_term registry)
                        (List.filter (fun sort => resolves registry (sc_entity_id sort) (sc_field_id sort)) l).
Proof.
  intros Hused Hta. revert parts. induction l as [|sort l IH]; simpl; intros parts H.
  - injection H as <-. by rewrite app_nil_r.
  - inv_bind H as p1 H1.
    apply order_step_terms in H1; [|apply Hused; left|done].
    apply IH in H; [|intros; apply Hused; by right].
    rewrite H, H1, <- app_assoc. by destruct (resolves _ _ _).
Qed.

Lemma time_filter_aliases now config ta st ta' st' :
  time_filter registry fromisoformat now config ta st = OK (ta', st') ->
  forall k v, Py.dict_get k ta = Some v -> Py.dict_get k ta' = Some v.
Proof.
  unfold time_filter.
  destruct (time_range config) as [range|]; [|by intros [= <- <-]].
  destruct (Py.truthy (time_field config)) as [tf|]; [|by intros [= <- <-]].
  destruct (get_entity registry _) as [te|]; [|by intros [= <- <-]].
  destruct (find_field te tf) as [f|]; [|by intros [= <- <-]].
  intros H. inv_bind H as r Hr. destruct r as [start_ end_].
  inv_bind H as tal Htal. inv_bind H as fn Hfn. injection H as <- <-.
  intros k v Hk. destruct (Py.dict_mem _ ta); [done|]. by rewrite dict_get_snoc, Hk.
Qed.

End Text.

(** *** The JOIN clauses *)

Section Joins.
Variable registry : list (string * Entity).
Variable str_upper : string -> string.

Lemma chain_start_registered a path c :
  chain registry a path c -> registered registry c -> registered registry a.
Proof. by destruct 1. Qed.

End Joins.

Lemma dict_get_is_Some {V : Type} (k : string) (d : list (string * V)) v :
  (k, v) ∈ d -> is_Some (Py.dict_get k d).
Proof.
  induction d as [|[k' v'] d IH]; simpl; intros Hin; [by apply elem_of_nil in Hin|].
  destruct (String.eqb k' k) eqn:E; [by eexists|].
  apply elem_of_cons in Hin as [[= -> ->]|Hin]; [|auto].
  by rewrite String.eqb_refl in E.
Qed.

Section Structure.
Variable registry : list (string * Entity).
Variable repr_str : string -> string.
Variable str_upper : string -> string.
Variable fromisoformat : string -> result Datetime.datetime.

Lemma referenced_selected config sf :
  sf ∈ selected_fields config -> sf_entity_id sf ∈ referenced config.
Proof.
  intros H. unfold referenced. rewrite elem_of_cons, !elem_of_app. right. left.
  apply list_elem_of_fmap. by exists sf.
Qed.

Lemma referenced_filter config flt :
  flt ∈ filters config -> fc_entity_id flt ∈ referenced config.
Proof.
  intros H. unfold referenced. rewrite elem_of_cons, !elem_of_app. right. right. left.
  apply list_elem_of_fmap. by exists flt.
Qed.

Lemma referenced_sort config sort :
  sort ∈ sorting config -> sc_entity_id sort ∈ referenced config.
Proof.
  intros H. unfold referenced. rewrite elem_of_cons, !elem_of_app. right. right. right.
  apply list_elem_of_fmap. by exists sort.
Qed.

Lemma select_loop_groups_any config used ta l st' :
  (forall sf, sf ∈ l ->
     Py.dict_get (sf_entity_id sf) used = get_entity registry (sf_entity_id sf)) ->
  ta = map (fun item : string * Entity => (item.1, table_name item.2)) used ->
  for_each (select_step used ta (has_aggregation config) (group_by config)) l ([], []) = OK st' ->
  l = selected_fields config ->
  st'.2 = group_terms registry config.
Proof.
  intros Hused Hta H ->. unfold group_terms.
  destruct (has_aggregation config) eqn:Hagg.
  - by apply (select_loop_groups registry config) in H.
  - apply (select_loop_items registry) in H as [_ H]; [|done..]. by apply H.
Qed.

End Structure.

(* ===================================================================== *)
(** ** The query of a configuration *)
(* ===================================================================== *)

(** [build_query] against the query that the specification describes:
    the required entities, the join steps, the predicates and their
    values, and the lines of the text. *)

(** *** The required entities *)

Lemma dict_mem_keys {V : Type} (k : string) (d : list (string * V)) :
  Py.dict_mem k d = bool_decide (k ∈ d.*1).
Proof.
  unfold Py.dict_mem. induction d as [|[k' v] d IH]; simpl; [done|].
  destruct (String.eqb k' k) eqn:E.
  - apply String.eqb_eq in E as ->. symmetry. apply bool_decide_eq_true. left.
  - rewrite IH. apply String.eqb_neq in E. apply bool_decide_ext.
    rewrite elem_of_cons. naive_solver.
Qed.

Section Required.
Variable registry : list (string * Entity).

Lemma fold_use_entity_keys ids used :
  (fold_left (use_entity registry) ids used).*1
  = used.*1 ++ first_occurrences (list_to_set used.*1)
                 (List.filter (fun k => bool_decide (registered registry k)) ids).
Proof.
  revert used. induction ids as [|k ids IH]; intros used; simpl; [by rewrite app_nil_r|].
  rewrite IH. unfold use_entity, registered. rewrite dict_mem_keys.
  destruct (decide (k ∈ used.*1)) as [Hin|Hout].
  - rewrite bool_decide_eq_true_2 by done.
    destruct (bool_decide (is_Some (get_entity registry k))); simpl; [|done].
    by rewrite decide_True by (by apply elem_of_list_to_set).
  - rewrite bool_decide_eq_false_2 by done.
    destruct (get_entity registry k) as [e|] eqn:He.
    + rewrite bool_decide_eq_true_2 by (by eexists). simpl.
      rewrite decide_False by (by rewrite elem_of_list_to_set).
      rewrite fmap_app, <- app_assoc. simpl. do 3 f_equal.
      rewrite list_to_set_app_L. simpl. set_solver.
    + by rewrite bool_decide_eq_false_2 by (by intros [? ?]).
Qed.

Lemma fold_use_entity_entries ids used :
  Forall (fun item : string * Entity => get_entity registry item.1 = Some item.2) used ->
  Forall (fun item : string * Entity => get_entity registry item.1 = Some item.2)
    (fold_left (use_entity registry) ids used).
Proof.
  revert used. induction ids as [|k ids IH]; intros used Hused; simpl; [done|].
  apply IH. unfold use_entity.
  destruct (Py.dict_mem k used); [done|].
  destruct (get_entity registry k) as [e|] eqn:He; [|done].
  apply Forall_app. split; [done|]. by constructor.
Qed.

Lemma entries_of_keys (used : list (string * Entity)) d :
  Forall (fun item : string * Entity => get_entity registry item.1 = Some item.2) used ->
  used = map (fun k => (k, default d (get_entity registry k))) used.*1.
Proof.
  induction 1 as [|[k e] used Hk _ IH]; [done|].
  simpl in Hk. rewrite fmap_cons. cbn [map fst]. rewrite Hk. cbn [default].
  f_equal. exact IH.
Qed.

(** [used_entities] holds the required entities, in order, each with its
    entry of the registry. *)
Lemma collect_used_required config primary :
  get_entity registry (primary_entity config) = Some primary ->
  collect_used_entities registry config primary
  = map (fun k => (k, default primary (get_entity registry k))) (required registry config).
Proof.
  intros Hp.
  assert (collect_used_entities registry config primary
          = fold_left (use_entity registry)
              (map sf_entity_id (selected_fields config)
               ++ map fc_entity_id (filters config)
               ++ map sc_entity_id (sorting config))
              [(primary_entity config, primary)]) as Hfold.
  { unfold collect_used_entities. by rewrite !fold_left_app. }
  rewrite (entries_of_keys (collect_used_entities registry config primary) primary).
  - f_equal. rewrite Hfold, fold_use_entity_keys. unfold required, referenced. simpl.
    rewrite bool_decide_eq_true_2 by (by eexists). simpl.
    rewrite decide_False by set_solver. done.
  - rewrite Hfold. apply fold_use_entity_entries. by constructor.
Qed.

Lemma required_registered config k :
  k ∈ required registry config -> registered registry k.
Proof.
  unfold required. generalize (∅ : gset string).
  induction (referenced config) as [|x l IH]; simpl; intros seen; [by intros ?%elem_of_nil|].
  destruct (bool_decide (registered registry x)) eqn:E; [|apply IH].
  apply bool_decide_eq_true in E. simpl.
  destruct (decide (x ∈ seen)); [apply IH|].
  intros [->|H]%elem_of_cons; [done|by eapply IH].
Qed.

Lemma required_complete config k :
  k ∈ referenced config -> registered registry k -> k ∈ required registry config.
Proof.
  unfold required.
  assert (forall seen l, k ∈ l -> registered registry k -> k ∉ seen ->
            k ∈ first_occurrences seen
                  (List.filter (fun k => bool_decide (registered registry k)) l)) as H.
  { intros seen l. revert seen. induction l as [|x l IH]; simpl; intros seen Hk Hreg Hseen;
      [by apply elem_of_nil in Hk|].
    destruct (decide (x = k)) as [->|Hne].
    - rewrite bool_decide_eq_true_2 by done. simpl. rewrite decide_False by done. left.
    - apply elem_of_cons in Hk as [->|Hk]; [done|].
      destruct (bool_decide (registered registry x)); simpl; [|by apply IH].
      destruct (decide (x ∈ seen)); [by apply IH|].
      right. apply IH; [done|done|set_solver]. }
  intros Hk Hreg. apply H; [done|done|set_solver].
Qed.

End Required.

(** *** The join steps *)

Lemma fresh_steps_app joined p q :
  fresh_steps joined (p ++ q)
  = fresh_steps joined p
    ++ fresh_steps (list_to_set (map step_to (fresh_steps joined p)) ∪ joined) q.
Proof.
  revert joined. induction p as [|step p IH]; intros joined; simpl.
  - by rewrite union_empty_l_L.
  - destruct (decide (step_to step ∈ joined)); [apply IH|].
    simpl. rewrite IH. do 3 f_equal. set_solver.
Qed.

Lemma find_join_path_same registry a visited : _find_join_path registry a a visited = Some [].
Proof. unfold _find_join_path. simpl. by rewrite String.eqb_refl. Qed.

Section JoinSteps.
Variable registry : list (string * Entity).
Variable str_upper : string -> string.

Lemma join_step_fresh root steps st step st' :
  join_state_after registry str_upper root steps st ->
  step_declared registry step -> registered registry (step_from step) ->
  registered registry (step_to step) -> step_from step ∈ st.2 ->
  join_step registry str_upper st step = OK st' ->
  join_state_after registry str_upper root (steps ++ fresh_steps st.2 [step]) st' /\ step_to step ∈ st'.2.
Proof.
  destruct st as [clauses joined]. destruct step as [[[[a b] ff] tf] jt].
  unfold step_from, step_to. simpl.
  intros (Hc & Hj & Htree) Hdecl [ea Hea] [eb Heb] Hfrom. simpl in *.
  unfold step_to. simpl.
  destruct (decide (b ∈ joined)) as [Hin|Hout].
  { intros [= <-]. rewrite app_nil_r. by split. }
  rewrite Heb, Hea. intros H.
  inv_bind H as x1 H1. inv_bind H as x2 H2. inv_bind H as x3 H3.
  inv_bind H as x4 H4. inv_bind H as x5 H5. injection H as <-.
  apply sanitize_identifier_same in H1 as ->, H2 as ->, H3 as ->, H4 as ->, H5 as ->.
  simpl. split; [|set_solver].
  split_and!.
  - rewrite map_app, Hc. simpl. by rewrite Hea, Heb.
  - rewrite map_app, list_to_set_app_L, Hj. simpl. unfold step_to at 2. simpl. set_solver.
  - constructor; try done; unfold step_from, step_to; simpl.
    + by exists ea.
    + by exists eb.
    + subst joined. set_solver.
    + subst joined. set_solver.
Qed.

Lemma join_path_fresh root steps a path c st st' :
  chain registry a path c -> registered registry c ->
  join_state_after registry str_upper root steps st -> a ∈ st.2 ->
  for_each (join_step registry str_upper) path st = OK st' ->
  join_state_after registry str_upper root (steps ++ fresh_steps st.2 path) st' /\ c ∈ st'.2.
Proof.
  intros Hchain Hc. revert steps st.
  induction Hchain as [a|a step path c Hf Hreg Hdecl Hrest IH]; simpl; intros steps st Hst Ha H.
  - injection H as <-. by rewrite app_nil_r.
  - inv_bind H as st1 H1.
    pose proof Hst as (_ & Hj & _).
    apply (join_step_fresh root steps) in H1 as (Hst1 & Hto); try done.
    2:{ by rewrite Hf. }
    2:{ by eapply chain_start_registered. }
    2:{ by rewrite Hf. }
    destruct (IH Hc _ _ Hst1 Hto H) as (Hst' & Hc').
    split; [|done].
    pose proof Hst1 as (_ & Hj1 & _).
    replace (steps ++ (if decide (step_to step ∈ st.2) then fresh_steps st.2 path
                       else step :: fresh_steps ({[step_to step]} ∪ st.2) path))
      with ((steps ++ fresh_steps st.2 [step]) ++ fresh_steps st1.2 path); [done|].
    rewrite <- app_assoc. f_equal. simpl in Hj1 |- *. revert Hj1.
    destruct (decide (step_to step ∈ st.2)) as [Hin|Hout]; simpl; intros Hj1.
    + f_equal. rewrite Hj1, Hj. by rewrite app_nil_r.
    + do 2 f_equal. rewrite Hj1, Hj, map_app, list_to_set_app_L. simpl. set_solver.
Qed.

Lemma join_entity_fresh root steps st item st' :
  registered registry item.1 ->
  join_state_after registry str_upper root steps st -> root ∈ st.2 ->
  join_entity registry str_upper root st item = OK st' ->
  join_state_after registry str_upper root
    (steps ++ fresh_steps st.2 (default [] (_find_join_path registry root item.1 ∅))) st'
  /\ item.1 ∈ st'.2.
Proof.
  destruct item as [k e]. simpl. intros Hk Hst Hroot. unfold join_entity.
  destruct (String.eqb k root) eqn:E.
  { apply String.eqb_eq in E as ->. intros [= <-].
    rewrite find_join_path_same. simpl. by rewrite app_nil_r. }
  destruct (_find_join_path registry root k ∅) as [path|] eqn:Hp; [|done].
  apply find_join_path_sound in Hp as (Hchain & _ & _). simpl.
  by apply join_path_fresh with (a := root) (c := k).
Qed.

Lemma join_state_grows root steps steps' st st' :
  join_state_after registry str_upper root steps st -> join_state_after registry str_upper root (steps ++ steps') st' ->
  st.2 ⊆ st'.2.
Proof.
  intros (_ & -> & _) (_ & -> & _). rewrite map_app, list_to_set_app_L. set_solver.
Qed.

Lemma join_loop_fresh root steps used st st' :
  Forall (fun item : string * Entity => registered registry item.1) used ->
  join_state_after registry str_upper root steps st -> root ∈ st.2 ->
  for_each (join_entity registry str_upper root) used st = OK st' ->
  join_state_after registry str_upper root
    (steps ++ fresh_steps st.2
                (concat (map (fun k => default [] (_find_join_path registry root k ∅))
                           used.*1))) st'
  /\ forall item, item ∈ used -> item.1 ∈ st'.2.
Proof.
  intros Hused. revert steps st.
  induction Hused as [|item used Hitem Hused IH]; simpl; intros steps st Hst Hroot H.
  - injection H as <-. rewrite app_nil_r. split; [done|].
    intros x Hx. by apply elem_of_nil in Hx.
  - inv_bind H as st1 H1.
    apply (join_entity_fresh root steps) in H1 as (Hst1 & Hin); try done.
    pose proof (join_state_grows _ _ _ _ _ Hst Hst1) as Hsub.
    assert (root ∈ st1.2) as Hroot1 by set_solver.
    destruct (IH _ _ Hst1 Hroot1 H) as [Hst' Hrest].
    pose proof Hst as (_ & Hj & _). pose proof Hst1 as (_ & Hj1 & _).
    split.
    + rewrite fresh_steps_app, app_assoc.
      replace (list_to_set
                 (map step_to
                    (fresh_steps st.2 (default [] (_find_join_path registry root item.1 ∅))))
               ∪ st.2) with st1.2; [done|].
      rewrite Hj1, Hj, map_app, list_to_set_app_L. set_solver.
    + intros y [->|Hy]%elem_of_cons; [|auto].
      pose proof (join_state_grows _ _ _ _ _ Hst1 Hst'). set_solver.
Qed.

Lemma join_loop_paths root used st st' :
  for_each (join_entity registry str_upper root) used st = OK st' ->
  forall item, item ∈ used -> is_Some (_find_join_path registry root item.1 ∅).
Proof.
  revert st. induction used as [|[k e] used IH]; simpl; intros st H item Hin;
    [by apply elem_of_nil in Hin|].
  inv_bind H as st1 H1.
  apply elem_of_cons in Hin as [->|Hin]; [|by eapply IH].
  simpl. unfold join_entity in H1.
  destruct (String.eqb k root) eqn:E.
  - apply String.eqb_eq in E as ->. rewrite find_join_path_same. by eexists.
  - by destruct (_find_join_path registry root k ∅).
Qed.

(** The JOIN clauses are those of the join steps, which grow a tree from
    the primary entity that holds every required entity. *)
Lemma join_loop_steps config primary joins joined :
  get_entity registry (primary_entity config) = Some primary ->
  for_each (join_entity registry str_upper (primary_entity config))
    (collect_used_entities registry config primary) ([], {[primary_entity config]})
  = OK (joins, joined) ->
  joins = map (join_clause registry str_upper) (join_steps registry config)
  /\ join_tree registry (primary_entity config) (join_steps registry config)
  /\ (forall k, k ∈ required registry config ->
        k ∈ primary_entity config :: map step_to (join_steps registry config)
        /\ is_Some (_find_join_path registry (primary_entity config) k ∅)).
Proof.
  intros Hp H.
  assert ((collect_used_entities registry config primary).*1 = required registry config)
    as Hkeys.
  { rewrite (collect_used_required registry config primary Hp).
    rewrite <- list_fmap_compose. apply list_fmap_id. }
  pose proof (join_loop_paths _ _ _ _ H) as Hpaths.
  apply (join_loop_fresh (primary_entity config) []) in H as [(Hc & Hj & Htree) Hall].
  2:{ apply Forall_forall. intros [k e] Hin. simpl.
      apply (required_registered registry config). rewrite <- Hkeys.
      apply list_elem_of_fmap. by exists (k, e). }
  2:{ split_and!; [done|simpl; set_solver|constructor]. }
  2:{ simpl. set_solver. }
  simpl in Hc, Hj, Htree. rewrite Hkeys in Hc, Hj, Htree.
  fold (join_steps registry config) in Hc, Hj, Htree.
  split_and!; [done|done|].
  intros k Hk. rewrite <- Hkeys in Hk. apply list_elem_of_fmap in Hk as ([k' e] & -> & Hin).
  split; [|by apply (Hpaths (k', e))].
  apply Hall in Hin. simpl in Hin. rewrite Hj in Hin. set_solver.
Qed.

End JoinSteps.

(** *** The predicates and their values *)

Lemma param_each_list vs params idx :
  param_each vs (params, idx)
  = (placeholder_list idx (length vs), (params ++ vs, (idx + length vs)%nat)).
Proof.
  revert params idx. induction vs as [|v vs IH]; intros params idx; simpl.
  - by rewrite app_nil_r, Nat.add_0_r.
  - rewrite IH. unfold placeholder_list. simpl.
    by rewrite <- app_assoc, Nat.add_succ_r.
Qed.

Section Predicates.
Variable registry : list (string * Entity).
Variable repr_str : string -> string.
Variable fromisoformat : string -> result Datetime.datetime.

(** A condition is the predicate of the operator table. *)
Lemma build_filter_condition_text e f a flt params idx cond params' idx' :
  _build_filter_condition repr_str e f a flt params idx = OK (cond, (params', idx')) ->
  cond = predicate (a +:+ "." +:+ f_name f) flt idx
  /\ idx' = (idx + values_bound flt)%nat
  /\ params' = params ++ filter_values repr_str flt.
Proof.
  unfold _build_filter_condition. intros H.
  inv_bind H as fn Hfn. apply qualified_same in Hfn as ->.
  injection H as H. revert H.
  unfold predicate, values_bound, filter_values, compare1, param, placeholder.
  destruct (fc_operator flt);
    try (intros [= <- <- <-]; split_and!; [done|lia|done]).
  - intros [= <- <- <-]. split_and!; [done|lia|by rewrite <- app_assoc].
  - destruct (fc_value flt);
      try (intros [= <- <- <-]; split_and!; [done|lia|done]).
    rewrite param_each_list. by intros [= <- <- <-].
  - destruct (fc_value flt);
      try (intros [= <- <- <-]; split_and!; [done|lia|done]).
    rewrite param_each_list. by intros [= <- <- <-].
  - intros [= <- <- <-]. split_and!; [done|lia|by rewrite app_nil_r].
  - intros [= <- <- <-]. split_and!; [done|lia|by rewrite app_nil_r].
Qed.

Lemma where_step_text used ta st flt st' :
  Py.dict_get (fc_entity_id flt) used = get_entity registry (fc_entity_id flt) ->
  names_table used ta ->
  where_step repr_str used ta st flt = OK st' ->
  st'.1 = st.1 ++ filter_predicates registry st.2.2 [flt]
  /\ st'.2.2 = (st.2.2 + sum_list_with values_bound
                           (List.filter
                              (fun flt => resolves registry (fc_entity_id flt) (fc_field_id flt))
                              [flt]))%nat
  /\ st'.2.1 = st.2.1 ++ bound_values registry repr_str flt.
Proof.
  intros Hused Hta. destruct st as [conds [params idx]].
  unfold where_step, bound_values, resolves. simpl. unfold resolve.
  destruct (Py.dict_get (fc_entity_id flt) used) as [e|] eqn:He; rewrite <- Hused; simpl.
  2:{ intros [= <-]. simpl. rewrite !app_nil_r. split_and!; [done|lia|done]. }
  destruct (find_field e (fc_field_id flt)) as [f|]; simpl.
  2:{ intros [= <-]. simpl. rewrite !app_nil_r. split_and!; [done|lia|done]. }
  unfold Py.dict_item. rewrite (Hta _ _ He). simpl.
  intros H. inv_bind H as r Hr. destruct r as [cond [params' idx']].
  injection H as <-. simpl.
  apply build_filter_condition_text in Hr as (-> & -> & ->).
  split_and!; [done|lia|done].
Qed.

Lemma where_loop_text used ta l st st' :
  (forall flt, flt ∈ l ->
     Py.dict_get (fc_entity_id flt) used = get_entity registry (fc_entity_id flt)) ->
  names_table used ta ->
  for_each (where_step repr_str used ta) l st = OK st' ->
  st'.1 = st.1 ++ filter_predicates registry st.2.2 l
  /\ st'.2.2 = (st.2.2 + sum_list_with values_bound
                           (List.filter
                              (fun flt => resolves registry (fc_entity_id flt) (fc_field_id flt))
                              l))%nat
  /\ st'.2.1 = st.2.1 ++ concat (map (bound_values registry repr_str) l).
Proof.
  intros Hused Hta. revert st. induction l as [|flt l IH]; intros st H.
  - injection H as <-. simpl. rewrite !app_nil_r. split_and!; [done|lia|done].
  - simpl in H. inv_bind H as st1 H1.
    apply where_step_text in H1 as (H11 & H12 & H13); [|apply Hused; left|done].
    apply IH in H as (H21 & H22 & H23); [|intros; apply Hused; by right].
    rewrite H21, H22, H23, H11, H12, H13. clear.
    simpl. unfold resolves.
    destruct (resolve registry (fc_entity_id flt) (fc_field_id flt)) as [[e f]|]; simpl.
    + rewrite Nat.add_0_r. split_and!; [by rewrite <- app_assoc|lia|by rewrite <- app_assoc].
    + rewrite app_nil_r, Nat.add_0_r. split_and!; [done|lia|by rewrite <- app_assoc].
Qed.

(** The time range adds the predicates of its bounds, and their values. *)
Lemma time_filter_text now config ta st ta' st' :
  (forall k v, Py.dict_get k ta = Some v ->
     exists e, get_entity registry k = Some e /\ v = table_name e) ->
  time_filter registry fromisoformat now config ta st = OK (ta', st') ->
  st'.1 = st.1 ++ time_predicates registry config st.2.2
  /\ st'.2.1 = st.2.1 ++ time_values registry fromisoformat now config.
Proof.
  intros Hta. destruct st as [conds [params idx]].
  unfold time_filter, time_predicates, time_values, time_scope.
  destruct (time_range config) as [range|];
    [|intros [= <- <-]; simpl; by rewrite !app_nil_r].
  destruct (Py.truthy (time_field config)) as [tf|];
    [|intros [= <- <-]; simpl; by rewrite !app_nil_r].
  set (k := match Py.truthy (time_field_entity config) with
            | Some e => e | None => primary_entity config end).
  assert (default (primary_entity config) (Py.truthy (time_field_entity config)) = k) as ->
    by (unfold k; by destruct (Py.truthy _)).
  unfold resolve.
  destruct (get_entity registry k) as [te|] eqn:Hte; simpl;
    [|intros [= <- <-]; simpl; by rewrite !app_nil_r].
  destruct (find_field te tf) as [f|] eqn:Hf; simpl;
    [|intros [= <- <-]; simpl; by rewrite !app_nil_r].
  intros H. inv_bind H as r Hr. destruct r as [start_ end_].
  rewrite Hr. rewrite <- (calculate_bounds_present fromisoformat now range _ Hr). simpl.
  inv_bind H as alias Ha. inv_bind H as fn Hfn. apply qualified_same in Hfn as ->.
  assert (alias = table_name te) as ->.
  { revert Ha. unfold Py.dict_item, Py.dict_mem.
    destruct (Py.dict_get k ta) as [v|] eqn:Hv.
    - rewrite Hv. intros [= <-]. destruct (Hta _ _ Hv) as (e & He & ->). congruence.
    - rewrite dict_get_snoc, Hv, String.eqb_refl. by intros [= <-]. }
  injection H as <- <-. unfold placeholder.
  destruct start_ as [t1|], end_ as [t2|]; simpl; rewrite <- ?app_assoc, ?app_nil_r; done.
Qed.

End Predicates.

(** *** The lines of the text *)

Lemma clause_optional keyword sep parts : clause keyword sep parts = optional keyword sep parts.
Proof. by destruct parts. Qed.

Section Output.
Variable registry : list (string * Entity).
Variable repr_str : string -> string.
Variable str_upper : string -> string.
Variable fromisoformat : string -> result Datetime.datetime.

(** What [build_query] returns when it returns: the query of the
    configuration. *)
Lemma build_query_output now config sql params :
  build_query registry repr_str str_upper fromisoformat now config = OK (sql, params) ->
  sql = query_text registry str_upper config
  /\ params = query_params registry repr_str fromisoformat now config
  /\ join_tree registry (primary_entity config) (join_steps registry config)
  /\ (forall k, k ∈ referenced config -> registered registry k ->
        k ∈ primary_entity config :: map step_to (join_steps registry config)
        /\ is_Some (_find_join_path registry (primary_entity config) k ∅)).
Proof.
  unfold build_query.
  destruct (get_entity registry (primary_entity config)) as [primary|] eqn:Hp; [|done].
  pose proof (collect_used_lookup registry config primary) as Hlook.
  pose proof (collect_used_from_registry registry config primary Hp) as Hfrom.
  set (used := collect_used_entities registry config primary) in *.
  set (ta := map _ used).
  assert (names_table used ta) as Hnames.
  { intros k e Hk. unfold ta. by rewrite dict_get_map, Hk. }
  intros H. inv_bind H as sel Hsel. destruct sel as [select_parts groups].
  pose proof (select_loop_groups_any registry config used ta _ _
                ltac:(intros sf Hsf; apply Hlook; [done|by apply referenced_selected])
                eq_refl Hsel eq_refl) as Hgroups.
  apply (select_loop_items registry) in Hsel as [Hitems _];
    [|intros sf Hsf; apply Hlook; [done|by apply referenced_selected]|done].
  simpl in Hitems, Hgroups. subst select_parts groups.
  match type of H with
  | match ?l with [] => _ | _ :: _ => ?k end = _ =>
      assert (k = OK (sql, params)) as H' by (by destruct l)
  end.
  clear H. rename H' into H.
  inv_bind H as sn Hsn. inv_bind H as tn Htn.
  apply sanitize_identifier_same in Hsn as ->, Htn as ->.
  inv_bind H as js Hjs. destruct js as [joins joined].
  apply (join_loop_steps registry str_upper config primary) in Hjs as (-> & Htree & Hall);
    [|done].
  inv_bind H as wst Hwst.
  apply (where_loop_text registry repr_str) in Hwst as (Hw1 & Hw2 & Hw3); [| |done].
  2:{ intros flt Hflt. apply Hlook; [done|by apply referenced_filter]. }
  simpl in Hw1, Hw2, Hw3.
  inv_bind H as tst Htst. destruct tst as [ta' [conds [ps idx]]].
  pose proof (time_filter_aliases registry fromisoformat now config ta wst ta' _ Htst) as Hta'.
  apply (time_filter_text registry fromisoformat) in Htst as (Ht1 & Ht2).
  2:{ intros k v. unfold ta. rewrite dict_get_map.
      destruct (Py.dict_get k used) as [e|] eqn:Hk; [|done].
      intros [= <-]. exists e. split; [by apply Hfrom|done]. }
  simpl in Ht1, Ht2.
  inv_bind H as orders Hord.
  apply (order_loop_terms registry) in Hord.
  2:{ intros sort Hsort. apply Hlook; [done|by apply referenced_sort]. }
  2:{ intros k e Hk. apply Hta'. by apply Hnames. }
  simpl in Hord. subst orders. injection H as <- <-.
  split_and!; [| |done|].
  - unfold assemble, query_text, query_lines, select_line, from_line, join_lines,
      where_lines, group_lines, order_lines, limit_line, selected, sorts, values_count,
      conditions.
    rewrite Hp, !clause_optional, Ht1, Hw1, Hw2. done.
  - unfold query_params. by rewrite Ht2, Hw3.
  - intros k Hk Hreg. apply Hall. by apply required_complete.
Qed.

(** The parts of an accepted query, read off the registry. *)
Lemma build_query_structure now config sql params :
  build_query registry repr_str str_upper fromisoformat now config = OK (sql, params) ->
  exists primary steps conds,
    get_entity registry (primary_entity config) = Some primary
    /\ sql = assemble
               (map (select_item registry)
                  (List.filter (fun sf => resolves registry (sf_entity_id sf) (sf_field_id sf))
                     (selected_fields config)))
               (schema_name primary +:+ "." +:+ table_name primary)
               (map (join_clause registry str_upper) steps)
               conds
               (group_terms registry config)
               (map (order_term registry)
                  (List.filter (fun sort => resolves registry (sc_entity_id sort) (sc_field_id sort))
                     (sorting config)))
               (limit config)
    /\ join_tree registry (primary_entity config) steps
    /\ (forall k, k ∈ referenced config -> registered registry k ->
                  k ∈ primary_entity config :: map step_to steps).
Proof.
  intros H. pose proof (build_query_output now config sql params H) as (-> & _ & Htree & Hall).
  unfold build_query in H.
  destruct (get_entity registry (primary_entity config)) as [primary|] eqn:Hp; [|done].
  exists primary, (join_steps registry config),
    (filter_predicates registry 1 (filters config)
     ++ time_predicates registry config (S (values_count registry config))).
  split_and!; [done| |done|by intros k Hk Hreg; apply Hall].
  unfold assemble, query_text, query_lines, select_line, from_line, join_lines,
    where_lines, group_lines, order_lines, limit_line, selected, sorts.
  by rewrite Hp, !clause_optional.
Qed.

End Output.
(* ===================================================================== *)
(** ** References that do not resolve, in the whole query *)
(* ===================================================================== *)

Lemma for_each_filter {A S : Type} (keep : A -> bool) (body : S -> A -> result S) l s :
  (forall s x, x ∈ l -> keep x = false -> body s x = OK s) ->
  for_each body (List.filter keep l) s = for_each body l s.
Proof.
  revert s. induction l as [|x l IH]; intros s Hskip; simpl; [done|].
  destruct (keep x) eqn:E; simpl.
  - destruct (body s x) as [s1|e]; simpl; [|done].
    apply IH. intros s0 y Hy. apply Hskip. by right.
  - rewrite (Hskip s x) by (done || left). simpl.
    apply IH. intros s0 y Hy. apply Hskip. by right.
Qed.

Section Prune.
Variable registry : list (string * Entity).
Variable repr_str : string -> string.
Variable str_upper : string -> string.
Variable fromisoformat : string -> result Datetime.datetime.

Lemma resolves_false k fid : resolves registry k fid = false -> resolve registry k fid = None.
Proof.
  unfold resolves. intros H. apply bool_decide_eq_false in H.
  destruct (resolve registry k fid); [|done]. exfalso. apply H. by eexists.
Qed.

(** Dropping the references that do not resolve changes nothing, as long
    as the required entities stay the same and an aggregation is selected
    after as before. *)
Lemma build_query_prune now config :
  required registry (prune registry config) = required registry config ->
  has_aggregation (prune registry config) = has_aggregation config ->
  build_query registry repr_str str_upper fromisoformat now (prune registry config)
  = build_query registry repr_str str_upper fromisoformat now config.
Proof.
  intros Hreq Hagg. unfold build_query.
  change (primary_entity (prune registry config)) with (primary_entity config).
  destruct (get_entity registry (primary_entity config)) as [primary|] eqn:Hp; [|done].
  assert (collect_used_entities registry (prune registry config) primary
          = collect_used_entities registry config primary) as ->.
  { rewrite !collect_used_required by done. by rewrite Hreq. }
  rewrite Hagg.
  change (group_by (prune registry config)) with (group_by config).
  change (selected_fields (prune registry config)) with (selected registry config).
  change (filters (prune registry config)) with (conditions registry config).
  change (sorting (prune registry config)) with (sorts registry config).
  change (limit (prune registry config)) with (limit config).
  unfold selected, conditions, sorts.
  rewrite (for_each_filter _ (select_step _ _ _ _)).
  2:{ intros s sf Hsf Hres. apply select_step_skip.
      rewrite (lookup_resolve registry config primary) by (done || by apply referenced_selected).
      by apply resolves_false. }
  apply bind_ext. intros [parts groups]. destruct parts as [|p parts]; [done|].
  do 2 (apply bind_ext; intros ?).
  apply bind_ext. intros [joins joined].
  rewrite (for_each_filter _ (where_step _ _ _)).
  2:{ intros s flt Hflt Hres. apply where_step_skip.
      rewrite (lookup_resolve registry config primary) by (done || by apply referenced_filter).
      by apply resolves_false. }
  apply bind_ext. intros wst.
  change (time_filter registry fromisoformat now (prune registry config))
    with (time_filter registry fromisoformat now config).
  apply bind_ext. intros [ta' [conds [ps idx]]].
  rewrite for_each_filter; [done|].
  intros s sort Hsort Hres. apply order_step_skip.
  rewrite (lookup_resolve registry config primary) by (done || by apply referenced_sort).
  by apply resolves_false.
Qed.

End Prune.

(** C3, as amended.  [build_query] rejects a configuration whose primary
    entity is unknown, one none of whose selected fields resolves to a
    declared entity and field, and one that names, in a selected field, a
    filter or a sort spec, a registered entity without a join path from
    the primary entity, be the field of that reference declared or not.
    A configuration that it accepts is compiled to the query of the
    specification, in which only the references that resolve have a SELECT
    item, a predicate with its values, or an ORDER BY term: the others are
    dropped without an error.  A dropped reference still counts in two
    ways: its entity, when registered, is a required entity and is joined,
    and its aggregation, when it has one, makes the query a grouped one.
    When dropping the references that do not resolve changes neither the
    required entities nor whether an aggregation is selected, the
    configuration is compiled exactly as the one without them, or rejected
    with the same error. *)
Theorem unresolved_references registry repr_str str_upper fromisoformat now config :
  (get_entity registry (primary_entity config) = None ->
   build_query registry repr_str str_upper fromisoformat now config
   = Raise (ValueError ("Unknown entity: " +:+ primary_entity config)))
  /\ (is_Some (get_entity registry (primary_entity config)) ->
      (forall sf, sf ∈ selected_fields config ->
                  resolve registry (sf_entity_id sf) (sf_field_id sf) = None) ->
      build_query registry repr_str str_upper fromisoformat now config
      = Raise (ValueError "No valid fields selected"))
  /\ (forall k, k ∈ referenced config -> registered registry k ->
        _find_join_path registry (primary_entity config) k ∅ = None ->
        exists e, build_query registry repr_str str_upper fromisoformat now config = Raise e)
  /\ (forall sql params,
        build_query registry repr_str str_upper fromisoformat now config = OK (sql, params) ->
        sql = query_text registry str_upper config
        /\ params = query_params registry repr_str fromisoformat now config
        /\ forall k, k ∈ referenced config -> registered registry k ->
             k ∈ primary_entity config :: map step_to (join_steps registry config))
  /\ (required registry (prune registry config) = required registry config ->
      has_aggregation (prune registry config) = has_aggregation config ->
      build_query registry repr_str str_upper fromisoformat now config
      = build_query registry repr_str str_upper fromisoformat now (prune registry config)).
Proof.
  split_and!.
  - intros Hp. unfold build_query. by rewrite Hp.
  - intros [primary Hp] Hnone. unfold build_query. rewrite Hp.
    rewrite select_loop_skip; [done|].
    intros sf Hsf. rewrite (lookup_resolve registry config primary); [by apply Hnone|done|].
    by apply referenced_selected.
  - intros k Hk Hreg Hnone.
    destruct (build_query registry repr_str str_upper fromisoformat now config)
      as [[sql params]|e] eqn:Hbuild; [|by exists e].
    apply build_query_output in Hbuild as (_ & _ & _ & Hall).
    destruct (Hall k Hk Hreg) as [_ [path Hpath]]. congruence.
  - intros sql params (Hsql & Hparams & _ & Hall)%build_query_output.
    split_and!; [done|done|]. intros k Hk Hreg. by apply Hall.
  - intros Hreq Hagg. symmetry. by apply build_query_prune.
Qed.

Lemma unresolved_references_witness :
  required ENTITIES (prune ENTITIES config_dangling) = required ENTITIES config_dangling
  /\ has_aggregation (prune ENTITIES config_dangling) = has_aggregation config_dangling
  /\ prune ENTITIES config_dangling = select_only "objects" [plain_field "objects" "object_id"]
  /\ build_query ENTITIES sample_repr sample_upper sample_fromisoformat sample_now config_dangling
     = build_query ENTITIES sample_repr sample_upper sample_fromisoformat sample_now
         (prune ENTITIES config_dangling)
  /\ is_Some (get_entity ENTITIES (primary_entity config_nothing_resolves))
  /\ (forall sf, sf ∈ selected_fields config_nothing_resolves ->
                 resolve ENTITIES (sf_entity_id sf) (sf_field_id sf) = None)
  /\ build_query ENTITIES sample_repr sample_upper sample_fromisoformat sample_now
       config_nothing_resolves
     = Raise (ValueError "No valid fields selected").
Proof.
  assert (required ENTITIES (prune ENTITIES config_dangling)
          = required ENTITIES config_dangling) as H1 by (vm_compute; reflexivity).
  assert (has_aggregation (prune ENTITIES config_dangling)
          = has_aggregation config_dangling) as H2 by reflexivity.
  assert (is_Some (get_entity ENTITIES (primary_entity config_nothing_resolves))) as H3
    by (exists objects_entity; reflexivity).
  assert (forall sf, sf ∈ selected_fields config_nothing_resolves ->
                     resolve ENTITIES (sf_entity_id sf) (sf_field_id sf) = None) as H4.
  { intros sf Hin. apply list_elem_of_In in Hin. simpl in Hin.
    destruct Hin as [<-|[<-|[]]]; reflexivity. }
  refine (conj H1 (conj H2 (conj _ (conj _ (conj H3 (conj H4 _)))))).
  - vm_compute. reflexivity.
  - exact (proj2 (proj2 (proj2 (proj2
             (unresolved_references ENTITIES sample_repr sample_upper sample_fromisoformat
                sample_now config_dangling)))) H1 H2).
  - exact (proj1 (proj2
             (unresolved_references ENTITIES sample_repr sample_upper sample_fromisoformat
                sample_now config_nothing_resolves)) H3 H4).
Defined.

(** A reference that does not resolve but names a registered entity is
    not dropped altogether.  A filter on an undeclared field of
    ["devices"] adds no predicate but its entity is joined; the same
    filter on ["tags"], which has no relationship, makes [build_query]
    refuse the configuration; and an aggregation on an unknown entity
    makes the listed plain field a GROUP BY term.  Without these
    references each of the three configurations compiles to the bare
    query. *)
Lemma dangling_references_count :
  resolve ENTITIES "devices" "no_such_field" = None
  /\ build_query ENTITIES sample_repr sample_upper sample_fromisoformat sample_now
       config_dangling_joined
     = OK (dangling_joined_sql, [])
  /\ resolve ENTITIES "tags" "no_such_field" = None
  /\ build_query ENTITIES sample_repr sample_upper sample_fromisoformat sample_now
       config_dangling_unjoinable
     = Raise (ValueError ("Cannot join entity 'tags' to primary entity 'objects'. "
                          +:+ "No relationship path found. "
                          +:+ "Please select fields from related entities only."))
  /\ resolve ENTITIES "ghosts" "name" = None
  /\ build_query ENTITIES sample_repr sample_upper sample_fromisoformat sample_now
       config_dangling_aggregate
     = OK (dangling_aggregate_sql, [])
  /\ Forall (fun config =>
               build_query ENTITIES sample_repr sample_upper sample_fromisoformat sample_now
                 (prune ENTITIES config)
               = OK (dangling_sql, []))
       [config_dangling_joined; config_dangling_unjoinable; config_dangling_aggregate].
Proof.
  do 6 (split; [vm_compute; reflexivity|]).
  repeat (apply List.Forall_cons; [vm_compute; reflexivity|]). apply List.Forall_nil.
Qed.

(* ===================================================================== *)
(** ** The GROUP BY clause *)
(* ===================================================================== *)

Lemma join_clause_start registry str_upper step :
  String.prefix "GROUP BY" (join_clause registry str_upper step) = false.
Proof.
  destruct step as [[[[a b] ff] tf] jt]. unfold join_clause, join_keyword.
  destruct (get_entity registry a) as [ea|]; [|done].
  destruct (get_entity registry b) as [eb|]; [|done].
  destruct (String.eqb (str_upper jt) "INNER") eqn:E1;
    [by apply String.eqb_eq in E1 as ->|].
  destruct (String.eqb (str_upper jt) "LEFT") eqn:E2;
    [by apply String.eqb_eq in E2 as ->|].
  destruct (String.eqb (str_upper jt) "RIGHT") eqn:E3;
    [by apply String.eqb_eq in E3 as ->|done].
Qed.

(** The lines of a query other than the GROUP BY clause. *)
Lemma ungrouped_lines registry str_upper config :
  Forall (fun line => String.prefix "GROUP BY" line = false)
    ([select_line registry config; from_line registry config]
     ++ join_lines registry str_upper config ++ where_lines registry config
     ++ order_lines registry config ++ [limit_line config]).
Proof.
  repeat apply Forall_app_2.
  - repeat apply List.Forall_cons; [done| |apply List.Forall_nil].
    unfold from_line. by destruct (get_entity registry (primary_entity config)).
  - unfold join_lines. apply Forall_fmap, Forall_forall. intros step _.
    apply join_clause_start.
  - unfold where_lines, optional. destruct (bool_decide _); [apply List.Forall_nil|].
    by apply List.Forall_cons; [|apply List.Forall_nil].
  - unfold order_lines, optional. destruct (bool_decide _); [apply List.Forall_nil|].
    by apply List.Forall_cons; [|apply List.Forall_nil].
  - by apply List.Forall_cons; [|apply List.Forall_nil].
Qed.

Lemma not_grouped_filter registry config :
  group_by config = None \/ group_by config = Some [] ->
  List.filter (grouped registry config) (selected_fields config) = [].
Proof.
  intros Hgb. induction (selected_fields config) as [|sf l IH]; simpl; [done|].
  by rewrite not_grouped_without_list.
Qed.

(** C6, as amended.  When some selected field carries an aggregation, the
    text of an accepted query has, between the WHERE clause and the ORDER
    BY clause, a GROUP BY clause whose terms are, in order, the qualified
    names of the selected fields that carry no aggregation, resolve to a
    declared entity and field, and have an entry with the same entity id
    and field id in the explicit group-by list; the clause is left out
    when there is no such field.  With the explicit list absent or empty
    there is none: the text has no GROUP BY clause, and none of its lines
    starts with [GROUP BY]. *)
Theorem group_by_terms registry repr_str str_upper fromisoformat now config sql params :
  has_aggregation config = true ->
  build_query registry repr_str str_upper fromisoformat now config = OK (sql, params) ->
  sql = Py.join Py.NL
          ([select_line registry config; from_line registry config]
           ++ join_lines registry str_upper config ++ where_lines registry config
           ++ optional "GROUP BY " ", "
                (map (group_term registry)
                   (List.filter (grouped registry config) (selected_fields config)))
           ++ order_lines registry config ++ [limit_line config])
  /\ (forall sf, grouped registry config sf = true
                 <-> sf_aggregation sf = None
                     /\ is_in_group_by (group_by config) sf = true
                     /\ is_Some (resolve registry (sf_entity_id sf) (sf_field_id sf)))
  /\ (group_by config = None \/ group_by config = Some [] ->
      sql = Py.join Py.NL
              ([select_line registry config; from_line registry config]
               ++ join_lines registry str_upper config ++ where_lines registry config
               ++ order_lines registry config ++ [limit_line config])
      /\ Forall (fun line => String.prefix "GROUP BY" line = false)
           ([select_line registry config; from_line registry config]
            ++ join_lines registry str_upper config ++ where_lines registry config
            ++ order_lines registry config ++ [limit_line config])).
Proof.
  intros Hagg (Hsql & _)%build_query_output.
  assert (sql = Py.join Py.NL
                  ([select_line registry config; from_line registry config]
                   ++ join_lines registry str_upper config ++ where_lines registry config
                   ++ optional "GROUP BY " ", "
                        (map (group_term registry)
                           (List.filter (grouped registry config) (selected_fields config)))
                   ++ order_lines registry config ++ [limit_line config])) as Htext.
  { rewrite Hsql. unfold query_text, query_lines, group_lines, group_terms. by rewrite Hagg. }
  split_and!; [exact Htext| |].
  - intros sf. unfold grouped. rewrite !andb_true_iff, !bool_decide_eq_true. tauto.
  - intros Hgb. split; [|apply ungrouped_lines].
    rewrite Htext. by rewrite (not_grouped_filter registry config Hgb).
Qed.

Lemma group_by_terms_witness :
  has_aggregation config_grouped = true
  /\ build_query ENTITIES sample_repr sample_upper sample_fromisoformat sample_now config_grouped
     = OK (grouped_sql, [])
  /\ List.filter (grouped ENTITIES config_grouped) (selected_fields config_grouped)
     = [plain_field "vehicles" "model"]
  /\ grouped_sql
     = Py.join Py.NL
         ([select_line ENTITIES config_grouped; from_line ENTITIES config_grouped]
          ++ join_lines ENTITIES sample_upper config_grouped
          ++ where_lines ENTITIES config_grouped
          ++ optional "GROUP BY " ", "
               (map (group_term ENTITIES)
                  (List.filter (grouped ENTITIES config_grouped)
                     (selected_fields config_grouped)))
          ++ order_lines ENTITIES config_grouped ++ [limit_line config_grouped]).
Proof.
  assert (has_aggregation config_grouped = true) as H by reflexivity.
  refine (conj H (conj build_grouped (conj _ _))).
  - vm_compute. reflexivity.
  - exact (proj1 (group_by_terms ENTITIES sample_repr sample_upper sample_fromisoformat
                    sample_now config_grouped grouped_sql [] H build_grouped)).
Defined.

(* ===================================================================== *)
(** ** The output, clause by clause *)
(* ===================================================================== *)

(** X6.  An accepted configuration is compiled to the query of the
    specification.  The text has these lines, in this order: the SELECT
    list, one item per selected field that resolves, each the qualified
    column or its aggregate followed by [AS] and the alias; FROM with the
    schema and table of the primary entity; the JOIN clauses of the join
    steps; WHERE with the predicates of the filters that resolve, numbered
    from [$1], then those of the time range, when there is a predicate;
    GROUP BY with the grouped fields, when there is one; ORDER BY with one
    term per sort spec that resolves, descending only when the direction
    lower-cased is [desc], when there is a term; and LIMIT.  The
    parameters are the values of the filters that resolve, in order,
    followed by the bounds of the time range. *)
Theorem query_text_clauses registry repr_str str_upper fromisoformat now config sql params :
  build_query registry repr_str str_upper fromisoformat now config = OK (sql, params) ->
  sql = query_text registry str_upper config
  /\ params = query_params registry repr_str fromisoformat now config.
Proof. intros (Hsql & Hparams & _)%build_query_output. by split. Qed.

Lemma query_text_clauses_witness :
  build_query ENTITIES sample_repr sample_upper sample_fromisoformat sample_now config_fleet
  = OK (fleet_sql, fleet_params)
  /\ fleet_sql = query_text ENTITIES sample_upper config_fleet
  /\ fleet_params = query_params ENTITIES sample_repr sample_fromisoformat sample_now config_fleet
  /\ query_lines ENTITIES sample_upper config_fleet
     = ["SELECT vehicles.vehicle_label AS vehicles_vehicle_label, devices.device_imei AS devices_device_imei";
        "FROM raw_business_data.vehicles";
        "LEFT JOIN raw_business_data.objects ON vehicles.object_id = objects.object_id";
        "LEFT JOIN raw_business_data.devices ON objects.device_id = devices.device_id";
        "WHERE objects.is_deleted = $1 AND objects.object_id IN ($2, $3, $4) AND objects.object_label ILIKE $5 AND objects.object_id BETWEEN $6 AND $7 AND vehicles.record_added_at >= $8 AND vehicles.record_added_at <= $9";
        "ORDER BY vehicles.model DESC";
        "LIMIT 10000"].
Proof.
  refine (conj build_fleet _).
  pose proof (query_text_clauses ENTITIES sample_repr sample_upper sample_fromisoformat
                sample_now config_fleet fleet_sql fleet_params build_fleet) as [H1 H2].
  refine (conj H1 (conj H2 _)). vm_compute. reflexivity.
Defined.

(** X7.  The JOIN clauses of an accepted query are those of the join
    steps: for each required entity in turn, the steps of its join path
    from the primary entity, without the steps towards an entity that is
    in the query already.  The steps grow a tree from the primary entity:
    every step joins a registered entity that is not in the query yet, on
    the fields of a relationship between it and an entity that is in the
    query already, the primary entity or one joined by an earlier step;
    and every registered entity that a selected field, a filter or a sort
    spec names is the primary entity or joined by some step. *)
Theorem joins_span_references registry repr_str str_upper fromisoformat now config sql params :
  build_query registry repr_str str_upper fromisoformat now config = OK (sql, params) ->
  sql = Py.join Py.NL
          ([select_line registry config; from_line registry config]
           ++ map (join_clause registry str_upper) (join_steps registry config)
           ++ where_lines registry config ++ group_lines registry config
           ++ order_lines registry config ++ [limit_line config])
  /\ join_tree registry (primary_entity config) (join_steps registry config)
  /\ (forall k, k ∈ referenced config -> registered registry k ->
        k ∈ primary_entity config :: map step_to (join_steps registry config)).
Proof.
  intros (Hsql & _ & Htree & Hall)%build_query_output.
  split_and!; [done|done|]. intros k Hk Hreg. by apply Hall.
Qed.

Lemma joins_span_references_witness :
  build_query ENTITIES sample_repr sample_upper sample_fromisoformat sample_now config_fleet
  = OK (fleet_sql, fleet_params)
  /\ join_steps ENTITIES config_fleet
     = [("vehicles", "objects", "object_id", "object_id", "left");
        ("objects", "devices", "device_id", "device_id", "left")]
  /\ join_tree ENTITIES "vehicles" (join_steps ENTITIES config_fleet)
  /\ "devices" ∈ "vehicles" :: map step_to (join_steps ENTITIES config_fleet).
Proof.
  refine (conj build_fleet (conj _ _)); [vm_compute; reflexivity|].
  destruct (joins_span_references ENTITIES sample_repr sample_upper sample_fromisoformat
              sample_now config_fleet fleet_sql fleet_params build_fleet)
    as (Hsql & Htree & Hspan).
  refine (conj Htree (Hspan "devices" _ _)).
  - apply list_elem_of_In. simpl. tauto.
  - exists devices_entity. reflexivity.
Defined.

(* ===================================================================== *)
(** ** Placeholders and parameters *)
(* ===================================================================== *)

(** C2.  For every configuration that [build_query] accepts: the
    placeholders that appear in the query text are exactly [$1], ...,
    [$n] in this order, [n] being the length of the parameter array, so
    every [$k] of the text has [1 <= k <= n]; and the parameter array
    holds, in the order of their placeholders, the values bound by the
    filter conditions that resolve, followed by the time-range bounds,
    the start before the end, each the ISO string of the [datetime] that
    the resolver returned, so the value of the [k]-th placeholder sits at
    index [k - 1].  The values are in the array only: every accepted
    configuration of the same shape, that is, one that differs in the
    filter values (a list keeping its length) and in the time-range values
    (each bound staying present or absent) at most, compiles to the same
    text, at any clock reading. *)
Theorem placeholders_aligned repr_str str_upper fromisoformat now config sql params :
  build_query ENTITIES repr_str str_upper fromisoformat now config = OK (sql, params) ->
  placeholders sql = map Some (seq 1 (length params))
  /\ params = concat (map (bound_values ENTITIES repr_str) (filters config))
              ++ time_values ENTITIES fromisoformat now config
  /\ (length (time_values ENTITIES fromisoformat now config) <= 2)%nat
  /\ (forall now' config' sql' params',
        same_shape config config' ->
        build_query ENTITIES repr_str str_upper fromisoformat now' config' = OK (sql', params') ->
        sql' = sql).
Proof.
  intros Hbuild.
  destruct (alignment_over_registry ENTITIES repr_str str_upper fromisoformat now config
              sql params shipped_registry_plain Hbuild) as (Hscan & _ & Hshape).
  apply build_query_output in Hbuild as (_ & Hparams & _).
  split_and!; [done|exact Hparams| |exact Hshape].
  unfold time_values. destruct (time_scope config) as [[[k tf] range]|]; simpl; [|lia].
  destruct (resolve ENTITIES k tf); simpl; [|lia].
  destruct (_calculate_time_range fromisoformat now range) as [[[t1|] [t2|]]|]; simpl; lia.
Qed.

Lemma placeholders_aligned_witness :
  build_query ENTITIES sample_repr sample_upper sample_fromisoformat sample_now config_fleet
  = OK (fleet_sql, fleet_params)
  /\ placeholders fleet_sql = map Some (seq 1 (length fleet_params))
  /\ fleet_params
     = concat (map (bound_values ENTITIES sample_repr) (filters config_fleet))
       ++ time_values ENTITIES sample_fromisoformat sample_now config_fleet
  /\ time_values ENTITIES sample_fromisoformat sample_now config_fleet
     = [VStr "2024-02-22T13:05:09.000120"; VStr "2024-02-29T13:05:09.000120"].
Proof.
  refine (conj build_fleet _).
  pose proof (placeholders_aligned sample_repr sample_upper sample_fromisoformat
                sample_now config_fleet fleet_sql fleet_params build_fleet) as H.
  refine (conj (proj1 H) (conj (proj1 (proj2 H)) _)). vm_compute. reflexivity.
Defined.
Lemma join_snoc sep l x :
  l <> [] -> Py.join sep (l ++ [x]) = Py.join sep l +:+ sep +:+ x.
Proof.
  induction l as [|y l IH]; [done|]. intros _.
  destruct l as [|z l]; [done|].
  change (Py.join sep ((y :: z :: l) ++ [x])) with (y +:+ sep +:+ Py.join sep ((z :: l) ++ [x])).
  rewrite IH by done.
  change (Py.join sep (y :: z :: l)) with (y +:+ sep +:+ Py.join sep (z :: l)).
  by rewrite !app_assoc_s.
Qed.

Lemma assemble_limit select_parts from_clause joins conds groups orders lim :
  exists body,
    assemble select_parts from_clause joins conds groups orders lim
    = body +:+ Py.NL +:+ "LIMIT " +:+ Py.str_int (Z.min lim 10000).
Proof.
  unfold assemble.
  eexists. rewrite !app_assoc. rewrite join_snoc; [done|].
  by destruct joins.
Qed.

(** X8.  The text of every accepted query ends with the line
    [LIMIT min(limit, 10000)]; for a limit that the request validator
    lets through, that is the limit itself. *)
Theorem limit_clause registry repr_str str_upper fromisoformat now config sql params :
  build_query registry repr_str str_upper fromisoformat now config = OK (sql, params) ->
  (exists body,
     sql = body +:+ Py.NL +:+ "LIMIT " +:+ Py.str_int (Z.min (limit config) 10000))
  /\ (forall v, validate_limit (limit config) = OK v ->
        v = limit config /\ 1 <= v <= 10000
        /\ exists body, sql = body +:+ Py.NL +:+ "LIMIT " +:+ Py.str_int v).
Proof.
  intros (primary & steps & conds & _ & -> & _)%build_query_structure.
  split; [apply assemble_limit|].
  intros v. unfold validate_limit.
  destruct (Z.ltb_spec (limit config) 1); [done|].
  destruct (limit config >? 10000) eqn:E; [done|]. intros [= <-].
  assert (limit config <= 10000) as Hle by lia.
  split_and!; [done|lia|lia|].
  match goal with
  | |- exists body, assemble ?a ?b ?c ?d ?e ?f ?g = _ =>
      destruct (assemble_limit a b c d e f g) as [body Hbody]
  end.
  exists body. by rewrite Hbody, Z.min_l.
Qed.

Lemma limit_clause_witness :
  build_query ENTITIES sample_repr sample_upper sample_fromisoformat sample_now config_last_week
  = OK (last_week_sql,
        [VStr "2024-02-22T13:05:09.000120"; VStr "2024-02-29T13:05:09.000120"])
  /\ validate_limit (limit config_last_week) = OK 1000
  /\ exists body, last_week_sql = body +:+ Py.NL +:+ "LIMIT " +:+ Py.str_int 1000.
Proof.
  refine (conj build_last_week (conj eq_refl _)).
  exact (proj2 (proj2 (proj2 (limit_clause ENTITIES sample_repr sample_upper sample_fromisoformat sample_now
                                 config_last_week _ _ build_last_week) 1000 eq_refl))).
Defined.

(* ===================================================================== *)
(** ** Exceptions and acceptance *)
(* ===================================================================== *)

Lemma for_each_total {A S : Type} (I : S -> Prop) (body : S -> A -> result S) l s :
  (forall s x, x ∈ l -> I s -> exists s', body s x = OK s' /\ I s') ->
  I s -> exists s', for_each body l s = OK s' /\ I s'.
Proof.
  revert s. induction l as [|x l IH]; simpl; intros s Hbody Hs; [by eexists|].
  destruct (Hbody s x ltac:(left) Hs) as (s1 & -> & Hs1). simpl.
  apply IH; [|done]. intros s0 y Hy. apply Hbody. by right.
Qed.

Lemma for_each_Raise {A S : Type} (I : S -> Prop) (body : S -> A -> result S) l s e :
  (forall s x s', I s -> body s x = OK s' -> I s') ->
  I s -> for_each body l s = Raise e ->
  exists s0 x, I s0 /\ x ∈ l /\ body s0 x = Raise e.
Proof.
  intros Hstep. revert s. induction l as [|x l IH]; simpl; intros s Hs H; [done|].
  destruct (body s x) as [s1|e1] eqn:E; simpl in H.
  - destruct (IH s1 (Hstep _ _ _ Hs E) H) as (s0 & y & ? & ? & ?).
    exists s0, y. split_and!; [done|by right|done].
  - injection H as ->. exists s, x. split_and!; [done|left|done].
Qed.

Lemma sanitize_cases name :
  (Py.re_match_identifier name = true /\ _sanitize_identifier name = OK name)
  \/ (Py.re_match_identifier name = false
      /\ _sanitize_identifier name = Raise (ValueError ("Invalid identifier: " +:+ name))).
Proof. unfold _sanitize_identifier. destruct (Py.re_match_identifier name); auto. Qed.

Lemma sanitize_Raise name e :
  _sanitize_identifier name = Raise e ->
  exists bad, e = ValueError ("Invalid identifier: " +:+ bad) /\ Py.re_match_identifier bad = false.
Proof.
  destruct (sanitize_cases name) as [[_ ->]|[Hbad ->]]; [done|]. intros [= <-]. eauto.
Qed.

Lemma bind_Raise {A B : Type} (m : result A) (f : A -> result B) e :
  (m ≫= f) = Raise e -> m = Raise e \/ exists a, m = OK a /\ f a = Raise e.
Proof. destruct m as [a|e']; simpl; [eauto|]. intros [= ->]. by left. Qed.

Lemma qualified_Raise ent f a e :
  _get_qualified_field_name ent f a = Raise e ->
  exists bad, e = ValueError ("Invalid identifier: " +:+ bad) /\ Py.re_match_identifier bad = false.
Proof.
  unfold _get_qualified_field_name. intros H.
  apply bind_Raise in H as [H|(x & _ & H)]; [by apply sanitize_Raise in H|].
  apply bind_Raise in H as [H|(y & _ & H)]; [by apply sanitize_Raise in H|done].
Qed.

Lemma qualified_total ent f a :
  Py.re_match_identifier a = true -> Py.re_match_identifier (f_name f) = true ->
  _get_qualified_field_name ent f a = OK (a +:+ "." +:+ f_name f).
Proof.
  intros Ha Hf. unfold _get_qualified_field_name, _sanitize_identifier. by rewrite Ha, Hf.
Qed.

(** *** Steps of a loop that cannot fail but on an identifier *)

Section Errors.
Variable registry : list (string * Entity).
Variable repr_str : string -> string.
Variable str_upper : string -> string.
Variable fromisoformat : string -> result Datetime.datetime.

Lemma names_table_aliases used :
  names_table used (map (fun item : string * Entity => (item.1, table_name item.2)) used).
Proof. intros k e Hk. by rewrite dict_get_map, Hk. Qed.

Lemma select_step_Raise used ta has_agg gb st sf e :
  names_table used ta ->
  select_step used ta has_agg gb st sf = Raise e -> bad_identifier e.
Proof.
  intros Hta. destruct st as [parts groups]. unfold select_step.
  destruct (Py.dict_get (sf_entity_id sf) used) as [ent|] eqn:He; [|done].
  destruct (find_field ent (sf_field_id sf)) as [f|]; [|done].
  unfold Py.dict_item. rewrite (Hta _ _ He). simpl.
  intros H. apply bind_Raise in H as [H|(fn & _ & H)]; [by apply qualified_Raise in H|].
  by destruct (sf_aggregation sf).
Qed.

Lemma join_step_Raise st step e :
  join_step registry str_upper st step = Raise e -> bad_identifier e.
Proof.
  destruct st as [clauses joined]. destruct step as [[[[a b] ff] tf] jt]. unfold join_step.
  destruct (decide (b ∈ joined)); [done|].
  destruct (get_entity registry b) as [eb|]; [|done].
  destruct (get_entity registry a) as [ea|]; [|done].
  intros H.
  repeat (apply bind_Raise in H as [H|(? & _ & H)]; [by apply sanitize_Raise in H|]).
  done.
Qed.

Lemma where_step_Raise used ta st flt e :
  names_table used ta ->
  where_step repr_str used ta st flt = Raise e -> bad_identifier e.
Proof.
  intros Hta. destruct st as [conds [params idx]]. unfold where_step.
  destruct (Py.dict_get (fc_entity_id flt) used) as [ent|] eqn:He; [|done].
  destruct (find_field ent (fc_field_id flt)) as [f|]; [|done].
  unfold Py.dict_item. rewrite (Hta _ _ He). simpl.
  intros H. apply bind_Raise in H as [H|([cond pst] & _ & H)]; [|done].
  unfold _build_filter_condition in H.
  apply bind_Raise in H as [H|(fn & _ & H)]; [by apply qualified_Raise in H|done].
Qed.

Lemma order_step_Raise used ta parts sort e :
  names_table used ta ->
  order_step used ta parts sort = Raise e -> bad_identifier e.
Proof.
  intros Hta. unfold order_step.
  destruct (Py.dict_get (sc_entity_id sort) used) as [ent|] eqn:He; [|done].
  destruct (find_field ent (sc_field_id sort)) as [f|]; [|done].
  unfold Py.dict_item. rewrite (Hta _ _ He). simpl.
  intros H. apply bind_Raise in H as [H|(fn & _ & H)]; [by apply qualified_Raise in H|done].
Qed.

Lemma mk_timedelta_Raise us e : Datetime.mk_timedelta us = Raise e -> e = OverflowError.
Proof. destruct (mk_timedelta_cases us) as [-> | ->]; [done|]. by intros [= <-]. Qed.

Lemma parse_bound_Raise date e :
  parse_bound fromisoformat date = Raise e ->
  exists s, date = Some s /\ fromisoformat s = Raise e.
Proof.
  unfold parse_bound. destruct date as [[|c s]|]; simpl; try done.
  intros [H|(t & _ & H)]%bind_Raise; [|done]. eauto.
Qed.

Lemma calculate_Raise now range e :
  _calculate_time_range fromisoformat now range = Raise e ->
  (tr_type range <> "absolute" /\ e = OverflowError)
  \/ (tr_type range = "absolute"
      /\ exists s, (start_date range = Some s \/ end_date range = Some s)
                   /\ fromisoformat s = Raise e).
Proof.
  unfold _calculate_time_range.
  destruct (String.eqb (tr_type range) "absolute") eqn:E.
  - apply String.eqb_eq in E. intros H. right. split; [done|].
    apply bind_Raise in H as [H|(s0 & _ & H)].
    { apply parse_bound_Raise in H as (s & ? & ?). eauto. }
    apply bind_Raise in H as [H|(e0 & _ & H)]; [|done].
    apply parse_bound_Raise in H as (s & ? & ?). eauto.
  - apply String.eqb_neq in E. intros H. left. split; [done|].
    unfold Datetime.timedelta_hours, Datetime.timedelta_days, Datetime.timedelta_weeks in H.
    repeat (apply bind_Raise in H as [H|(? & _ & H)]; [by apply mk_timedelta_Raise in H|]).
    apply bind_Raise in H as [H|(? & _ & H)]; [|done].
    unfold Datetime.sub in H. by destruct (Datetime.in_range _); [|injection H as <-].
Qed.

Lemma time_filter_Raise now config ta st e :
  time_filter registry fromisoformat now config ta st = Raise e ->
  bad_identifier e \/ build_error registry fromisoformat config e.
Proof.
  unfold time_filter.
  destruct (time_range config) as [range|] eqn:Hrange; [|done].
  destruct (Py.truthy (time_field config)) as [tf|]; [|done].
  destruct (get_entity registry _) as [te|]; [|done].
  destruct (find_field te tf) as [f|]; [|done].
  intros H. apply bind_Raise in H as [H|([start_ end_] & _ & H)].
  { right. apply calculate_Raise in H as [[Hrel ->]|(Habs & s & Hs & He)].
    - by apply (range_overflow _ _ _ range).
    - by apply (bound_unparsed _ _ _ range s). }
  apply bind_Raise in H as [H|(tal & _ & H)].
  { unfold Py.dict_item in H.
    match type of H with
    | match Py.dict_get ?k ?d with _ => _ end = _ =>
        assert (is_Some (Py.dict_get k d)) as [v Hv]; [|by rewrite Hv in H]
    end.
    unfold Py.dict_mem. destruct (Py.dict_get _ ta) eqn:Hta; [by eexists|].
    rewrite dict_get_snoc, Hta, String.eqb_refl. by eexists. }
  apply bind_Raise in H as [H|(fn & _ & H)]; [|done].
  left. by apply qualified_Raise in H.
Qed.

Lemma collect_used_keys config primary k e :
  (k, e) ∈ collect_used_entities registry config primary ->
  k ∈ referenced config.
Proof.
  unfold collect_used_entities, referenced.
  assert (forall ids used k e,
            (k, e) ∈ fold_left (use_entity registry) ids used ->
            (k, e) ∈ used \/ k ∈ ids) as Hfold.
  { clear. induction ids as [|i ids IH]; simpl; intros used k e H; [by left|].
    apply IH in H as [H|H]; [|right; by right].
    unfold use_entity in H. destruct (Py.dict_mem i used); [by left|].
    destruct (get_entity registry i) as [ei|]; [|by left].
    apply elem_of_app in H as [H|H]; [by left|].
    apply list_elem_of_singleton in H as [= -> ->]. right. left. }
  intros H. rewrite elem_of_cons, !elem_of_app.
  apply Hfold in H as [H|H]; [|auto].
  apply Hfold in H as [H|H]; [|auto].
  apply Hfold in H as [H|H]; [|auto].
  apply list_elem_of_singleton in H as [= -> ->]. by left.
Qed.

Lemma join_entity_Raise config primary st item e :
  item ∈ collect_used_entities registry config primary ->
  get_entity registry (primary_entity config) = Some primary ->
  join_entity registry str_upper (primary_entity config) st item = Raise e ->
  bad_identifier e \/ build_error registry fromisoformat config e.
Proof.
  destruct item as [k ent]. intros Hin Hp. unfold join_entity.
  destruct (String.eqb k (primary_entity config)); [done|].
  destruct (_find_join_path registry (primary_entity config) k ∅) as [path|] eqn:Hpath.
  - intros H. left.
    apply (for_each_Raise (fun _ => True)) in H as (s0 & x & _ & _ & H); [|done..].
    by apply join_step_Raise in H.
  - intros [= <-]. right. apply cannot_join; [|done].
    apply (collect_used_registry registry config primary Hp) in Hin.
    by apply dict_get_is_Some in Hin.
Qed.

Lemma bad_identifier_error config e :
  bad_identifier e -> build_error registry fromisoformat config e.
Proof. intros (bad & -> & Hbad). by constructor. Qed.

(** The exceptions of [build_query], on any registry. *)
Lemma build_query_raises now config e :
  build_query registry repr_str str_upper fromisoformat now config = Raise e ->
  build_error registry fromisoformat config e.
Proof.
  unfold build_query.
  destruct (get_entity registry (primary_entity config)) as [primary|] eqn:Hp;
    [|intros [= <-]; by constructor].
  pose proof (collect_used_lookup registry config primary) as Hlook.
  set (used := collect_used_entities registry config primary) in *.
  set (ta := map _ used).
  pose proof (names_table_aliases used) as Hta. fold ta in Hta.
  intros H. apply bind_Raise in H as [H|([parts groups] & Hsel & H)].
  { apply (for_each_Raise (fun _ => True)) in H as (s0 & x & _ & _ & H); [|done..].
    eapply bad_identifier_error, select_step_Raise; eauto. }
  apply (select_loop_items registry) in Hsel as [Hitems _];
    [|intros sf Hsf; apply Hlook; [done|by apply referenced_selected]|done].
  simpl in Hitems. subst parts.
  destruct (List.filter _ (selected_fields config)) as [|sf0 sfs] eqn:Hfilter.
  { simpl in H. injection H as <-. apply nothing_selected. intros sf Hsf.
    destruct (resolves registry (sf_entity_id sf) (sf_field_id sf)) eqn:E; [|done].
    assert (sf ∈ List.filter (fun sf => resolves registry (sf_entity_id sf) (sf_field_id sf))
                   (selected_fields config)) as Hin.
    { apply list_elem_of_In, filter_In. split; [by apply list_elem_of_In|done]. }
    rewrite Hfilter in Hin. by apply elem_of_nil in Hin. }
  simpl in H.
  apply bind_Raise in H as [H|(sn & _ & H)];
    [apply sanitize_Raise in H; by apply bad_identifier_error|].
  apply bind_Raise in H as [H|(tn & _ & H)];
    [apply sanitize_Raise in H; by apply bad_identifier_error|].
  apply bind_Raise in H as [H|([joins joined] & _ & H)].
  { apply (for_each_Raise (fun _ => True)) in H as (s0 & x & _ & Hx & H); [|done..].
    apply (join_entity_Raise config primary) in H as [H|H]; [|done..].
    by apply bad_identifier_error. }
  apply bind_Raise in H as [H|(wst & _ & H)].
  { apply (for_each_Raise (fun _ => True)) in H as (s0 & x & _ & _ & H); [|done..].
    eapply bad_identifier_error, where_step_Raise; eauto. }
  apply bind_Raise in H as [H|([ta' [conds [ps idx]]] & Htf & H)].
  { apply time_filter_Raise in H as [H|H]; [by apply bad_identifier_error|done]. }
  apply bind_Raise in H as [H|(orders & _ & H)]; [|done].
  apply (for_each_Raise (fun _ => True)) in H as (s0 & x & _ & _ & H); [|done..].
  eapply bad_identifier_error, order_step_Raise; [|exact H].
  intros k ent Hk. eapply time_filter_aliases; [exact Htf|]. by apply Hta.
Qed.
End Errors.

(** X9.  The exceptions of [build_query], on any registry: the primary
    entity is unknown; no selected field resolves; a name of the registry
    does not match the identifier pattern; a registered entity that the
    configuration refers to has no join path from the primary entity; a
    relative time range overflows; or [datetime.fromisoformat] raises on
    a bound of an absolute time range.  There is no other: in particular
    the lookups in the alias table never raise a [KeyError]. *)
Theorem build_query_exceptions registry repr_str str_upper fromisoformat now config e :
  build_query registry repr_str str_upper fromisoformat now config = Raise e ->
  build_error registry fromisoformat config e.
Proof. apply build_query_raises. Qed.

Lemma build_query_exceptions_witness :
  build_query ENTITIES sample_repr sample_upper sample_fromisoformat sample_now
    (select_only "objects" [plain_field "objects" "object_id"; plain_field "tags" "tag_id"])
  = Raise (ValueError ("Cannot join entity 'tags' to primary entity 'objects'. "
                       +:+ "No relationship path found. "
                       +:+ "Please select fields from related entities only."))
  /\ build_error ENTITIES sample_fromisoformat
       (select_only "objects" [plain_field "objects" "object_id"; plain_field "tags" "tag_id"])
       (ValueError ("Cannot join entity 'tags' to primary entity 'objects'. "
                    +:+ "No relationship path found. "
                    +:+ "Please select fields from related entities only.")).
Proof.
  assert (build_query ENTITIES sample_repr sample_upper sample_fromisoformat sample_now
            (select_only "objects" [plain_field "objects" "object_id"; plain_field "tags" "tag_id"])
          = Raise (ValueError ("Cannot join entity 'tags' to primary entity 'objects'. "
                               +:+ "No relationship path found. "
                               +:+ "Please select fields from related entities only."))) as H
    by (vm_compute; reflexivity).
  exact (conj H (build_query_exceptions _ _ _ _ _ _ _ H)).
Defined.

Section Accepts.

Variable registry : list (string * Entity).

Variable repr_str : string -> string.

Variable str_upper : string -> string.

Variable fromisoformat : string -> result Datetime.datetime.

Hypothesis Hnames : well_named registry = true.

Hypothesis Hkeys : NoDup registry.*1.

Lemma well_named_entity k e :
  (k, e) ∈ registry ->
  Py.re_match_identifier (schema_name e) = true
  /\ Py.re_match_identifier (table_name e) = true
  /\ (forall f, f ∈ fields e -> Py.re_match_identifier (f_name f) = true)
  /\ (forall rel, rel ∈ relationships e ->
        Py.re_match_identifier (source_field rel) = true
        /\ Py.re_match_identifier (target_field rel) = true).
Proof.
  intros Hin. unfold well_named in Hnames. rewrite forallb_forall in Hnames.
  apply list_elem_of_In, Hnames in Hin. simpl in Hin.
  apply andb_true_iff in Hin as [[[Hs Ht]%andb_true_iff Hf]%andb_true_iff Hr].
  rewrite forallb_forall in Hf. rewrite forallb_forall in Hr.
  split_and!; [done|done| |].
  - intros f Hfin. by apply Hf, list_elem_of_In.
  - intros rel Hrel. by apply andb_true_iff, Hr, list_elem_of_In.
Qed.

Lemma well_named_get k e :
  get_entity registry k = Some e ->
  Py.re_match_identifier (schema_name e) = true
  /\ Py.re_match_identifier (table_name e) = true
  /\ (forall f, f ∈ fields e -> Py.re_match_identifier (f_name f) = true)
  /\ (forall rel, rel ∈ relationships e ->
        Py.re_match_identifier (source_field rel) = true
        /\ Py.re_match_identifier (target_field rel) = true).
Proof. intros H. by apply dict_get_elem, well_named_entity in H. Qed.

Lemma sanitize_total name :
  Py.re_match_identifier name = true -> _sanitize_identifier name = OK name.
Proof. intros H. unfold _sanitize_identifier. by rewrite H. Qed.

Lemma qualified_named used k e fid f :
  from_registry registry used ->
  Py.dict_get k used = Some e -> find_field e fid = Some f ->
  _get_qualified_field_name e f (table_name e) = OK (table_name e +:+ "." +:+ f_name f).
Proof.
  intros Hfrom Hk Hf. apply Hfrom, well_named_get in Hk as (_ & Ht & Hfs & _).
  apply find_field_elem in Hf as [Hin _]. apply qualified_total; auto.
Qed.

Lemma select_step_total used ta has_agg gb st sf :
  from_registry registry used -> names_table used ta ->
  exists st', select_step used ta has_agg gb st sf = OK st'.
Proof.
  intros Hfrom Hta. destruct st as [parts groups]. unfold select_step.
  destruct (Py.dict_get (sf_entity_id sf) used) as [e|] eqn:He; [|by eexists].
  destruct (find_field e (sf_field_id sf)) as [f|] eqn:Hf; [|by eexists].
  unfold Py.dict_item. rewrite (Hta _ _ He). simpl.
  rewrite (qualified_named used _ e _ f Hfrom He Hf). simpl.
  destruct (sf_aggregation sf); by eexists.
Qed.

Lemma where_step_total used ta st flt :
  from_registry registry used -> names_table used ta ->
  exists st', where_step repr_str used ta st flt = OK st'.
Proof.
  intros Hfrom Hta. destruct st as [conds [params idx]]. unfold where_step.
  destruct (Py.dict_get (fc_entity_id flt) used) as [e|] eqn:He; [|by eexists].
  destruct (find_field e (fc_field_id flt)) as [f|] eqn:Hf; [|by eexists].
  unfold Py.dict_item. rewrite (Hta _ _ He). simpl.
  unfold _build_filter_condition.
  rewrite (qualified_named used _ e _ f Hfrom He Hf). simpl.
  match goal with |- exists st', (let '(c, p) := ?x in _) = _ => destruct x end.
  by eexists.
Qed.

Lemma order_step_total used ta parts sort :
  from_registry registry used -> names_table used ta ->
  exists parts', order_step used ta parts sort = OK parts'.
Proof.
  intros Hfrom Hta. unfold order_step.
  destruct (Py.dict_get (sc_entity_id sort) used) as [e|] eqn:He; [|by eexists].
  destruct (find_field e (sc_field_id sort)) as [f|] eqn:Hf; [|by eexists].
  unfold Py.dict_item. rewrite (Hta _ _ He). simpl.
  rewrite (qualified_named used _ e _ f Hfrom He Hf). simpl. by eexists.
Qed.

Lemma step_declared_named step :
  step_declared registry step ->
  Py.re_match_identifier step.1.1.2 = true /\ Py.re_match_identifier step.1.2 = true.
Proof.
  destruct step as [[[[a b] ff] tf] jt]. simpl.
  intros [(e & rel & He & Hrel & _ & -> & -> & _)|(e & rel & Hin & Hrel & _ & -> & -> & _)].
  - apply well_named_get in He as (_ & _ & _ & Hr). by apply Hr.
  - apply well_named_entity in Hin as (_ & _ & _ & Hr). destruct (Hr rel Hrel). by split.
Qed.

Lemma join_step_total st step :
  step_declared registry step -> exists st', join_step registry str_upper st step = OK st'.
Proof.
  intros Hdecl. pose proof (step_declared_named step Hdecl) as [Hff Htf].
  destruct st as [clauses joined]. destruct step as [[[[a b] ff] tf] jt]. unfold join_step.
  simpl in Hff, Htf.
  destruct (decide (b ∈ joined)); [by eexists|].
  destruct (get_entity registry b) as [eb|] eqn:Heb; [|by eexists].
  destruct (get_entity registry a) as [ea|] eqn:Hea; [|by eexists].
  apply well_named_get in Heb as (Hs & Ht & _). apply well_named_get in Hea as (_ & Hta & _).
  rewrite !sanitize_total by done. simpl. by eexists.
Qed.

Lemma chain_declared a path c :
  chain registry a path c -> Forall (step_declared registry) path.
Proof. induction 1; constructor; auto. Qed.

Lemma join_entity_total root st item :
  connected registry root item.1 ->
  exists st', join_entity registry str_upper root st item = OK st'.
Proof.
  destruct item as [k e]. simpl. intros Hconn. unfold join_entity.
  destruct (String.eqb k root); [by eexists|].
  destruct (find_join_path_finds registry root k Hkeys Hconn) as [path Hpath].
  rewrite Hpath. apply find_join_path_sound in Hpath as (Hchain%chain_declared & _).
  destruct (for_each_total (fun _ => True) (join_step registry str_upper) path st) as (st' & ? & _);
    [|done|by eexists].
  intros s x Hx _. rewrite Forall_forall in Hchain.
  destruct (join_step_total s x (Hchain x Hx)) as [s' ?]. by exists s'.
Qed.

Lemma time_filter_total now config ta st :
  (forall k tf range,
     time_scope config = Some (k, tf, range) -> resolves registry k tf = true ->
     exists bounds, _calculate_time_range fromisoformat now range = OK bounds) ->
  (forall k v, Py.dict_get k ta = Some v -> exists e, get_entity registry k = Some e /\ v = table_name e) ->
  exists r, time_filter registry fromisoformat now config ta st = OK r.
Proof.
  intros Htime Hta. unfold time_filter, time_scope in *.
  destruct (time_range config) as [range|]; [|by eexists].
  destruct (Py.truthy (time_field config)) as [tf|]; [|by eexists].
  set (k := match Py.truthy (time_field_entity config) with
            | Some e => e | None => primary_entity config end).
  assert (default (primary_entity config) (Py.truthy (time_field_entity config)) = k) as Hk
    by (unfold k; by destruct (Py.truthy _)).
  rewrite Hk in Htime.
  destruct (get_entity registry k) as [te|] eqn:Hte; [|by eexists].
  destruct (find_field te tf) as [f|] eqn:Hf; [|by eexists].
  destruct (Htime k tf range eq_refl) as [[start_ end_] ->].
  { unfold resolves, resolve. rewrite Hte. simpl. rewrite Hf. by apply bool_decide_eq_true. }
  simpl. unfold Py.dict_item, Py.dict_mem.
  assert (exists v, Py.dict_get k (if match Py.dict_get k ta with Some _ => true | None => false end
                                 then ta else ta ++ [(k, table_name te)]) = Some v
                    /\ v = table_name te) as (v & -> & ->).
  { destruct (Py.dict_get k ta) as [v|] eqn:Hv.
    - exists v. split; [done|]. destruct (Hta _ _ Hv) as (e & He & ->). congruence.
    - exists (table_name te). by rewrite dict_get_snoc, Hv, String.eqb_refl. }
  simpl. apply well_named_get in Hte as (_ & Ht & Hfs & _).
  apply find_field_elem in Hf as [Hin _].
  rewrite qualified_total by auto. simpl. by eexists.
Qed.

Lemma join_tree_connected root steps k :
  join_tree registry root steps -> k ∈ root :: map step_to steps ->
  connected registry root k.
Proof.
  intros Htree. revert k. induction Htree as [|steps step _ IH Hdecl Hfrom Hto Hin Hout].
  - simpl. intros k ->%list_elem_of_singleton. constructor.
  - intros k. rewrite map_app. simpl. rewrite app_comm_cons, elem_of_app, list_elem_of_singleton.
    intros [Hk| ->]; [auto|].
    apply (connected_snoc registry root (step_from step)); [auto|done|].
    by apply step_declared_linked.
Qed.

(** When [build_query] accepts, on a registry with valid names and unique
    keys. *)
Lemma build_query_accepts now config :
  (exists r, build_query registry repr_str str_upper fromisoformat now config = OK r)
  <-> accepted registry fromisoformat now config.
Proof.
  split.
  - intros [[sql params] Hbuild].
    destruct (build_query_structure registry repr_str str_upper fromisoformat now config sql params Hbuild)
      as (primary & steps & conds & Hp & _ & Htree & Hspan).
    split_and!.
    + by exists primary.
    + revert Hbuild. unfold build_query. rewrite Hp.
      pose proof (collect_used_lookup registry config primary) as Hlook.
      intros H. inv_bind H as sel Hsel. destruct sel as [parts groups].
      apply (select_loop_items registry) in Hsel as [Hitems _];
        [|intros sf Hsf; apply Hlook; [done|by apply referenced_selected]|done].
      simpl in Hitems. subst parts.
      destruct (List.filter _ (selected_fields config)) as [|sf sfs] eqn:Hfilter; [done|].
      assert (In sf (List.filter (fun sf => resolves registry (sf_entity_id sf) (sf_field_id sf))
                       (selected_fields config))) as Hin by (rewrite Hfilter; by left).
      apply filter_In in Hin as [Hin Hres]. exists sf. split; [by apply list_elem_of_In|done].
    + intros k Hk Hreg. eapply join_tree_connected; eauto.
    + intros k tf range Hscope Hres. revert Hbuild. unfold build_query. rewrite Hp.
      intros H. inv_bind H as sel Hsel. destruct sel as [parts groups].
      destruct parts as [|p parts]; [done|].
      inv_bind H as sn Hsn. inv_bind H as tn Htn.
      inv_bind H as js Hjs. destruct js as [joins joined].
      inv_bind H as wst Hwst. inv_bind H as tst Htst.
      clear H. revert Htst. unfold time_filter. unfold time_scope in Hscope.
      destruct (time_range config) as [range'|]; [|done].
      destruct (Py.truthy (time_field config)) as [tf'|]; [|done].
      injection Hscope as <- <- <-.
      set (k := match Py.truthy (time_field_entity config) with
                | Some e => e | None => primary_entity config end).
      assert (default (primary_entity config) (Py.truthy (time_field_entity config)) = k) as Hk
        by (unfold k; by destruct (Py.truthy _)).
      rewrite Hk in Hres. unfold resolves, resolve in Hres.
      apply bool_decide_eq_true in Hres as [[te f] Hres].
      destruct (get_entity registry k) as [te'|]; [|done]. simpl in Hres.
      destruct (find_field te' tf') as [f'|]; [|done].
      intros H. inv_bind H as bounds Hbounds. by exists bounds.
  - intros ([primary Hp] & (sf & Hsf & Hres) & Hconn & Htime).
    unfold build_query. rewrite Hp.
    pose proof (fun k => collect_used_lookup registry config primary k Hp) as Hlook.
    pose proof (collect_used_from_registry registry config primary Hp) as Hfrom.
    pose proof (collect_used_keys registry config primary) as Hused.
    set (used := collect_used_entities registry config primary) in *.
    set (ta := map _ used).
    pose proof (names_table_aliases used) as Hta. fold ta in Hta.
    destruct (for_each_total (fun _ => True)
                (select_step used ta (has_aggregation config) (group_by config))
                (selected_fields config) ([], [])) as ([parts groups] & Hsel & _); [|done|].
    { intros s x _ _. destruct (select_step_total used ta (has_aggregation config)
                                  (group_by config) s x Hfrom Hta) as [s' ?]. by exists s'. }
    rewrite Hsel. simpl.
    apply (select_loop_items registry) in Hsel as [Hitems _];
      [|intros sf' Hsf'; apply Hlook; by apply referenced_selected|done].
    simpl in Hitems.
    assert (parts <> []) as Hparts.
    { subst parts. intros Hnil%map_eq_nil.
      assert (In sf (List.filter (fun sf => resolves registry (sf_entity_id sf) (sf_field_id sf))
                       (selected_fields config))) as Hin
        by (apply filter_In; split; [by apply list_elem_of_In|done]).
      by rewrite Hnil in Hin. }
    destruct parts as [|p parts]; [done|].
    destruct (well_named_get _ _ Hp) as (Hs & Ht & _).
    rewrite !sanitize_total by done. simpl.
    destruct (for_each_total (fun _ => True) (join_entity registry str_upper (primary_entity config))
                used ([], {[primary_entity config]})) as ([joins joined] & -> & _); [|done|].
    { intros s [k e] Hin _.
      destruct (join_entity_total (primary_entity config) s (k, e)) as [s' ?]; [|by exists s'].
      simpl. apply Hconn; [by eapply Hused|].
      apply dict_get_is_Some with (v := e).
      by apply (collect_used_registry registry config primary Hp). }
    simpl.
    destruct (for_each_total (fun _ => True) (where_step repr_str used ta)
                (filters config) ([], ([], 1%nat))) as (wst & -> & _); [|done|].
    { intros s x _ _. destruct (where_step_total used ta s x Hfrom Hta) as [s' ?]. by exists s'. }
    simpl.
    destruct (time_filter_total now config ta wst Htime) as [[ta' [conds [ps idx]]] Htf].
    { intros k v. unfold ta. rewrite dict_get_map.
      destruct (Py.dict_get k used) as [e|] eqn:He; [|done]. intros [= <-].
      exists e. split; [by apply Hfrom|done]. }
    rewrite Htf. simpl.
    destruct (for_each_total (fun _ => True) (order_step used ta')
                (sorting config) []) as (orders & -> & _); [|done|].
    { intros s x _ _.
      destruct (order_step_total used ta' s x Hfrom) as [s' ?]; [|by exists s'].
      intros k e Hk. eapply time_filter_aliases; [exact Htf|]. by apply Hta. }
    simpl. by eexists.
Qed.

End Accepts.

Lemma shipped_registry_named : well_named ENTITIES = true.
Proof. vm_compute. reflexivity. Qed.

(** X10.  On the shipped registry [build_query] accepts a configuration
    exactly when the primary entity is registered, some selected field
    resolves, every registered entity that a selected field, a filter or a
    sort spec names, be its field declared or not, can be reached from the
    primary entity, and the time range, when it applies to a field that
    resolves, can be computed. *)
Theorem build_query_accepts_shipped repr_str str_upper fromisoformat now config :
  (exists r, build_query ENTITIES repr_str str_upper fromisoformat now config = OK r)
  <-> accepted ENTITIES fromisoformat now config.
Proof.
  apply build_query_accepts; [apply shipped_registry_named|apply shipped_registry_keys].
Qed.

(* ===================================================================== *)
(** ** Membership tests *)
(* ===================================================================== *)

(** X11.  A membership test over a list of [n] values is the column
    followed by [IN (] or [NOT IN (], the [n] placeholders separated by
    commas, and [)]; the values are appended to the parameters in order.
    An empty list is not rejected: the condition is then [column IN ()]. *)
Theorem in_list_condition repr_str entity field table_alias filter_ params idx vs :
  fc_operator filter_ = IN \/ fc_operator filter_ = NOT_IN ->
  fc_value filter_ = VList vs ->
  Py.re_match_identifier table_alias = true ->
  Py.re_match_identifier (f_name field) = true ->
  _build_filter_condition repr_str entity field table_alias filter_ params idx
  = OK ((table_alias +:+ "." +:+ f_name field) +:+ membership_keyword (fc_operator filter_)
        +:+ Py.join ", " (placeholder_list idx (length vs)) +:+ ")",
        (params ++ vs, (idx + length vs)%nat))
  /\ (vs = [] ->
      _build_filter_condition repr_str entity field table_alias filter_ params idx
      = OK ((table_alias +:+ "." +:+ f_name field) +:+ membership_keyword (fc_operator filter_)
            +:+ ")",
            (params, idx))).
Proof.
  intros Hop Hval Ha Hf.
  assert (_build_filter_condition repr_str entity field table_alias filter_ params idx
          = OK ((table_alias +:+ "." +:+ f_name field)
                +:+ membership_keyword (fc_operator filter_)
                +:+ Py.join ", " (placeholder_list idx (length vs)) +:+ ")",
                (params ++ vs, (idx + length vs)%nat))) as Hcond.
  { unfold _build_filter_condition. rewrite qualified_total by done.
    cbn [mbind result_bind]. rewrite Hval.
    destruct Hop as [-> | ->]; cbn [membership_keyword]; by rewrite param_each_list. }
  split; [exact Hcond|].
  intros ->. rewrite Hcond. simpl. by rewrite app_nil_r, Nat.add_0_r.
Qed.

Lemma in_list_condition_witness :
  _build_filter_condition sample_repr objects_entity (mkField "object_id" "object_id")
    "objects" empty_membership [] 1
  = OK ("objects.object_id IN ()", ([], 1%nat)).
Proof.
  exact (proj2 (in_list_condition sample_repr objects_entity (mkField "object_id" "object_id")
                  "objects" empty_membership [] 1 [] (or_introl eq_refl) eq_refl eq_refl eq_refl)
           eq_refl).
Defined.

(* ===================================================================== *)
(** ** The preview, up to nine parameters *)
(* ===================================================================== *)

(** The query text is cut into literal pieces and placeholders.  Filling
    the placeholders at once and replacing them one after the other, as
    [generate_preview_sql] does, give the same text as long as every
    placeholder has one digit and no inserted value holds a [$]. *)
Lemma show_app ps qs : show (ps ++ qs) = show ps +:+ show qs.
Proof. induction ps as [|p ps IH]; simpl; [done|]. by rewrite IH, app_assoc_s. Qed.

Lemma holes_app ps qs : holes (ps ++ qs) = holes ps ++ holes qs.
Proof. induction ps as [|[s|k] ps IH]; simpl; [done|done|]. by rewrite IH. Qed.

Lemma tidy_app ps qs : tidy ps -> tidy qs -> no_digit_start (show qs) -> tidy (ps ++ qs).
Proof.
  intros Hps Hqs Hstart. induction ps as [|[s|k] ps IH]; simpl in *; [done|..].
  - destruct Hps. auto.
  - destruct Hps as [Hnd Hps]. split; [|auto].
    rewrite show_app. by apply no_digit_start_app.
Qed.

Lemma pieces_plain s : dollar_free s = true -> in_pieces s [].
Proof. intros H. exists [Lit s]. simpl. by rewrite app_nil_r_s. Qed.

Lemma pieces_placeholder k : in_pieces ("$" +:+ Py.str_nat k) [Some k].
Proof. exists [Hole k]. simpl. by rewrite app_nil_r_s. Qed.

Lemma pieces_app s1 l1 s2 l2 :
  in_pieces s1 l1 -> in_pieces s2 l2 -> no_digit_start s2 -> in_pieces (s1 +:+ s2) (l1 ++ l2).
Proof.
  intros (ps & -> & <- & Hps) (qs & -> & <- & Hqs) Hstart.
  exists (ps ++ qs). rewrite show_app, holes_app. split_and!; [done|done|].
  by apply tidy_app.
Qed.

Lemma pieces_app_plain s1 s2 l2 : dollar_free s1 = true -> in_pieces s2 l2 -> in_pieces (s1 +:+ s2) l2.
Proof.
  intros H1 (qs & -> & <- & Hqs). exists (Lit s1 :: qs). by simpl.
Qed.

Lemma pieces_join sep parts ls :
  separator sep -> Forall2 in_pieces parts ls -> in_pieces (Py.join sep parts) (concat ls).
Proof.
  intros (Hplain & c & sep' & -> & Hc). induction 1 as [|p l parts ls Hp Hrest IH]; simpl.
  - by apply pieces_plain.
  - destruct parts as [|q parts].
    + inversion Hrest; subst. simpl. by rewrite app_nil_r.
    + apply pieces_app; [done| |done].
      change (String c (?a +:+ ?b)) with (String c a +:+ b).
      by apply pieces_app_plain.
Qed.

(** *** The alignment argument, for any reading of fragments

    The argument that aligns placeholders and parameters uses five rules
    about fragments only; it is repeated here for any relation between a
    fragment and the placeholders it carries that obeys them. *)
Section Fragments.
Variable carries : string -> list (option nat) -> Prop.
Hypothesis carries_plain : forall s, dollar_free s = true -> carries s [].
Hypothesis carries_placeholder : forall k, carries ("$" +:+ Py.str_nat k) [Some k].
Hypothesis carries_app : forall s1 l1 s2 l2,
  carries s1 l1 -> carries s2 l2 -> no_digit_start s2 -> carries (s1 +:+ s2) (l1 ++ l2).
Hypothesis carries_app_plain : forall s1 s2 l2,
  dollar_free s1 = true -> carries s2 l2 -> carries (s1 +:+ s2) l2.
Hypothesis carries_join : forall sep parts ls,
  separator sep -> Forall2 carries parts ls -> carries (Py.join sep parts) (concat ls).

Variable registry : list (string * Entity).
Variable repr_str : string -> string.
Variable str_upper : string -> string.
Variable fromisoformat : string -> result Datetime.datetime.

Lemma compare1_carries fn op v params idx cond params' idx' :
  dollar_free fn = true -> dollar_free op = true ->
  compare1 fn op v (params, idx) = (cond, (params', idx')) ->
  params' = params ++ [v] /\ idx' = S idx /\ carries cond [Some idx].
Proof.
  intros Hfn Hop [= <- <- <-]. split_and!; [done..|].
  do 2 (apply carries_app_plain; [done|]). apply carries_placeholder.
Qed.

Lemma param_each_carries vs params idx ps params' idx' :
  param_each vs (params, idx) = (ps, (params', idx')) ->
  params' = params ++ vs /\ idx' = (idx + length vs)%nat
  /\ Forall2 carries ps (map (fun k => [Some k]) (seq idx (length vs))).
Proof.
  revert params idx ps. induction vs as [|v vs IH]; intros params idx ps; simpl.
  - intros [= <- <- <-]. rewrite app_nil_r. split_and!; [done|lia|constructor].
  - destruct (param_each vs (params ++ [v], S idx)) as [ps1 [params1 idx1]] eqn:E.
    intros [= <- <- <-]. apply IH in E as (-> & -> & Hps).
    rewrite <- app_assoc. split_and!; [done|lia|].
    constructor; [apply carries_placeholder|done].
Qed.

Lemma in_list_carries fn op vs params idx ps params' idx' :
  dollar_free fn = true -> dollar_free op = true ->
  param_each vs (params, idx) = (ps, (params', idx')) ->
  params' = params ++ vs /\ idx' = (idx + length vs)%nat
  /\ carries (fn +:+ op +:+ Py.join ", " ps +:+ ")") (map Some (seq idx (length vs))).
Proof.
  intros Hfn Hop (-> & -> & Hps)%param_each_carries. split_and!; [done..|].
  do 2 (apply carries_app_plain; [done|]).
  rewrite <- (app_nil_r (map Some _)).
  apply carries_app; [|by apply carries_plain|done].
  rewrite <- concat_singletons. apply carries_join; [apply comma_separator|done].
Qed.

Lemma build_filter_condition_carries e f a flt params idx cond params' idx' :
  _build_filter_condition repr_str e f a flt params idx = OK (cond, (params', idx')) ->
  params' = params ++ filter_values repr_str flt
  /\ idx' = (idx + length (filter_values repr_str flt))%nat
  /\ carries cond (map Some (seq idx (length (filter_values repr_str flt)))).
Proof.
  unfold _build_filter_condition, filter_values. intros H.
  inv_bind H as fn Hfn. apply qualified_plain in Hfn. injection H as H.
  destruct (fc_operator flt);
    try (apply compare1_carries in H as (-> & -> & ?); [split_and!; [done|simpl; lia|done]|done..]).
  - (* BETWEEN *)
    injection H as <- <- <-. rewrite <- app_assoc. split_and!; [done|simpl; lia|].
    apply (carries_app_plain fn); [done|].
    apply (carries_app_plain " BETWEEN "); [done|].
    apply (carries_app ("$" +:+ Py.str_nat idx) [Some idx] _ [Some (S idx)]);
      [apply carries_placeholder| |done].
    apply (carries_app_plain " AND "); [done|]. apply carries_placeholder.
  - (* IN *)
    destruct (fc_value flt);
      try (apply compare1_carries in H as (-> & -> & ?); [split_and!; [done|simpl; lia|done]|done..]).
    destruct (param_each l (params, idx)) as [ps [params1 idx1]] eqn:E.
    injection H as <- <- <-. by apply (in_list_carries fn " IN (" l params idx).
  - (* NOT_IN *)
    destruct (fc_value flt);
      try (apply compare1_carries in H as (-> & -> & ?); [split_and!; [done|simpl; lia|done]|done..]).
    destruct (param_each l (params, idx)) as [ps [params1 idx1]] eqn:E.
    injection H as <- <- <-. by apply (in_list_carries fn " NOT IN (" l params idx).
  - (* IS_NULL *)
    injection H as <- <- <-. rewrite app_nil_r. split_and!; [done|simpl; lia|].
    apply carries_plain. plain. by rewrite Hfn.
  - (* IS_NOT_NULL *)
    injection H as <- <- <-. rewrite app_nil_r. split_and!; [done|simpl; lia|].
    apply carries_plain. plain. by rewrite Hfn.
Qed.

Lemma in_step_snoc conds params cond vs :
  in_step carries (conds, (params, S (length params))) ->
  carries cond (map Some (seq (S (length params)) (length vs))) ->
  in_step carries (conds ++ [cond], (params ++ vs, (S (length params) + length vs)%nat)).
Proof.
  intros (ls & Hls & Hcat & _) Hcond. exists (ls ++ [map Some (seq (S (length params)) (length vs))]).
  simpl in *. split_and!.
  - apply Forall2_app; [done|]. by constructor.
  - rewrite concat_app, Hcat. simpl. rewrite app_nil_r, length_app, seq_app, map_app. done.
  - rewrite length_app. lia.
Qed.

Lemma where_step_carries used ta st flt st' :
  in_step carries st -> where_step repr_str used ta st flt = OK st' -> in_step carries st'.
Proof.
  destruct st as [conds [params idx]]. intros Hst. unfold where_step.
  destruct (Py.dict_get (fc_entity_id flt) used) as [e|]; [|by intros [= <-]].
  destruct (find_field e (fc_field_id flt)) as [f|]; [|by intros [= <-]].
  intros H. inv_bind H as tal Htal. inv_bind H as r Hr. destruct r as [cond [params' idx']].
  injection H as <-.
  assert (idx = S (length params)) as -> by (by destruct Hst as (? & ? & ? & ?)).
  apply build_filter_condition_carries in Hr as (-> & -> & Hcond).
  by apply in_step_snoc.
Qed.

Lemma time_bound_carries fn op bound st :
  dollar_free fn = true -> dollar_free op = true ->
  in_step carries st -> in_step carries (time_bound fn op bound st).
Proof.
  destruct st as [conds [params idx]]. intros Hfn Hop Hst.
  assert (idx = S (length params)) as -> by (by destruct Hst as (? & ? & ? & ?)).
  destruct bound as [t|]; simpl; [|done].
  replace (S (S (length params))) with (S (length params) + length [VStr (Datetime.isoformat t)])%nat
    by (simpl; lia).
  apply in_step_snoc; [done|]. simpl.
  do 2 (apply carries_app_plain; [done|]). apply carries_placeholder.
Qed.

Lemma time_filter_carries now config ta st ta' st' :
  in_step carries st ->
  time_filter registry fromisoformat now config ta st = OK (ta', st') -> in_step carries st'.
Proof.
  intros Hst. unfold time_filter.
  destruct (time_range config) as [range|]; [|by intros [= <- <-]].
  destruct (Py.truthy (time_field config)) as [tf|]; [|by intros [= <- <-]].
  destruct (get_entity registry _) as [te|]; [|by intros [= <- <-]].
  destruct (find_field te tf) as [f|]; [|by intros [= <- <-]].
  intros H. inv_bind H as r Hr. destruct r as [start_ end_].
  inv_bind H as tal Htal. inv_bind H as fn Hfn. injection H as <- <-.
  apply qualified_plain in Hfn.
  by do 2 (apply time_bound_carries; [done|done|]).
Qed.

Lemma all_plain_carries l : all_plain l -> Forall2 carries l (map (fun _ => []) l).
Proof. induction 1; simpl; constructor; [by apply carries_plain|done]. Qed.

Lemma where_clause_carries conds ls :
  Forall2 carries conds ls ->
  exists ls', Forall2 carries (clause "WHERE " " AND " conds) ls' /\ concat ls' = concat ls.
Proof.
  intros H. unfold clause. destruct H as [|c l conds ls Hc Hrest].
  - exists []. split; [constructor|done].
  - exists [concat (l :: ls)]. split; [|simpl; by rewrite app_nil_r].
    constructor; [|constructor]. apply carries_app_plain; [done|].
    apply carries_join; [apply and_separator|by constructor].
Qed.

Lemma assemble_carries select_parts from_clause joins conds groups orders lim ls :
  all_plain select_parts -> dollar_free from_clause = true -> all_plain joins ->
  Forall2 carries conds ls -> all_plain groups -> all_plain orders ->
  carries (assemble select_parts from_clause joins conds groups orders lim) (concat ls).
Proof.
  intros Hsel Hfrom Hjoins Hconds Hgroups Horders.
  destruct (where_clause_carries conds ls Hconds) as (ls' & Hwhere & <-).
  unfold assemble.
  set (head := ["SELECT " +:+ Py.join ", " select_parts; "FROM " +:+ from_clause]).
  set (tail := clause "GROUP BY " ", " groups ++ clause "ORDER BY " ", " orders
               ++ ["LIMIT " +:+ Py.str_int (lim `min` 10000)]).
  assert (all_plain head) as Hhead.
  { repeat constructor.
    - rewrite dollar_free_app. simpl. by apply dollar_free_join.
    - by rewrite dollar_free_app, Hfrom. }
  assert (all_plain tail) as Htail.
  { apply Forall_app; split; [by apply clause_plain|].
    apply Forall_app; split; [by apply clause_plain|].
    repeat constructor. by rewrite dollar_free_app, str_int_plain. }
  assert (Forall2 carries (head ++ joins ++ clause "WHERE " " AND " conds ++ tail)
            (map (fun _ => []) head ++ map (fun _ => []) joins ++ ls' ++ map (fun _ => []) tail))
    as Hall.
  { repeat apply Forall2_app; auto using all_plain_carries. }
  pose proof (carries_join Py.NL _ _ line_separator Hall) as Hscan.
  rewrite !concat_app, !concat_nils in Hscan. simpl in Hscan.
  rewrite !app_nil_r in Hscan. exact Hscan.
Qed.

Lemma build_query_carries now config sql params :
  registry_plain registry = true ->
  build_query registry repr_str str_upper fromisoformat now config = OK (sql, params) ->
  carries sql (map Some (seq 1 (length params))).
Proof.
  intros Hplain. unfold build_query.
  destruct (get_entity registry (primary_entity config)) as [primary|] eqn:Hp; [|done].
  pose proof (collect_used_registry registry config primary Hp) as Hsub.
  set (used := collect_used_entities registry config primary) in *.
  set (ta := map _ used).
  intros H. inv_bind H as sel Hsel. destruct sel as [select_parts groups].
  apply (for_each_invariant (fun s => all_plain s.1 /\ all_plain s.2)) in Hsel;
    [|intros s x s' ? ?; by eapply select_step_plain|by split; constructor].
  destruct Hsel as [Hparts Hgroups]. simpl in Hparts, Hgroups.
  destruct select_parts as [|p parts]; [done|].
  inv_bind H as sn Hsn. inv_bind H as tn Htn.
  inv_bind H as js Hjs. destruct js as [joins joined].
  apply (for_each_invariant (fun s => all_plain s.1)) in Hjs;
    [|intros s x s' ? ?; by eapply join_entity_plain|constructor].
  inv_bind H as wst Hwst.
  apply (for_each_invariant (in_step carries)) in Hwst;
    [|intros s x s' ? ?; by eapply where_step_carries
     |exists []; split_and!; [constructor|done|done]].
  inv_bind H as tst Htst. destruct tst as [ta' [conds [ps idx]]].
  apply time_filter_carries in Htst; [|done].
  inv_bind H as orders Hord.
  apply (for_each_invariant all_plain) in Hord;
    [|intros s x s' ? ?; by eapply order_step_plain|constructor].
  injection H as <- <-.
  destruct Htst as (ls & Hls & Hcat & _). simpl in *.
  rewrite <- Hcat. apply assemble_carries; try done.
  plain. by rewrite (sanitize_plain _ _ Hsn), (sanitize_plain _ _ Htn).
Qed.
End Fragments.

Lemma build_query_pieces registry repr_str str_upper fromisoformat now config sql params :
  registry_plain registry = true ->
  build_query registry repr_str str_upper fromisoformat now config = OK (sql, params) ->
  in_pieces sql (map Some (seq 1 (length params))).
Proof.
  apply build_query_carries;
    [apply pieces_plain|apply pieces_placeholder|apply pieces_app|apply pieces_app_plain|apply pieces_join].
Qed.

(** *** Filling the pieces *)

Lemma fill_lit values s t :
  dollar_free s = true ->
  fill_from values Copying (s +:+ t) = s +:+ fill_from values Copying t.
Proof.
  induction s as [|c s IH]; simpl; [done|].
  intros [Hc Hs]%andb_true_iff. apply negb_true_iff in Hc. rewrite Hc.
  destruct (digit_value c); simpl; by rewrite IH.
Qed.

Lemma fill_digits values d digits acc t :
  fill_from values (Reading digits (Some acc)) (NilEmpty.string_of_uint d +:+ t)
  = fill_from values
      (Reading (digits +:+ NilEmpty.string_of_uint d) (Some (Nat.of_uint_acc d acc))) t.
Proof.
  revert digits acc. induction d; intros digits acc; simpl;
    [by rewrite app_nil_r_s|..];
    rewrite IHd, app_assoc_s; simpl; do 4 f_equal; rewrite Nat.tail_mul_spec; lia.
Qed.

Lemma fill_str_nat values k t :
  fill_from values (Reading EmptyString None) (Py.str_nat k +:+ t)
  = fill_from values (Reading (Py.str_nat k) (Some k)) t.
Proof.
  unfold Py.str_nat.
  rewrite <- (DecimalNat.Unsigned.of_to k) at 3.
  unfold Nat.of_uint.
  destruct (Nat.to_uint k); simpl; [done|..]; by rewrite fill_digits.
Qed.

Lemma fill_after_number values digits k t :
  no_digit_start t ->
  fill_from values (Reading digits (Some k)) t
  = fill_flush values (Reading digits (Some k)) +:+ fill_from values Copying t.
Proof.
  destruct t as [|c t]; simpl; [by rewrite app_nil_r_s|]. intros Hc. rewrite Hc.
  by destruct (Ascii.eqb c "$").
Qed.

Lemma fill_hole values k t :
  no_digit_start t ->
  fill_from values Copying (show_piece (Hole k) +:+ t)
  = default ("$" +:+ Py.str_nat k) (value_of values (Some k)) +:+ fill_from values Copying t.
Proof.
  intros Ht. simpl. rewrite fill_str_nat. by rewrite fill_after_number.
Qed.

Lemma show_fill_piece values k :
  show_piece (fill_piece 1 values (Hole k))
  = default ("$" +:+ Py.str_nat k) (value_of values (Some k)).
Proof.
  unfold fill_piece, value_of. destruct k as [|k]; simpl; [done|].
  rewrite Nat.sub_0_r. by destruct (values !! k).
Qed.

Lemma fill_pieces values ps :
  tidy ps -> fill values (show ps) = show (map (fill_piece 1 values) ps).
Proof.
  unfold fill. induction ps as [|[s|k] ps IH]; [done|..]; intros [H Hps].
  - cbn [show map show_piece fill_piece]. rewrite fill_lit by done. by rewrite IH.
  - cbn [show map]. rewrite fill_hole by done. by rewrite IH, show_fill_piece.
Qed.

(** *** Replacing one placeholder after the other *)

Lemma replace_lit old v s t :
  dollar_free s = true ->
  Py.replace_from (String "$" old) v 0 (s +:+ t) = s +:+ Py.replace_from (String "$" old) v 0 t.
Proof.
  induction s as [|c s IH]; [done|].
  cbn [dollar_free]. intros [Hc Hs]%andb_true_iff. apply negb_true_iff in Hc.
  change (String c s +:+ t) with (String c (s +:+ t)).
  cbn [Py.replace_from String.prefix].
  destruct (ascii_dec "$" c) as [<-|]; [by rewrite Ascii.eqb_refl in Hc|].
  by rewrite IH.
Qed.

Lemma small_digit k :
  (1 <= k <= 9)%nat ->
  exists c, Py.str_nat k = String c EmptyString /\ c <> "$"%char
            /\ forall k', (1 <= k' <= 9)%nat -> Py.str_nat k' = String c EmptyString -> k' = k.
Proof.
  intros Hk.
  assert (k ∈ [1; 2; 3; 4; 5; 6; 7; 8; 9]%nat) as Hin.
  { rewrite !elem_of_cons. lia. }
  assert (forall k', (1 <= k' <= 9)%nat -> k' ∈ [1; 2; 3; 4; 5; 6; 7; 8; 9]%nat) as Hall.
  { intros k' Hk'. rewrite !elem_of_cons. lia. }
  rewrite !elem_of_cons, elem_of_nil in Hin.
  destruct Hin as [->|[->|[->|[->|[->|[->|[->|[->|[->|[]]]]]]]]]];
    (eexists; split_and!; [reflexivity|done|];
     intros k' Hk'%Hall; rewrite !elem_of_cons, elem_of_nil in Hk';
     destruct Hk' as [->|[->|[->|[->|[->|[->|[->|[->|[->|[]]]]]]]]]]; done).
Qed.

Lemma replace_one_digit ci ck v t :
  ck <> "$"%char ->
  Py.replace_from (String "$" (String ci EmptyString)) v 0 (String "$" (String ck t))
  = if Ascii.eqb ci ck
    then v +:+ Py.replace_from (String "$" (String ci EmptyString)) v 0 t
    else String "$" (String ck (Py.replace_from (String "$" (String ci EmptyString)) v 0 t)).
Proof.
  intros Hck. cbn [Py.replace_from String.prefix String.length Nat.sub].
  destruct (ascii_dec "$" "$") as [_|]; [|done].
  destruct (ascii_dec ci ck) as [->|Hne].
  - rewrite Ascii.eqb_refl.
    assert (String.prefix EmptyString t = true) as -> by (by destruct t). done.
  - apply Ascii.eqb_neq in Hne. rewrite Hne.
    by destruct (ascii_dec "$" ck) as [<-|].
Qed.

Lemma replace_hole i v k t :
  (1 <= i <= 9)%nat -> (1 <= k <= 9)%nat ->
  Py.replace ("$" +:+ Py.str_nat i) v (show_piece (Hole k) +:+ t)
  = show_piece (replace_piece i v (Hole k)) +:+ Py.replace ("$" +:+ Py.str_nat i) v t.
Proof.
  intros Hi Hk.
  destruct (small_digit i Hi) as (ci & Ei & Hci & Hinj).
  destruct (small_digit k Hk) as (ck & Ek & Hck & _).
  cbn [show_piece replace_piece]. rewrite Ei, Ek.
  change ("$" +:+ String ci EmptyString) with (String "$" (String ci EmptyString)).
  change (("$" +:+ String ck EmptyString) +:+ t) with (String "$" (String ck t)).
  cbn [Py.replace]. rewrite replace_one_digit by done.
  destruct (Ascii.eqb_spec ci ck) as [->|Hne].
  - assert (k = i) as -> by (by apply Hinj). by rewrite Nat.eqb_refl.
  - assert ((k =? i)%nat = false) as ->.
    { apply Nat.eqb_neq. intros ->. congruence. }
    cbn [show_piece]. by rewrite Ek.
Qed.

Lemma replace_pieces i v ps :
  (1 <= i <= 9)%nat -> small ps ->
  Py.replace ("$" +:+ Py.str_nat i) v (show ps) = show (map (replace_piece i v) ps).
Proof.
  intros Hi. induction 1 as [|[s|k] ps Hp _ IH]; [done|..].
  - cbn [show map show_piece replace_piece].
    unfold Py.replace in *. simpl in *. by rewrite replace_lit, IH.
  - cbn [show map]. by rewrite replace_hole, IH.
Qed.

Lemma enumerate_map {A B} (f : A -> B) i l :
  Py.enumerate i (map f l) = map (fun ip : nat * A => (ip.1, f ip.2)) (Py.enumerate i l).
Proof. revert i. induction l as [|x l IH]; intros i; simpl; [done|]. by rewrite IH. Qed.

Lemma replace_all i values ps :
  (1 <= i)%nat -> (i + length values <= 10)%nat ->
  Forall (fun v => dollar_free v = true) values -> small ps ->
  fold_left (fun text (iv : nat * string) => Py.replace ("$" +:+ Py.str_nat iv.1) iv.2 text)
            (Py.enumerate i values) (show ps)
  = show (map (fill_piece i values) ps).
Proof.
  intros Hi Hlen Hvalues. revert i ps Hi Hlen.
  induction Hvalues as [|v values Hv _ IH]; intros i ps Hi Hlen Hps;
    cbn [Py.enumerate fold_left fst snd length] in *.
  - f_equal. symmetry. rewrite <- (map_id ps) at 2. apply map_ext. intros [s|k]; simpl; [done|].
    by destruct (i <=? k)%nat.
  - rewrite replace_pieces by (done || lia).
    rewrite IH; [|lia|lia|].
    + f_equal. rewrite map_map. apply map_ext. intros [s|k]; [done|].
      cbn [replace_piece]. destruct (Nat.eqb_spec k i) as [->|Hne]; cbn [fill_piece].
      * by rewrite Nat.leb_refl, Nat.sub_diag.
      * destruct (Nat.leb_spec (S i) k); destruct (Nat.leb_spec i k); try lia; [|done].
        by replace (k - i)%nat with (S (k - S i)) by lia.
    + unfold small in *. apply Forall_fmap. eapply Forall_impl; [exact Hps|].
      intros [s|k]; simpl; [done|]. by destruct (k =? i)%nat.
Qed.

Lemma holes_elem k ps : Hole k ∈ ps -> Some k ∈ holes ps.
Proof.
  induction ps as [|[s|k'] ps IH]; simpl.
  - by intros ?%elem_of_nil.
  - intros [[=]|H]%elem_of_cons. auto.
  - intros [[= <-]|H]%elem_of_cons; [left|right; auto].
Qed.

Lemma tidy_small ps n :
  tidy ps -> holes ps = map Some (seq 1 n) -> (n <= 9)%nat -> small ps.
Proof.
  intros Htidy Hholes Hn. apply Forall_forall. intros [s|k] Hin.
  - clear -Htidy Hin. induction ps as [|[s'|k'] ps IH]; simpl in *.
    + by apply elem_of_nil in Hin.
    + destruct Htidy. apply elem_of_cons in Hin as [[= ->]|Hin]; auto.
    + destruct Htidy. apply elem_of_cons in Hin as [[=]|Hin]; auto.
  - apply holes_elem in Hin. rewrite Hholes in Hin.
    apply list_elem_of_fmap in Hin as (j & [= ->] & Hj).
    apply elem_of_seq in Hj. lia.
Qed.

Section Preview.
Variable registry : list (string * Entity).
Variable repr_str : string -> string.
Variable str_upper : string -> string.
Variable fromisoformat : string -> result Datetime.datetime.

Lemma preview_fills now config sql params :
  registry_plain registry = true ->
  build_query registry repr_str str_upper fromisoformat now config = OK (sql, params) ->
  (length params <= 9)%nat ->
  Forall (fun p => dollar_free (render_param repr_str p) = true) params ->
  generate_preview_sql registry repr_str str_upper fromisoformat now config
  = OK (fill (map (render_param repr_str) params) sql).
Proof.
  intros Hplain Hbuild Hlen Hvalues. unfold generate_preview_sql. rewrite Hbuild. simpl.
  f_equal.
  destruct (build_query_pieces _ _ _ _ _ _ _ _ Hplain Hbuild) as (ps & -> & Hholes & Htidy).
  pose proof (tidy_small ps _ Htidy Hholes Hlen) as Hsmall.
  rewrite fill_pieces by done.
  rewrite <- (replace_all 1 (map (render_param repr_str) params) ps);
    [|lia|rewrite length_map; lia|by apply Forall_fmap|done].
  rewrite enumerate_map.
  generalize (Py.enumerate 1 params) (show ps). clear.
  induction l as [|[i p] l IH]; intros s; simpl; [done|]. by rewrite IH.
Qed.
End Preview.

(** X12.  With at most nine parameters, none of which is rendered with a
    [$] in it, the preview is the query text with every placeholder [$k]
    replaced by the rendering of the [k]-th parameter, a string between
    single quotes and any other value as [str] prints it, and nothing
    else changed. *)
Theorem preview_fills_placeholders repr_str str_upper fromisoformat now config sql params :
  build_query ENTITIES repr_str str_upper fromisoformat now config = OK (sql, params) ->
  (length params <= 9)%nat ->
  Forall (fun p => dollar_free (render_param repr_str p) = true) params ->
  generate_preview_sql ENTITIES repr_str str_upper fromisoformat now config
  = OK (fill (map (render_param repr_str) params) sql).
Proof. apply preview_fills, shipped_registry_plain. Qed.

Lemma preview_fills_placeholders_witness :
  build_query ENTITIES sample_repr sample_upper sample_fromisoformat sample_now config_fleet
  = OK (fleet_sql, fleet_params)
  /\ (length fleet_params <= 9)%nat
  /\ fill (map (render_param sample_repr) fleet_params) fleet_sql = fleet_preview
  /\ generate_preview_sql ENTITIES sample_repr sample_upper sample_fromisoformat sample_now config_fleet
     = OK (fill (map (render_param sample_repr) fleet_params) fleet_sql).
Proof.
  assert (length fleet_params <= 9)%nat as Hlen by (simpl; lia).
  assert (Forall (fun p => dollar_free (render_param sample_repr p) = true) fleet_params)
    as Hvalues by (repeat constructor).
  refine (conj build_fleet (conj Hlen (conj _ _))).
  - vm_compute. reflexivity.
  - exact (preview_fills_placeholders sample_repr sample_upper sample_fromisoformat sample_now
             config_fleet fleet_sql fleet_params build_fleet Hlen Hvalues).
Defined.

(* ===================================================================== *)
(** ** The request: [api/routes.py] *)
(* ===================================================================== *)

Lemma prefix_app sep s : String.prefix sep s = true -> s = sep +:+ Py.drop (String.length sep) s.
Proof.
  revert s. induction sep as [|c sep IH]; intros [|c' s]; simpl; try done.
  destruct (ascii_dec c c') as [->|]; [|done]. intros H. f_equal. by apply IH.
Qed.

Lemma prefix_of_app sep t : String.prefix sep (sep +:+ t) = true.
Proof.
  induction sep as [|c sep IH]; simpl; [by destruct t|].
  by destruct (ascii_dec c c).
Qed.

Lemma drop_app sep t : Py.drop (String.length sep) (sep +:+ t) = t.
Proof. induction sep; simpl; auto. Qed.

Lemma split_once_unfold sep s :
  Py.split_once sep s =
  if String.prefix sep s then Some (EmptyString, Py.drop (String.length sep) s)
  else
    match s with
    | EmptyString => None
    | String c s' =>
        match Py.split_once sep s' with
        | Some (before, after) => Some (String c before, after)
        | None => None
        end
    end.
Proof. by destruct s. Qed.

Lemma split_once_Some sep s before after :
  Py.split_once sep s = Some (before, after) ->
  s = before +:+ sep +:+ after
  /\ forall before' after', s = before' +:+ sep +:+ after' ->
       (String.length before <= String.length before')%nat.
Proof.
  revert before. induction s as [|c s IH]; intros before; rewrite split_once_unfold.
  - destruct (String.prefix sep "") eqn:E; [|done]. intros [= <- <-].
    split; [by apply prefix_app in E|]. intros; simpl; lia.
  - destruct (String.prefix sep (String c s)) eqn:E.
    + intros [= <- <-]. split; [by apply prefix_app in E|]. intros; simpl; lia.
    + destruct (Py.split_once sep s) as [[b a]|]; [|done]. intros [= <- <-].
      destruct (IH b eq_refl) as [-> Hfirst]. split; [done|].
      intros [|c' b'] a' Heq; simpl in Heq.
      * rewrite Heq, prefix_of_app in E. done.
      * injection Heq as -> Heq. apply Hfirst in Heq. simpl. lia.
Qed.

Lemma split_once_None sep s before after :
  Py.split_once sep s = None -> s <> before +:+ sep +:+ after.
Proof.
  revert before. induction s as [|c s IH]; intros before; rewrite split_once_unfold.
  - destruct (String.prefix sep "") eqn:E; [done|]. intros _ Heq.
    destruct before; [|done]. simpl in Heq. by rewrite Heq, prefix_of_app in E.
  - destruct (String.prefix sep (String c s)) eqn:E; [done|].
    destruct (Py.split_once sep s) as [[b a]|] eqn:Hs; [done|]. intros _ Heq.
    destruct before as [|c' b']; simpl in Heq.
    + by rewrite Heq, prefix_of_app in E.
    + injection Heq as -> Heq. by apply (IH b').
Qed.

Lemma split_once_colon_free before after :
  colon_free before = true ->
  Py.split_once "::" (before +:+ "::" +:+ after) = Some (before, after).
Proof.
  induction before as [|c b IH]; intros H.
  - change (EmptyString +:+ "::" +:+ after) with ("::" +:+ after).
    by rewrite split_once_unfold, prefix_of_app, drop_app.
  - simpl in H. apply andb_true_iff in H as [Hc Hb]. apply negb_true_iff in Hc.
    change (String c b +:+ "::" +:+ after) with (String c (b +:+ "::" +:+ after)).
    rewrite split_once_unfold, (IH Hb).
    assert (String.prefix "::" (String c (b +:+ "::" +:+ after)) = false) as ->; [|done].
    cbn [String.prefix]. destruct (ascii_dec ":" c) as [<-|]; [|done].
    by rewrite Ascii.eqb_refl in Hc.
Qed.

(** X13.  The time field sent by the frontend as [entity_id::field_id] is
    split at the first [::]: an entity id without a colon and any field id
    come back as they were joined; and whenever an entity id comes back,
    the text was that entity id, [::] and the field id, with no earlier
    [::].  A text without [::] is the field id, with no entity. *)
Theorem time_field_round_trip entity_id field_id text :
  (colon_free entity_id = true ->
   time_field_parts (Some (entity_id +:+ "::" +:+ field_id))
   = (Some field_id, Some entity_id))
  /\ (time_field_parts (Some text) = (Some field_id, Some entity_id) ->
      text = entity_id +:+ "::" +:+ field_id
      /\ forall e f, text = e +:+ "::" +:+ f ->
                     (String.length entity_id <= String.length e)%nat)
  /\ (text <> EmptyString -> (forall e f, text <> e +:+ "::" +:+ f) ->
      time_field_parts (Some text) = (Some text, None)).
Proof.
  split_and!.
  - intros H. unfold time_field_parts.
    assert (Py.truthy (Some (entity_id +:+ "::" +:+ field_id))
            = Some (entity_id +:+ "::" +:+ field_id)) as ->.
    { by destruct entity_id. }
    by rewrite split_once_colon_free.
  - unfold time_field_parts. destruct text as [|c text]; [done|].
    cbn [Py.truthy].
    destruct (Py.split_once "::" (String c text)) as [[b a]|] eqn:E; [|done].
    intros [= -> ->]. by apply split_once_Some.
  - intros Hne Hnone. unfold time_field_parts. destruct text as [|c text]; [done|].
    cbn [Py.truthy].
    destruct (Py.split_once "::" (String c text)) as [[b a]|] eqn:E; [|done].
    apply split_once_Some in E as [E _]. by apply Hnone in E.
Qed.

Lemma time_field_round_trip_witness :
  colon_free "tracking_data_core" = true
  /\ time_field_parts (Some "tracking_data_core::device_time")
     = (Some "device_time", Some "tracking_data_core").
Proof.
  refine (conj eq_refl _).
  exact (proj1 (time_field_round_trip "tracking_data_core" "device_time" EmptyString) eq_refl).
Defined.

Section RoutesFacts.

Variable registry : list (string * Entity).

Variable repr_str : string -> string.

Variable str_upper : string -> string.

Variable fromisoformat : string -> result Datetime.datetime.

Lemma find_field_existsb entity field_id :
  existsb (fun f => String.eqb (f_id f) field_id) (fields entity)
  = bool_decide (is_Some (find_field entity field_id)).
Proof.
  unfold find_field. induction (fields entity) as [|f fs IH]; simpl; [done|].
  by destruct (String.eqb (f_id f) field_id).
Qed.

Lemma check_selected_field_pass field :
  check_selected_field registry field = None
  <-> resolves registry (sf_entity_id field) (sf_field_id field) = true.
Proof.
  unfold check_selected_field, resolves, resolve.
  destruct (get_entity registry (sf_entity_id field)) as [e|]; simpl.
  - rewrite find_field_existsb.
    by destruct (find_field e (sf_field_id field)) as [f|].
  - done.
Qed.

Lemma first_some_None {A B} (f : A -> option B) l :
  first_some f l = None <-> forall x, x ∈ l -> f x = None.
Proof.
  induction l as [|x l IH]; simpl.
  - split; [|done]. intros _ x Hx. by apply elem_of_nil in Hx.
  - destruct (f x) eqn:E.
    + split; [done|]. intros H. specialize (H x ltac:(left)). congruence.
    + rewrite IH. split.
      * intros H y [->|Hy]%elem_of_cons; auto.
      * intros H y Hy. apply H. by right.
Qed.

(** [validate_query] against [build_query]. *)
Lemma validate_query_valid now config sql :
  validate_query registry repr_str str_upper fromisoformat now config = Valid sql
  <-> (forall sf, sf ∈ selected_fields config ->
         resolves registry (sf_entity_id sf) (sf_field_id sf) = true)
      /\ generate_preview_sql registry repr_str str_upper fromisoformat now config = OK sql.
Proof.
  unfold validate_query.
  destruct (get_entity registry (primary_entity config)) as [primary|] eqn:Hp.
  - destruct (first_some _ (selected_fields config)) as [err|] eqn:Hcheck.
    + split; [done|]. intros [Hall _].
      assert (first_some (check_selected_field registry) (selected_fields config) = None) as Hnone.
      { apply first_some_None. intros sf Hsf. by apply check_selected_field_pass, Hall. }
      congruence.
    + rewrite first_some_None in Hcheck.
      destruct (generate_preview_sql _ _ _ _ _) as [s|e].
      * split.
        -- intros [= ->]. split; [|done]. intros sf Hsf.
           by apply check_selected_field_pass, Hcheck.
        -- by intros [_ [= ->]].
      * split; [done|]. by intros [_ ?].
  - split; [done|]. intros [_ H]. unfold generate_preview_sql, build_query in H.
    by rewrite Hp in H.
Qed.

Lemma first_some_split {A B} (f : A -> option B) l b :
  first_some f l = Some b
  <-> exists l1 x l2, l = l1 ++ x :: l2 /\ (forall y, y ∈ l1 -> f y = None) /\ f x = Some b.
Proof.
  split.
  - induction l as [|x l IH]; simpl; [done|].
    destruct (f x) as [b'|] eqn:E.
    + intros [= <-]. exists [], x, l. split_and!; [done| |done].
      intros y Hy. by apply elem_of_nil in Hy.
    + intros (l1 & y & l2 & -> & Hnone & Hy)%IH. exists (x :: l1), y, l2.
      split_and!; [done| |done]. intros z [->|Hz]%elem_of_cons; auto.
  - intros (l1 & x & l2 & -> & Hnone & Hx). revert Hnone.
    induction l1 as [|y l1 IH]; simpl; intros Hnone; [by rewrite Hx|].
    rewrite (Hnone y) by left. apply IH. intros z Hz. apply Hnone. by right.
Qed.

Lemma check_selected_field_fail field error :
  check_selected_field registry field = Some error
  <-> resolves registry (sf_entity_id field) (sf_field_id field) = false
      /\ error = match get_entity registry (sf_entity_id field) with
                 | None => "Unknown entity: " +:+ sf_entity_id field
                 | Some _ =>
                     "Unknown field: " +:+ sf_field_id field +:+ " in " +:+ sf_entity_id field
                 end.
Proof.
  unfold check_selected_field, resolves, resolve.
  destruct (get_entity registry (sf_entity_id field)) as [e|]; simpl.
  - rewrite find_field_existsb.
    destruct (find_field e (sf_field_id field)) as [f|]; simpl; naive_solver.
  - naive_solver.
Qed.

Lemma validate_query_failed now config e :
  validate_query registry repr_str str_upper fromisoformat now config = Failed e
  <-> (forall sf, sf ∈ selected_fields config ->
         resolves registry (sf_entity_id sf) (sf_field_id sf) = true)
      /\ registered registry (primary_entity config)
      /\ generate_preview_sql registry repr_str str_upper fromisoformat now config = Raise e.
Proof.
  unfold validate_query, registered.
  destruct (get_entity registry (primary_entity config)) as [primary|] eqn:Hp.
  - destruct (first_some _ (selected_fields config)) as [err|] eqn:Hcheck.
    + split; [done|]. intros [Hall _].
      assert (first_some (check_selected_field registry) (selected_fields config) = None) as Hnone.
      { apply first_some_None. intros sf Hsf. by apply check_selected_field_pass, Hall. }
      congruence.
    + rewrite first_some_None in Hcheck.
      destruct (generate_preview_sql _ _ _ _ _ _) as [s|e'].
      * split; [done|]. by intros (_ & _ & ?).
      * split.
        -- intros [= ->]. split_and!; [|by eexists|done]. intros sf Hsf.
           by apply check_selected_field_pass, Hcheck.
        -- by intros (_ & _ & [= ->]).
  - split; [done|]. by intros (_ & [? ?] & _).
Qed.

Lemma validate_query_invalid now config error :
  validate_query registry repr_str str_upper fromisoformat now config = Invalid error
  <-> (get_entity registry (primary_entity config) = None
       /\ error = "Unknown entity: " +:+ primary_entity config)
      \/ (registered registry (primary_entity config)
          /\ exists l1 sf l2,
               selected_fields config = l1 ++ sf :: l2
               /\ (forall x, x ∈ l1 ->
                     resolves registry (sf_entity_id x) (sf_field_id x) = true)
               /\ resolves registry (sf_entity_id sf) (sf_field_id sf) = false
               /\ error = match get_entity registry (sf_entity_id sf) with
                          | None => "Unknown entity: " +:+ sf_entity_id sf
                          | Some _ =>
                              "Unknown field: " +:+ sf_field_id sf +:+ " in "
                              +:+ sf_entity_id sf
                          end).
Proof.
  unfold validate_query, registered.
  destruct (get_entity registry (primary_entity config)) as [primary|] eqn:Hp.
  - destruct (first_some _ (selected_fields config)) as [err|] eqn:Hcheck.
    + pose proof Hcheck as Hc.
      apply first_some_split in Hc as (l1 & sf & l2 & Hl & Hnone & Hsf).
      apply check_selected_field_fail in Hsf as [Hres Herr].
      split.
      * intros [= <-]. right. split; [by eexists|]. exists l1, sf, l2.
        split_and!; [done| |done|done].
        intros x Hx. by apply check_selected_field_pass, Hnone.
      * intros [[? _]|(_ & l1' & sf' & l2' & Hl' & Hall' & Hres' & ->)]; [done|].
        assert (first_some (check_selected_field registry) (selected_fields config)
                = Some (match get_entity registry (sf_entity_id sf') with
                        | None => "Unknown entity: " +:+ sf_entity_id sf'
                        | Some _ =>
                            "Unknown field: " +:+ sf_field_id sf' +:+ " in "
                            +:+ sf_entity_id sf'
                        end)) as H1.
        { apply first_some_split. exists l1', sf', l2'. split_and!; [done| |].
          - intros y Hy. by apply check_selected_field_pass, Hall'.
          - by apply check_selected_field_fail. }
        congruence.
    + split.
      * by destruct (generate_preview_sql _ _ _ _ _ _).
      * intros [[? _]|(_ & l1 & sf & l2 & Hl & Hall & Hres & ->)]; [done|].
        exfalso. rewrite first_some_None in Hcheck.
        assert (check_selected_field registry sf = None) as Hsf.
        { apply Hcheck. rewrite Hl. apply elem_of_app. right. left. }
        apply check_selected_field_pass in Hsf. congruence.
  - split; [intros [= <-]; by left|].
    intros [[_ ->]|([? ?] & _)]; done.
Qed.

End RoutesFacts.

(** X14.  The three answers of [validate_query].  It answers valid, with
    the preview as its SQL, exactly when every selected field resolves and
    the preview is generated.  It answers with the exception that the
    preview raised exactly when the primary entity is registered, every
    selected field resolves and the preview raises: an unknown field in a
    filter or a sort spec is not checked here, and counts only through
    what [build_query] does with it.  Otherwise the answer is invalid,
    with the unknown primary entity, or with the first selected field
    that does not resolve, its entity being unknown or its field
    undeclared. *)
Theorem validate_query_verdict registry repr_str str_upper fromisoformat now config :
  (forall sql,
     validate_query registry repr_str str_upper fromisoformat now config = Valid sql
     <-> (forall sf, sf ∈ selected_fields config ->
            resolves registry (sf_entity_id sf) (sf_field_id sf) = true)
         /\ generate_preview_sql registry repr_str str_upper fromisoformat now config = OK sql)
  /\ (forall e,
        validate_query registry repr_str str_upper fromisoformat now config = Failed e
        <-> (forall sf, sf ∈ selected_fields config ->
               resolves registry (sf_entity_id sf) (sf_field_id sf) = true)
            /\ registered registry (primary_entity config)
            /\ generate_preview_sql registry repr_str str_upper fromisoformat now config
               = Raise e)
  /\ (forall error,
        validate_query registry repr_str str_upper fromisoformat now config = Invalid error
        <-> (get_entity registry (primary_entity config) = None
             /\ error = "Unknown entity: " +:+ primary_entity config)
            \/ (registered registry (primary_entity config)
                /\ exists l1 sf l2,
                     selected_fields config = l1 ++ sf :: l2
                     /\ (forall x, x ∈ l1 ->
                           resolves registry (sf_entity_id x) (sf_field_id x) = true)
                     /\ resolves registry (sf_entity_id sf) (sf_field_id sf) = false
                     /\ error = match get_entity registry (sf_entity_id sf) with
                                | None => "Unknown entity: " +:+ sf_entity_id sf
                                | Some _ =>
                                    "Unknown field: " +:+ sf_field_id sf +:+ " in "
                                    +:+ sf_entity_id sf
                                end)).
Proof.
  split_and!.
  - intros sql. apply validate_query_valid.
  - intros e. apply validate_query_failed.
  - intros error. apply validate_query_invalid.
Qed.

(** The answers at work: a filter on an undeclared field of an entity
    that cannot be joined makes the answer the exception of the builder;
    a selected field of that kind makes it invalid. *)
Lemma validate_query_samples :
  validate_query ENTITIES sample_repr sample_upper sample_fromisoformat sample_now
    config_dangling_unjoinable
  = Failed (ValueError ("Cannot join entity 'tags' to primary entity 'objects'. "
                        +:+ "No relationship path found. "
                        +:+ "Please select fields from related entities only."))
  /\ validate_query ENTITIES sample_repr sample_upper sample_fromisoformat sample_now
       config_dangling_joined
     = Valid dangling_joined_sql
  /\ validate_query ENTITIES sample_repr sample_upper sample_fromisoformat sample_now
       config_dangling
     = Invalid "Unknown field: no_such_field in objects".
Proof. split_and!; vm_compute; reflexivity. Qed.

Lemma first_some_Some {A B} (f : A -> option B) l b :
  first_some f l = Some b -> exists x, x ∈ l /\ f x = Some b.
Proof.
  induction l as [|x l IH]; simpl; [done|].
  destruct (f x) eqn:E.
  - intros [= <-]. exists x. split; [left|done].
  - intros (y & ? & ?)%IH. exists y. split; [by right|done].
Qed.

Lemma first_some_first {A B} (f : A -> option B) l1 x l2 b :
  (forall y, y ∈ l1 -> f y = None) -> f x = Some b ->
  first_some f (l1 ++ x :: l2) = Some b.
Proof.
  induction l1 as [|y l1 IH]; simpl; intros Hnone Hx; [by rewrite Hx|].
  rewrite (Hnone y) by left. apply IH; [|done]. intros z Hz. apply Hnone. by right.
Qed.

Lemma contains_unfold sub s :
  Py.contains sub s =
  if String.prefix sub s then true
  else match s with
       | EmptyString => false
       | String _ s' => Py.contains sub s'
       end.
Proof. by destruct s. Qed.

Lemma contains_app a sub b : Py.contains sub (a +:+ sub +:+ b) = true.
Proof.
  induction a as [|c a IH].
  - change (EmptyString +:+ sub +:+ b) with (sub +:+ b).
    by rewrite contains_unfold, prefix_of_app.
  - change (String c a +:+ sub +:+ b) with (String c (a +:+ sub +:+ b)).
    rewrite contains_unfold, IH. by destruct (String.prefix _ _).
Qed.

Lemma prefix_separated k1 k2 rest :
  String.prefix k1 k2 = false -> String.prefix k2 k1 = false ->
  String.prefix (k1 +:+ "_") (k2 +:+ "_" +:+ rest) = false.
Proof.
  revert k2. induction k1 as [|c1 k1 IH]; intros [|c2 k2]; simpl; try done.
  destruct (ascii_dec c1 c2) as [->|Hne].
  - destruct (ascii_dec c2 c2); [|done]. apply IH.
  - by destruct (ascii_dec c2 c1) as [->|].
Qed.

Lemma prefix_refl s : String.prefix s s = true.
Proof. induction s as [|c s IH]; simpl; [done|]. by destruct (ascii_dec c c). Qed.

Section ColumnFacts.
Variable registry : list (string * Entity).

Lemma column_field_sound col_name entity_id field_id field :
  column_field registry col_name = Some (entity_id, field_id, field) ->
  col_name = _get_field_alias entity_id field_id None
  /\ exists entity, resolve registry entity_id field_id = Some (entity, field).
Proof.
  unfold column_field. destruct (Py.contains "_" col_name); [|done].
  intros ([k e] & Hin & H)%first_some_Some. simpl in H.
  destruct (String.prefix (k +:+ "_") col_name) eqn:Hpre; [|done].
  destruct (get_entity registry k) as [ent|] eqn:Hent; [|done].
  destruct (find_field ent _) as [fld|] eqn:Hfld; [|done].
  injection H as <- <- <-. split.
  - apply prefix_app in Hpre. rewrite Hpre at 1. unfold _get_field_alias.
    by rewrite app_assoc_s.
  - exists ent. unfold resolve. rewrite Hent. simpl. by rewrite Hfld.
Qed.

Lemma column_field_alias entity_id field_id entity field :
  prefix_free registry.*1 = true ->
  resolve registry entity_id field_id = Some (entity, field) ->
  column_field registry (_get_field_alias entity_id field_id None)
  = Some (entity_id, field_id, field).
Proof.
  intros Hfree Hres. unfold resolve in Hres.
  destruct (get_entity registry entity_id) as [ent|] eqn:Hent; [|done]. simpl in Hres.
  destruct (find_field ent field_id) as [fld|] eqn:Hfld; [|done].
  injection Hres as -> ->.
  unfold column_field, _get_field_alias.
  rewrite (contains_app entity_id "_" field_id).
  pose proof (dict_get_elem _ _ _ Hent) as Hin.
  apply list_elem_of_split in Hin as (l1 & l2 & Hsplit).
  assert (forall k, k ∈ registry.*1 -> k <> entity_id ->
            String.prefix (k +:+ "_") (entity_id +:+ "_" +:+ field_id) = false) as Hother.
  { intros k Hk Hne.
    assert (entity_id ∈ registry.*1) as He.
    { apply list_elem_of_fmap. exists (entity_id, entity). split; [done|].
      rewrite Hsplit. apply elem_of_app. right. left. }
    unfold prefix_free in Hfree. rewrite forallb_forall in Hfree.
    pose proof (Hfree k (proj1 (list_elem_of_In _ _) Hk)) as H1.
    pose proof (Hfree entity_id (proj1 (list_elem_of_In _ _) He)) as H2.
    rewrite forallb_forall in H1. rewrite forallb_forall in H2.
    specialize (H1 entity_id (proj1 (list_elem_of_In _ _) He)).
    specialize (H2 k (proj1 (list_elem_of_In _ _) Hk)).
    apply orb_true_iff in H1 as [H1|H1]; [by apply String.eqb_eq in H1|].
    apply orb_true_iff in H2 as [H2|H2]; [by apply String.eqb_eq in H2|].
    apply negb_true_iff in H1, H2. by apply prefix_separated. }
  assert (forall item : string * Entity, item.1 = entity_id ->
            (let entity_id0 := item.1 in
             let prefix := entity_id0 +:+ "_" in
             if String.prefix prefix (entity_id +:+ "_" +:+ field_id)
             then match get_entity registry entity_id0 with
                  | Some entity0 =>
                      match find_field entity0
                              (Py.drop (String.length prefix) (entity_id +:+ "_" +:+ field_id)) with
                      | Some field0 => Some (entity_id0, Py.drop (String.length prefix) (entity_id +:+ "_" +:+ field_id), field0)
                      | None => None
                      end
                  | None => None
                  end
             else None) = Some (entity_id, field_id, field)) as Hhit.
  { intros [k e] Hk. simpl in Hk. subst k. cbv zeta. simpl fst.
    rewrite <- app_assoc_s, prefix_of_app, drop_app, Hent, Hfld. done. }
  assert (exists m1 x m2, registry = m1 ++ x :: m2 /\ x.1 = entity_id
                          /\ forall y, y ∈ m1 -> y.1 <> entity_id) as (m1 & x & m2 & -> & Hx & Hm1).
  { clear -Hsplit. revert l1 Hsplit. induction registry as [|[k e] l IH]; intros l1 Hsplit.
    - by destruct l1.
    - destruct (decide (k = entity_id)) as [->|Hne].
      + exists [], (entity_id, e), l. split_and!; [done|done|]. intros y Hy. by apply elem_of_nil in Hy.
      + destruct l1 as [|z l1]; simpl in Hsplit; [by injection Hsplit as -> ->|].
        injection Hsplit as <- Hsplit. destruct (IH l1 Hsplit) as (m1 & x & m2 & -> & Hx & Hm1).
        exists ((k, e) :: m1), x, m2. split_and!; [done|done|].
        intros y [->|Hy]%elem_of_cons; [done|auto]. }
  apply first_some_first; [|by apply Hhit].
  intros [k e] Hy. cbv zeta. simpl fst.
  rewrite Hother; [done| |by apply (Hm1 (k, e))].
  apply list_elem_of_fmap. exists (k, e). split; [done|]. apply elem_of_app. by left.
Qed.
End ColumnFacts.

Lemma shipped_registry_prefix_free : prefix_free ENTITIES.*1 = true.
Proof. vm_compute. reflexivity. Qed.

Lemma aggregated_alias_unmatched k e (a : AggregationType) entity_id field_id :
  (k, e) ∈ ENTITIES ->
  String.prefix (k +:+ "_") (_get_field_alias entity_id field_id (Some a)) = false.
Proof.
  intros Hin. apply list_elem_of_In in Hin. unfold _get_field_alias.
  simpl in Hin.
  repeat (destruct Hin as [[= <- <-]|Hin]; [by destruct a|]). done.
Qed.

(** X15.  The metadata of a result column is found from its name by
    undoing [_get_field_alias]: when a field is found, the column name is
    the alias of that entity id and field id without aggregation, and the
    pair resolves to that field; and on a registry none of whose entity
    ids is a proper prefix of another, the alias of every reference that
    resolves leads back to its entity id, field id and field. *)
Theorem column_field_round_trip registry col_name entity_id field_id field :
  (column_field registry col_name = Some (entity_id, field_id, field) ->
   col_name = _get_field_alias entity_id field_id None
   /\ exists entity, resolve registry entity_id field_id = Some (entity, field))
  /\ (prefix_free registry.*1 = true ->
      forall entity, resolve registry entity_id field_id = Some (entity, field) ->
        column_field registry (_get_field_alias entity_id field_id None)
        = Some (entity_id, field_id, field)).
Proof.
  split; [apply column_field_sound|].
  intros Hfree entity. by apply column_field_alias.
Qed.

Lemma column_field_round_trip_witness :
  prefix_free ENTITIES.*1 = true
  /\ resolve ENTITIES "tracking_data_core" "device_time"
     = Some (tracking_data_core_entity, mkField "device_time" "device_time")
  /\ column_field ENTITIES "tracking_data_core_device_time"
     = Some ("tracking_data_core", "device_time", mkField "device_time" "device_time").
Proof.
  refine (conj shipped_registry_prefix_free (conj eq_refl _)).
  exact (proj2 (column_field_round_trip ENTITIES EmptyString "tracking_data_core" "device_time"
                  (mkField "device_time" "device_time"))
           shipped_registry_prefix_free tracking_data_core_entity eq_refl).
Defined.

(** X16.  On the shipped registry the column of an aggregated field never
    gets the metadata of its field: its alias starts with the name of the
    aggregation, which no entity id followed by [_] is a prefix of, so the
    column is reported with the default metadata. *)
Theorem aggregated_column_unmatched entity_id field_id (a : AggregationType) :
  column_field ENTITIES (_get_field_alias entity_id field_id (Some a)) = None.
Proof.
  unfold column_field. destruct (Py.contains _ _); [|done].
  apply first_some_None. intros [k e] Hin. cbv zeta. simpl fst.
  by rewrite (aggregated_alias_unmatched k e a entity_id field_id Hin).
Qed.

